(** * QuiltDealForge web client: outreach threads, scheduling, sign-in

    A shallow embedding of the decision logic of the dashboard's outreach
    components (apps/web), together with the properties the specification
    states about them.  React state is passed explicitly, [fetch] calls are
    recorded as a trace of requests, and JavaScript strings are [string]s
    of code units. *)

From Stdlib Require Import ZArith String Ascii List Lia Bool.
From Stdlib Require Import Sorted.
From stdpp Require Import base option list strings pretty gmap.

Local Open Scope string_scope.

(** ** JavaScript prelude *)

Module Js.

(** [!!s] for a string: only the empty string is falsy. *)
Definition truthy (s : string) : bool := negb (String.eqb s "").

(** [!!v] for [string | null | undefined]. *)
Definition truthy_opt (v : option string) : bool :=
  match v with
  | Some s => truthy s
  | None => false
  end.

(** [a || b] on strings. *)
Definition or_else (a b : string) : string := if truthy a then a else b.

(** [String.prototype.endsWith(searchString)] with the default end
    position: the last [searchLength] code units are compared. *)
Definition endsWith (s search : string) : bool :=
  let len := String.length s in
  let searchLength := String.length search in
  if (len <? searchLength)%nat then false
  else String.eqb (String.substring (len - searchLength) searchLength s) search.

(** [Array.prototype.find]. *)
Fixpoint find {A} (p : A -> bool) (l : list A) : option A :=
  match l with
  | [] => None
  | x :: r => if p x then Some x else find p r
  end.

(** [Array.prototype.findLast]: the scan runs from the end. *)
Definition findLast {A} (p : A -> bool) (l : list A) : option A :=
  find p (rev l).

(** [a ?? b] on optional values. *)
Definition coalesce {A} (a b : option A) : option A :=
  match a with
  | Some _ => a
  | None => b
  end.

(** Values a property read can produce at run time. *)
Inductive Value :=
| Undefined
| Str (s : string)
| Function (name : string)
| Object (name : string).

(** The properties every ordinary object inherits from
    [Object.prototype]. *)
Definition Object_prototype_methods : list string :=
  [ "__defineGetter__"; "__defineSetter__"; "__lookupGetter__";
    "__lookupSetter__"; "hasOwnProperty"; "isPrototypeOf";
    "propertyIsEnumerable"; "toLocaleString"; "toString"; "valueOf" ].

Definition Object_prototype (key : string) : Value :=
  if String.eqb key "constructor" then Function "Object"
  else if String.eqb key "__proto__" then Object "Object.prototype"
  else if existsb (String.eqb key) Object_prototype_methods then Function key
  else Undefined.

(** [obj[key]] on an object literal with string-valued own properties:
    own properties first, then the prototype chain. *)
Definition get (own : gmap string string) (key : string) : Value :=
  match own !! key with
  | Some v => Str v
  | None => Object_prototype key
  end.

(** [v ?? d]: only [undefined] (or [null]) takes the default. *)
Definition nullish (v d : Value) : Value :=
  match v with
  | Undefined => d
  | _ => v
  end.

(** A JavaScript number that is an integer, or [NaN].  Timestamps and
    their differences are integers well below 2^53, where the arithmetic
    below is exact. *)
Inductive Num :=
| Int (z : Z)
| NaN.

Definition sub (a b : Num) : Num :=
  match a, b with
  | Int x, Int y => Int (x - y)
  | _, _ => NaN
  end.

(** [Math.floor(a / d)] for a positive integer [d]. *)
Definition floor_div (a : Num) (d : Z) : Num :=
  match a with
  | Int x => Int (x / d)
  | NaN => NaN
  end.

(** [a >= k]: false on [NaN]. *)
Definition ge (a : Num) (k : Z) : bool :=
  match a with
  | Int x => (k <=? x)%Z
  | NaN => false
  end.

(** The sign a sort comparator's result is read with: [NaN] counts
    as [+0]. *)
Definition negative (a : Num) : bool :=
  match a with
  | Int x => (x <? 0)%Z
  | NaN => false
  end.

(** [Array.prototype.filter] with the index argument. *)
Fixpoint filteri {A} (p : A -> nat -> bool) (i : nat) (l : list A) : list A :=
  match l with
  | [] => []
  | x :: r => if p x i then x :: filteri p (S i) r else filteri p (S i) r
  end.

(** [Array.prototype.map] with the index argument. *)
Fixpoint mapi {A B} (f : A -> nat -> B) (i : nat) (l : list A) : list B :=
  match l with
  | [] => []
  | x :: r => f x i :: mapi f (S i) r
  end.

(** [Array.prototype.sort(cmp)], a stable sort: each element goes in
    front of the first one it compares strictly below. *)
Fixpoint sort_insert {A} (cmp : A -> A -> Num) (x : A) (l : list A) : list A :=
  match l with
  | [] => [x]
  | y :: r => if negative (cmp x y) then x :: y :: r
              else y :: sort_insert cmp x r
  end.

Definition sort {A} (cmp : A -> A -> Num) (l : list A) : list A :=
  fold_left (fun acc x => sort_insert cmp x acc) l [].

End Js.

(** ** lib/constants.ts *)

Module Constants.

Definition KNOWN_SECTOR_COLORS : gmap string string :=
  list_to_map
    [ ("IVF", "bg-pink-100 text-pink-700");
      ("SDIRA", "bg-emerald-100 text-emerald-700");
      ("Accounting", "bg-cyan-100 text-cyan-700");
      ("HOA", "bg-violet-100 text-violet-700");
      ("RCM", "bg-amber-100 text-amber-700");
      ("Defense", "bg-sky-100 text-sky-700");
      ("Healthcare", "bg-rose-100 text-rose-700");
      ("Dental", "bg-teal-100 text-teal-700");
      ("Mental Health", "bg-indigo-100 text-indigo-700");
      ("Technology", "bg-blue-100 text-blue-700");
      ("Veterinary", "bg-lime-100 text-lime-700");
      ("Physical Therapy", "bg-orange-100 text-orange-700");
      ("Pharmacy", "bg-fuchsia-100 text-fuchsia-700");
      ("Other", "bg-gray-100 text-gray-600") ].

Definition FALLBACK_SECTOR_COLOR : string := "bg-gray-100 text-gray-600".

Definition getSectorColor (sector : string) : Js.Value :=
  Js.nullish (Js.get KNOWN_SECTOR_COLORS sector) (Js.Str FALLBACK_SECTOR_COLOR).

End Constants.

(** ** lib/auth.ts *)

Module Auth.

Definition ALLOWED_DOMAIN : string := "quilt-cap.com".

(** The part of the OAuth profile the callback reads. *)
Record Profile := { email : option string }.

(** [signIn({ profile })]: [profile?.email ?? ""] must end with
    ["@" + ALLOWED_DOMAIN]. *)
Definition signIn (profile : option Profile) : bool :=
  let email := default "" (profile ≫= email) in
  if negb (Js.endsWith email ("@" +:+ ALLOWED_DOMAIN)) then false
  else true.

End Auth.

(** ** types/index.ts *)

Module ThreadStatus.
Inductive t :=
| draft | sent | awaiting_response | responded | meeting_scheduled | passed.

Definition eqb (a b : t) : bool :=
  match a, b with
  | draft, draft | sent, sent | awaiting_response, awaiting_response
  | responded, responded | meeting_scheduled, meeting_scheduled
  | passed, passed => true
  | _, _ => false
  end.
End ThreadStatus.

Module MessageType.
Inductive t := initial | follow_up | scheduling_reply.

Definition eqb (a b : t) : bool :=
  match a, b with
  | initial, initial | follow_up, follow_up
  | scheduling_reply, scheduling_reply => true
  | _, _ => false
  end.
End MessageType.

Module MessageStatus.
Inductive t := draft | approved | sent | failed | bounced.

Definition eqb (a b : t) : bool :=
  match a, b with
  | draft, draft | approved, approved | sent, sent | failed, failed
  | bounced, bounced => true
  | _, _ => false
  end.
End MessageStatus.

Module ProposedSlot.
Record t := { datetime : string; label : string }.
End ProposedSlot.

Module OutreachThreadMessage.
Record t := {
  id : string;
  thread_id : string;
  sequence : Z;
  message_type : MessageType.t;
  to_email : string;
  subject : string;
  body_html : string;
  status : MessageStatus.t;
  sent_at : option string;
  gmail_message_id : option string;
  gmail_thread_id : option string;
  error_message : option string;
  created_at : string;
}.
End OutreachThreadMessage.

Module OutreachThread.
Record t := {
  id : string;
  project_id : string;
  company_id : string;
  contact_id : option string;
  status : ThreadStatus.t;
  follow_up_count : Z;
  next_follow_up_at : option string;
  last_sent_at : option string;
  response_received_at : option string;
  response_summary : option string;
  proposed_slots : option (list ProposedSlot.t);
  created_at : string;
  updated_at : string;
  (* populated by API joins *)
  company_name : option string;
  company_sector : option string;
  company_location : option string;
  contact_name : option string;
  contact_email : option string;
  contact_title : option string;
  messages : list OutreachThreadMessage.t;
}.
End OutreachThread.

Module EnrichmentStatus.
Inductive t := not_started | pending | completed | failed | unknown.
End EnrichmentStatus.

Module Contact.
Record t := {
  id : string;
  name : string;
  title : option string;
  email : option string;
  phone : option string;
  linkedin_url : option string;
  facebook_url : option string;
  enrichment_source : option string;
  enriched_at : option string;
}.
End Contact.

Module EnrichmentStatusResponse.
Record t := {
  status : EnrichmentStatus.t;
  contact : option Contact.t;
}.
End EnrichmentStatusResponse.

Module ProjectCompanyEntry.
Record t := {
  id : string;
  company_id : string;
  company_name : string;
  company_sector : string;
  company_stage : string;
  company_location : option string;
  notes : option string;
  added_at : string;
}.
End ProjectCompanyEntry.

Module ProjectDetail.
Record t := {
  id : string;
  name : string;
  description : option string;
  color : string;
  companies : list ProjectCompanyEntry.t;
}.
End ProjectDetail.

Module Session.
Record User := { id : string; email : string; name : string; role : string }.
Record t := { user : User; accessToken : option string }.

(** [(session as { accessToken?: string }).accessToken ?? ""] *)
Definition token (s : t) : string := default "" (accessToken s).
End Session.

Module BulkCounts.
Record t := { total : Z; generated : Z; skipped : Z; errors : Z }.
End BulkCounts.

(** ** The client's view of the REST API

    Each constructor is one [fetch] call site of the components below,
    indexed by the type its JSON body is read at.  The [authHeaders]
    object, identical at every call site, is not repeated here. *)

Module Api.

Inductive Request : Type -> Type :=
(* POST /outreach/threads *)
| CreateThread (project_id company_id : string) : Request OutreachThread.t
(* GET /outreach/threads/:id *)
| GetThread (threadId : string) : Request OutreachThread.t
(* POST /outreach/threads/:id/generate-draft *)
| GenerateDraft (threadId : string) (message_type : MessageType.t)
  : Request OutreachThreadMessage.t
(* POST /outreach/threads/:id/generate-scheduling-reply *)
| GenerateSchedulingReply (threadId : string)
    (proposed_slots : list ProposedSlot.t) (assistant_name : option string)
  : Request OutreachThreadMessage.t
(* POST /outreach/messages/:id/send, with the X-Gmail-Token header *)
| SendMessage (messageId : string) (gmailToken : string) : Request unit
(* PATCH /outreach/threads/:id  { status } *)
| PatchThreadStatus (threadId : string) (status : ThreadStatus.t)
  : Request OutreachThread.t
(* PATCH /outreach/messages/:id  { subject, body_html } *)
| PatchMessage (messageId : string) (subject body_html : string)
  : Request OutreachThreadMessage.t
(* POST /outreach/threads/bulk-generate *)
| BulkGenerate (project_id : string) (company_ids : list string)
    (message_type : MessageType.t) : Request BulkCounts.t
(* POST /outreach/threads/bulk-send *)
| BulkSend (message_ids : list string) (sender_email gmailToken : string)
  : Request unit
(* POST /outreach/threads/:id/mark-responded *)
| MarkResponded (threadId : string) (response_summary : option string)
  : Request OutreachThread.t.

(** What awaiting [fetch] gives: a response with [res.ok], a response
    with an error status (and the [detail] of its body, if any), or a
    rejected promise. *)
Inductive Response (R : Type) :=
| Ok (body : R)
| NotOk (detail : option string)
| Rejected.
Arguments Ok {R} body.
Arguments NotOk {R} detail.
Arguments Rejected {R}.

(** Calls out of a handler that are not requests: callbacks received as
    props, state setters and [alert]. *)
Inductive Effect :=
| Alert (text : string)
| OnThreadUpdated (thread : OutreachThread.t)
| OnThreadsChanged
| OnRefresh
| OnGenerated
| SetGeneratedMessage (msg : OutreachThreadMessage.t)
| SetGenerating (b : bool)
| SetGeneratingId (threadId : option string)
| SetSending (b : bool)
| SetBulkGenerating (b : bool)
| SetGenError (e : option string).

(** An async handler: it returns, throws, performs an effect, or awaits
    a request and continues with the response. *)
Inductive Prog (A : Type) : Type :=
| Ret (a : A)
| Throw (msg : string)
| Emit (e : Effect) (k : Prog A)
| Fetch {R : Type} (r : Request R) (k : Response R -> Prog A).
Arguments Ret {A} a.
Arguments Throw {A} msg.
Arguments Emit {A} e k.
Arguments Fetch {A R} r k.

Fixpoint bind {A B} (p : Prog A) (f : A -> Prog B) : Prog B :=
  match p with
  | Ret a => f a
  | Throw m => Throw m
  | Emit e k => Emit e (bind k f)
  | Fetch r k => Fetch r (fun res => bind (k res) f)
  end.

(** [try { p } finally { e }] *)
Fixpoint finally {A} (p : Prog A) (e : Effect) : Prog A :=
  match p with
  | Ret a => Emit e (Ret a)
  | Throw m => Emit e (Throw m)
  | Emit e' k => Emit e' (finally k e)
  | Fetch r k => Fetch r (fun res => finally (k res) e)
  end.

(** [try { p } catch (e) { h }] *)
Fixpoint catch {A} (p : Prog A) (h : Prog A) : Prog A :=
  match p with
  | Ret a => Ret a
  | Throw _ => h
  | Emit e k => Emit e (catch k h)
  | Fetch r k => Fetch r (fun res => catch (k res) h)
  end.

(** [await fetch(r)] where a rejected promise propagates as an
    exception. *)
Definition await {A R} (r : Request R) (ok : R -> Prog A)
    (notOk : option string -> Prog A) : Prog A :=
  Fetch r (fun res =>
    match res with
    | Ok body => ok body
    | NotOk detail => notOk detail
    | Rejected => Throw "TypeError: fetch failed"
    end).

Inductive Event :=
| Requested {R : Type} (r : Request R)
| Performed (e : Effect).

Inductive Outcome (A : Type) :=
| Returned (a : A)
| Thrown (msg : string).
Arguments Returned {A} a.
Arguments Thrown {A} msg.

(** Running a handler against a server: the events in the order they
    happen, the outcome and the server's final state. *)
Fixpoint run {A S : Type}
    (server : forall R, Request R -> S -> Response R * S)
    (p : Prog A) (s : S) : Outcome A * list Event * S :=
  match p with
  | Ret a => (Returned a, [], s)
  | Throw m => (Thrown m, [], s)
  | Emit e k =>
      let '(o, tr, s') := run server k s in (o, Performed e :: tr, s')
  | Fetch r k =>
      let '(res, s1) := server _ r s in
      let '(o, tr, s') := run server (k res) s1 in
      (o, Requested r :: tr, s')
  end.

Definition is_request (ev : Event) : bool :=
  match ev with
  | Requested _ => true
  | Performed _ => false
  end.

(** The requests of a trace. *)
Definition requests (tr : list Event) : list Event := List.filter is_request tr.

(** The events of a handler's run. *)
Definition trace {A S : Type}
    (server : forall R, Request R -> S -> Response R * S)
    (p : Prog A) (s : S) : list Event :=
  snd (fst (run server p s)).

(** A [PATCH] of a thread's status to [meeting_scheduled]. *)
Definition is_meeting_patch (ev : Event) : bool :=
  match ev with
  | Requested (PatchThreadStatus _ ThreadStatus.meeting_scheduled) => true
  | _ => false
  end.

End Api.

(** ** components/projects/CompanyDetailPanel.tsx *)

Module CompanyDetailPanel.
Import Api.

(** [thread?.messages?.find((m) => m.message_type === "initial")] *)
Definition initialDraft (thread : option OutreachThread.t)
  : option OutreachThreadMessage.t :=
  t ← thread;
  Js.find
    (fun m => MessageType.eqb (OutreachThreadMessage.message_type m)
                MessageType.initial)
    (OutreachThread.messages t).

(** [thread?.messages?.length ? thread.messages[length - 1] : null] *)
Definition latestMessage (thread : option OutreachThread.t)
  : option OutreachThreadMessage.t :=
  t ← thread; last (OutreachThread.messages t).

Definition ensureThread (thread : option OutreachThread.t)
    (projectId : string) (company : ProjectCompanyEntry.t) : Prog string :=
  match thread with
  | Some t => Ret (OutreachThread.id t)
  | None =>
      await (CreateThread projectId (ProjectCompanyEntry.company_id company))
        (fun created =>
           Emit (OnThreadUpdated created) (Ret (OutreachThread.id created)))
        (fun _ => Throw "Failed to create thread")
  end.

Definition handleGenerateDraft (thread : option OutreachThread.t)
    (projectId : string) (company : ProjectCompanyEntry.t)
    (messageType : MessageType.t) : Prog unit :=
  Emit (SetGenerating true) (Emit (SetGenError None)
    (finally
       (catch
          (bind (ensureThread thread projectId company) (fun threadId =>
             await (GenerateDraft threadId messageType)
               (fun _ =>
                  (* reload the thread *)
                  await (GetThread threadId)
                    (fun t => Emit (OnThreadUpdated t) (Ret tt))
                    (fun _ => Ret tt))
               (fun detail =>
                  Emit (SetGenError (Some
                    (Js.or_else (default "Draft generation failed" detail)
                       "Draft generation failed. Please add contact info first.")))
                    (Ret tt))))
          (Emit (SetGenError (Some
             "Draft generation failed. Check that contact info is available."))
             (Ret tt)))
       (SetGenerating false))).

(** The message handed to the editor:
    [messages.findLast((m) => m.status === "draft") ?? initialDraft ?? null] *)
Definition editorMessage (thread : option OutreachThread.t)
  : option OutreachThreadMessage.t :=
  Js.coalesce
    (t ← thread;
     Js.findLast
       (fun m => MessageStatus.eqb (OutreachThreadMessage.status m)
                   MessageStatus.draft)
       (OutreachThread.messages t))
    (initialDraft thread).

(** [const msg = initialDraft ?? latestMessage] in [handleSendMessage]. *)
Definition sendTarget (thread : option OutreachThread.t)
  : option OutreachThreadMessage.t :=
  Js.coalesce (initialDraft thread) (latestMessage thread).

Definition handleSaveMessage (thread : option OutreachThread.t)
    (subject bodyHtml : string) : Prog unit :=
  match latestMessage thread with
  | None => Ret tt
  | Some m =>
      Fetch (PatchMessage (OutreachThreadMessage.id m) subject bodyHtml)
        (fun res =>
           match res with
           | Rejected => Throw "TypeError: fetch failed"
           | _ => Ret tt
           end)
  end.

Definition handleSendMessage (thread : option OutreachThread.t)
    (session : option Session.t) : Prog unit :=
  match sendTarget thread, session with
  | Some msg, Some sess =>
      Emit (SetSending true)
        (finally
           (await (SendMessage (OutreachThreadMessage.id msg) (Session.token sess))
              (fun _ =>
                 match thread with
                 | Some t =>
                     await (GetThread (OutreachThread.id t))
                       (fun t' => Emit (OnThreadUpdated t') (Ret tt))
                       (fun _ => Ret tt)
                 | None => Ret tt
                 end)
              (fun _ => Ret tt))
           (SetSending false))
  | _, _ => Ret tt
  end.

(** [summary] is what [prompt] returned. *)
Definition handleMarkResponded (thread : option OutreachThread.t)
    (summary : option string) : Prog unit :=
  match thread with
  | None => Ret tt
  | Some t =>
      await (MarkResponded (OutreachThread.id t)
               (if Js.truthy_opt summary then summary else None))
        (fun t' => Emit (OnThreadUpdated t') (Ret tt))
        (fun _ => Ret tt)
  end.

(** The "Draft Scheduling Reply" button is rendered when
    [thread?.status === "responded"]. *)
Definition showSchedulingReply (thread : option OutreachThread.t) : bool :=
  match thread with
  | Some t => ThreadStatus.eqb (OutreachThread.status t) ThreadStatus.responded
  | None => false
  end.

(** Its click: [handleGenerateDraft("scheduling_reply")]. *)
Definition clickSchedulingReply (thread : option OutreachThread.t)
    (projectId : string) (company : ProjectCompanyEntry.t) : Prog unit :=
  handleGenerateDraft thread projectId company MessageType.scheduling_reply.

End CompanyDetailPanel.

(** ** components/projects/EmailDraftEditor.tsx *)

Module EmailDraftEditor.

(** What the rendered editor lets the user do. *)
Record View := {
  showGenerate : bool;        (* the "Generate Draft" button *)
  showSubject : bool;         (* the subject input *)
  subjectDisabled : bool;     (* its [disabled] attribute *)
  showEditToggle : bool;      (* the "Edit HTML" / "Preview" switch *)
  showBodyTextarea : bool;    (* the editable body *)
  showSave : bool;
  showRegenerate : bool;
  showSend : bool;
  sendDisabled : bool;
  showSentBanner : bool;
}.

Definition render (message : option OutreachThreadMessage.t)
    (isGenerating hasContact editMode dirty : bool) : View :=
  if isGenerating then
    (* the spinner alone *)
    {| showGenerate := false; showSubject := false; subjectDisabled := false;
       showEditToggle := false; showBodyTextarea := false; showSave := false;
       showRegenerate := false; showSend := false; sendDisabled := false;
       showSentBanner := false |}
  else
    match message with
    | None =>
        {| showGenerate := hasContact; showSubject := false;
           subjectDisabled := false; showEditToggle := false;
           showBodyTextarea := false; showSave := false;
           showRegenerate := false; showSend := false; sendDisabled := false;
           showSentBanner := false |}
    | Some message =>
        let isSent :=
          MessageStatus.eqb (OutreachThreadMessage.status message)
            MessageStatus.sent in
        let missingEmail :=
          negb (Js.truthy (OutreachThreadMessage.to_email message)) in
        {| showGenerate := false;
           showSubject := true;
           subjectDisabled := isSent;
           showEditToggle := negb isSent;
           showBodyTextarea := editMode && negb isSent;
           showSave := negb isSent && dirty;
           showRegenerate := negb isSent;
           showSend := negb isSent;
           sendDisabled := missingEmail;
           showSentBanner := isSent |}
    end.

End EmailDraftEditor.

(** ** components/projects/DraftsGrid.tsx *)

Module DraftsGrid.

Inductive StatusFilter := all | draft | sent | failed.

Record Row := { thread : OutreachThread.t; message : OutreachThreadMessage.t }.

(** [filter === "all" || m.status === filter] *)
Definition matches (filter : StatusFilter) (st : MessageStatus.t) : bool :=
  match filter, st with
  | all, _ => true
  | draft, MessageStatus.draft => true
  | sent, MessageStatus.sent => true
  | failed, MessageStatus.failed => true
  | _, _ => false
  end.

Definition rows (threads : list OutreachThread.t) (filter : StatusFilter)
  : list Row :=
  t ← threads;
  m ← OutreachThread.messages t;
  if matches filter (OutreachThreadMessage.status m)
  then [ {| thread := t; message := m |} ] else [].

(** [message.status === "draft" || message.status === "approved"] *)
Definition isSendable (m : OutreachThreadMessage.t) : bool :=
  MessageStatus.eqb (OutreachThreadMessage.status m) MessageStatus.draft
  || MessageStatus.eqb (OutreachThreadMessage.status m) MessageStatus.approved.

(** The editing state of the grid: [editingId], [editSubject],
    [editBody] and [previewId]. *)
Record Editing := {
  editingId : option string;
  editSubject : string;
  editBody : string;
  previewId : option string;
}.

(** [useState(null)], [useState("")], [useState("")], [useState(null)] *)
Definition initialEditing : Editing :=
  {| editingId := None; editSubject := ""; editBody := ""; previewId := None |}.

(** [state === message.id] for a state that is a string or [null]. *)
Definition is_id (state : option string) (m : OutreachThreadMessage.t) : bool :=
  match state with
  | Some id => String.eqb id (OutreachThreadMessage.id m)
  | None => false
  end.

(** What a row renders: the selection checkbox, the preview button and the
    edit button of the row itself, and below it the preview pane and the
    edit form with its "Save Changes" and "Cancel" buttons. *)
Record RowControls := {
  showSelect : bool;
  showPreview : bool;
  showEdit : bool;
  showPreviewPane : bool;
  showEditForm : bool;
}.

Definition rowControls (st : Editing) (r : Row) : RowControls :=
  {| showSelect := isSendable (message r);
     showPreview := true;
     showEdit := isSendable (message r);
     showPreviewPane := is_id (previewId st) (message r);
     showEditForm := is_id (editingId st) (message r) |}.

(** The click on a row's preview button. *)
Definition clickPreview (st : Editing) (m : OutreachThreadMessage.t) : Editing :=
  if is_id (previewId st) m then
    {| editingId := editingId st; editSubject := editSubject st;
       editBody := editBody st; previewId := None |}
  else
    {| editingId := None; editSubject := editSubject st;
       editBody := editBody st;
       previewId := Some (OutreachThreadMessage.id m) |}.

(** The click on a row's edit button. *)
Definition clickEdit (st : Editing) (m : OutreachThreadMessage.t) : Editing :=
  if is_id (editingId st) m then
    {| editingId := None; editSubject := editSubject st;
       editBody := editBody st; previewId := previewId st |}
  else
    {| editingId := Some (OutreachThreadMessage.id m);
       editSubject := OutreachThreadMessage.subject m;
       editBody := OutreachThreadMessage.body_html m;
       previewId := None |}.

(** The click on the edit form's "Cancel". *)
Definition clickCancel (st : Editing) : Editing :=
  {| editingId := None; editSubject := editSubject st;
     editBody := editBody st; previewId := previewId st |}.

Definition toggleSelect (selected : gset string) (id : string) : gset string :=
  if decide (id ∈ selected) then selected ∖ {[ id ]} else selected ∪ {[ id ]}.

Definition selectAll (rs : list Row) (selected : gset string) : gset string :=
  let sendable := List.filter (fun r => isSendable (message r)) rs in
  if (size selected =? length sendable)%nat then ∅
  else list_to_set (map (fun r => OutreachThreadMessage.id (message r)) sendable).

(** The counters of the filter tabs. *)
Module Stats.
Record t := { drafts : nat; sent : nat; failed : nat; total : nat }.
End Stats.

(** One turn of the inner loop of [stats]: [drafts], [sent], [failed]. *)
Definition tally (acc : nat * nat * nat) (m : OutreachThreadMessage.t)
  : nat * nat * nat :=
  let '(d, s, f) := acc in
  match OutreachThreadMessage.status m with
  | MessageStatus.draft | MessageStatus.approved => (S d, s, f)
  | MessageStatus.sent => (d, S s, f)
  | MessageStatus.failed => (d, s, S f)
  | MessageStatus.bounced => (d, s, f)
  end.

Definition stats (threads : list OutreachThread.t) : Stats.t :=
  let '(d, s, f) :=
    fold_left (fun acc t => fold_left tally (OutreachThread.messages t) acc)
      threads (0, 0, 0) in
  {| Stats.drafts := d; Stats.sent := s; Stats.failed := f;
     Stats.total := d + s + f |}.

(** The number on the "Send n Selected" button. *)
Definition sendableCount (rs : list Row) (selected : gset string) : nat :=
  length
    (List.filter
       (fun r => bool_decide (OutreachThreadMessage.id (message r) ∈ selected)
                 && isSendable (message r)) rs).

(** [handleBulkSend]; the result is the [selected] state it leaves. *)
Definition handleBulkSend (selected : gset string) (session : option Session.t)
  : Api.Prog (gset string) :=
  match session with
  | None => Api.Ret selected
  | Some sess =>
      if (size selected =? 0)%nat then Api.Ret selected
      else
        Api.Emit (Api.SetSending true)
          (Api.finally
             (Api.await
                (Api.BulkSend (elements selected)
                   (Session.email (Session.user sess)) (Session.token sess))
                (fun _ => Api.Emit Api.OnRefresh (Api.Ret ∅))
                (fun _ => Api.Ret selected))
             (Api.SetSending false))
  end.

(** [handleSaveEdit]; the result is the [editingId] state it leaves. *)
Definition handleSaveEdit (editingId : option string)
    (editSubject editBody : string) : Api.Prog (option string) :=
  match editingId with
  | Some id =>
      if negb (Js.truthy id) then Api.Ret editingId
      else
        Api.Fetch (Api.PatchMessage id editSubject editBody)
          (fun res =>
             match res with
             | Api.Rejected => Api.Throw "TypeError: fetch failed"
             | _ => Api.Emit Api.OnRefresh (Api.Ret None)
             end)
  | None => Api.Ret editingId
  end.

End DraftsGrid.

(** ** components/projects/SchedulingModal.tsx *)

Module SchedulingModal.
Import Api.

Record Slot := { date : string; time : string; label : string }.

(** The initial value of the [slots] state. *)
Definition initialSlots : list Slot :=
  [ {| date := ""; time := "10:00"; label := "" |};
    {| date := ""; time := "14:00"; label := "" |} ].

(** [keyof Slot] *)
Inductive SlotKey := key_date | key_time | key_label.

(** [{ ...s, [field]: value }] *)
Definition withField (s : Slot) (field : SlotKey) (value : string) : Slot :=
  match field with
  | key_date => {| date := value; time := time s; label := label s |}
  | key_time => {| date := date s; time := value; label := label s |}
  | key_label => {| date := date s; time := time s; label := value |}
  end.

Definition updateSlot (slots : list Slot) (index : nat) (field : SlotKey)
    (value : string) : list Slot :=
  Js.mapi (fun s i => if (i =? index)%nat then withField s field value else s)
    0 slots.

Definition addSlot (slots : list Slot) : list Slot :=
  if (5 <=? length slots)%nat then slots
  else slots ++ [ {| date := ""; time := "10:00"; label := "" |} ].

Definition removeSlot (slots : list Slot) (index : nat) : list Slot :=
  if (length slots <=? 2)%nat then slots
  else Js.filteri (fun _ i => negb (i =? index)%nat) 0 slots.

(** What the user can do to the slot list: the "Add Slot" button, a row's
    trash button, and typing into one of a row's inputs. *)
Inductive SlotAction :=
| ClickAdd
| ClickRemove (index : nat)
| Edit (index : nat) (field : SlotKey) (value : string).

Definition act (slots : list Slot) (a : SlotAction) : list Slot :=
  match a with
  | ClickAdd => addSlot slots
  | ClickRemove i => removeSlot slots i
  | Edit i field value => updateSlot slots i field value
  end.

Section Handlers.
(** [formatSlotLabel(date, time)], a locale-dependent rendering. *)
Variable formatSlotLabel : string -> string -> string.

Definition validSlots (slots : list Slot) : list ProposedSlot.t :=
  map (fun s =>
         {| ProposedSlot.datetime := date s +:+ "T" +:+ time s;
            ProposedSlot.label :=
              Js.or_else (label s) (formatSlotLabel (date s) (time s)) |})
      (List.filter (fun s => Js.truthy (date s)) slots).

Definition handleGenerate (thread : OutreachThread.t) (slots : list Slot)
    (assistantName : string) : Prog unit :=
  let valid := validSlots slots in
  if (length valid <? 2)%nat then
    Emit (Alert "Please provide at least 2 time slots.") (Ret tt)
  else
    Emit (SetGenerating true)
      (finally
         (await
            (GenerateSchedulingReply (OutreachThread.id thread) valid
               (if Js.truthy assistantName then Some assistantName else None))
            (fun msg => Emit (SetGeneratedMessage msg) (Ret tt))
            (fun _ => Ret tt))
         (SetGenerating false)).
End Handlers.

Definition handleSend (thread : OutreachThread.t)
    (generatedMessage : option OutreachThreadMessage.t)
    (session : option Session.t) : Prog unit :=
  match generatedMessage, session with
  | Some msg, Some sess =>
      Emit (SetSending true)
        (finally
           (await (SendMessage (OutreachThreadMessage.id msg) (Session.token sess))
              (fun _ =>
                 (* update thread status to meeting_scheduled *)
                 Fetch (PatchThreadStatus (OutreachThread.id thread)
                          ThreadStatus.meeting_scheduled)
                   (fun res =>
                      match res with
                      | Rejected => Throw "TypeError: fetch failed"
                      | _ => Emit OnGenerated (Ret tt)
                      end))
              (fun _ => Ret tt))
           (SetSending false))
  | _, _ => Ret tt
  end.

(** The [generatedMessage] state after the effects of a run. *)
Definition generatedAfter (tr : list Api.Event)
    (generatedMessage : option OutreachThreadMessage.t)
  : option OutreachThreadMessage.t :=
  fold_left
    (fun g ev =>
       match ev with
       | Api.Performed (Api.SetGeneratedMessage msg) => Some msg
       | _ => g
       end) tr generatedMessage.

End SchedulingModal.

(** ** components/projects/FollowUpPanel.tsx *)

Module FollowUpPanel.

Section Clock.
(** [Date.now()], in milliseconds. *)
Variable Date_now : Z.
(** [new Date(s).getTime()]: milliseconds, or [NaN] for a string that
    is not a date. *)
Variable Date_getTime : string -> Js.Num.

Definition daysSince (dateStr : option string) : Js.Num :=
  if negb (Js.truthy_opt dateStr) then Js.Int 0
  else
    let diff := Js.sub (Js.Int Date_now) (Date_getTime (default "" dateStr)) in
    Js.floor_div diff (1000 * 60 * 60 * 24).

Record Groups := {
  needsFollowUp : list OutreachThread.t;
  responded : list OutreachThread.t;
  scheduled : list OutreachThread.t;
}.

(** One turn of the [for (const t of threads)] loop. *)
Definition place (g : Groups) (t : OutreachThread.t) : Groups :=
  match OutreachThread.status t with
  | ThreadStatus.awaiting_response | ThreadStatus.sent =>
      {| needsFollowUp := needsFollowUp g ++ [t];
         responded := responded g; scheduled := scheduled g |}
  | ThreadStatus.responded =>
      {| needsFollowUp := needsFollowUp g;
         responded := responded g ++ [t]; scheduled := scheduled g |}
  | ThreadStatus.meeting_scheduled =>
      {| needsFollowUp := needsFollowUp g;
         responded := responded g; scheduled := scheduled g ++ [t] |}
  | _ => g
  end.

(** The comparator of [nfu.sort]: oldest first. *)
Definition urgency (a b : OutreachThread.t) : Js.Num :=
  Js.sub (daysSince (OutreachThread.last_sent_at b))
         (daysSince (OutreachThread.last_sent_at a)).

Definition categorize (threads : list OutreachThread.t) : Groups :=
  let g := fold_left place threads
             {| needsFollowUp := []; responded := []; scheduled := [] |} in
  {| needsFollowUp := Js.sort urgency (needsFollowUp g);
     responded := responded g; scheduled := scheduled g |}.

(** [const isOverdue = days >= 5] for a row of the needs-follow-up
    list. *)
Definition isOverdue (t : OutreachThread.t) : bool :=
  let days := daysSince (OutreachThread.last_sent_at t) in
  Js.ge days 5.
End Clock.

Definition handleGenerateFollowUp (threadId : string) : Api.Prog unit :=
  Api.Emit (Api.SetGeneratingId (Some threadId))
    (Api.finally
       (Api.await (Api.GenerateDraft threadId MessageType.follow_up)
          (fun _ => Api.Emit Api.OnRefresh (Api.Ret tt))
          (fun _ => Api.Ret tt))
       (Api.SetGeneratingId None)).

(** [summary] is what [prompt] returned. *)
Definition handleMarkResponded (threadId : string) (summary : option string)
  : Api.Prog unit :=
  Api.await (Api.MarkResponded threadId
               (if Js.truthy_opt summary then summary else None))
    (fun _ => Api.Emit Api.OnRefresh (Api.Ret tt))
    (fun _ => Api.Ret tt).

(** [needsFollowUp.length === 0 && responded.length === 0 &&
    scheduled.length === 0] *)
Definition isEmpty (g : Groups) : bool :=
  (length (needsFollowUp g) =? 0)%nat && (length (responded g) =? 0)%nat
  && (length (scheduled g) =? 0)%nat.

End FollowUpPanel.

(** ** components/projects/ProjectCRM.tsx *)

Module ProjectCRM.
Import Api.

(** The plain object [threadMap]: its own properties, and the thread that
    an assignment to [__proto__] has put in the place of
    [Object.prototype] as its prototype, if any. *)
Record ThreadMap := {
  own : gmap string OutreachThread.t;
  proto : option OutreachThread.t;
}.

(** [threadMap[t.company_id] = t].  Every key but [__proto__] becomes an
    own property; [__proto__] is the accessor every object inherits, and
    its setter makes the thread, an object, the prototype of the map. *)
Definition assign (m : ThreadMap) (t : OutreachThread.t) : ThreadMap :=
  if String.eqb (OutreachThread.company_id t) "__proto__"
  then {| own := own m; proto := Some t |}
  else {| own := <[ OutreachThread.company_id t := t ]> (own m);
          proto := proto m |}.

(** [const threadMap = {}; for (const t of threads) threadMap[t.company_id] = t] *)
Definition threadMap (threads : list OutreachThread.t) : ThreadMap :=
  fold_left assign threads {| own := ∅; proto := None |}.

(** What reading a property of [threadMap] can yield: a thread stored in
    it, a field of the thread that is its prototype, or what
    [Object.prototype] has under that name ([undefined] when nothing). *)
Inductive Read :=
| Thread (t : OutreachThread.t)
| Text (s : string)
| Count (n : Z)
| Slots (l : list ProposedSlot.t)
| Messages (l : list OutreachThreadMessage.t)
| Null
| Builtin (v : Js.Value).

(** The value of [ThreadStatus] as the string it is. *)
Definition statusText (st : ThreadStatus.t) : string :=
  match st with
  | ThreadStatus.draft => "draft"
  | ThreadStatus.sent => "sent"
  | ThreadStatus.awaiting_response => "awaiting_response"
  | ThreadStatus.responded => "responded"
  | ThreadStatus.meeting_scheduled => "meeting_scheduled"
  | ThreadStatus.passed => "passed"
  end.

(** A field of type [string | null]. *)
Definition nullable (o : option string) : Read :=
  match o with
  | Some s => Text s
  | None => Null
  end.

(** A field declared with [?]: no property when it has no value. *)
Definition optional (name : string) (o : option string)
  : list (string * Read) :=
  match o with
  | Some s => [(name, Text s)]
  | None => []
  end.

(** The own properties of a thread object, by name. *)
Definition fields (p : OutreachThread.t) : list (string * Read) :=
  [ ("id", Text (OutreachThread.id p));
    ("project_id", Text (OutreachThread.project_id p));
    ("company_id", Text (OutreachThread.company_id p));
    ("contact_id", nullable (OutreachThread.contact_id p));
    ("status", Text (statusText (OutreachThread.status p)));
    ("follow_up_count", Count (OutreachThread.follow_up_count p));
    ("next_follow_up_at", nullable (OutreachThread.next_follow_up_at p));
    ("last_sent_at", nullable (OutreachThread.last_sent_at p));
    ("response_received_at", nullable (OutreachThread.response_received_at p));
    ("response_summary", nullable (OutreachThread.response_summary p));
    ("proposed_slots",
     match OutreachThread.proposed_slots p with
     | Some l => Slots l
     | None => Null
     end);
    ("created_at", Text (OutreachThread.created_at p));
    ("updated_at", Text (OutreachThread.updated_at p));
    ("messages", Messages (OutreachThread.messages p)) ]
  ++ optional "company_name" (OutreachThread.company_name p)
  ++ optional "company_sector" (OutreachThread.company_sector p)
  ++ optional "company_location" (OutreachThread.company_location p)
  ++ optional "contact_name" (OutreachThread.contact_name p)
  ++ optional "contact_email" (OutreachThread.contact_email p)
  ++ optional "contact_title" (OutreachThread.contact_title p).

Definition field (p : OutreachThread.t) (key : string) : option Read :=
  snd <$> Js.find (fun kv => String.eqb (fst kv) key) (fields p).

(** [threadMap[key]]: [__proto__] reads the prototype back; any other key
    is looked up among the own properties, then in the thread that is the
    prototype, then in [Object.prototype]. *)
Definition read (m : ThreadMap) (key : string) : Read :=
  if String.eqb key "__proto__" then
    match proto m with
    | Some p => Thread p
    | None => Builtin (Js.Object_prototype key)
    end
  else
    match own m !! key with
    | Some t => Thread t
    | None =>
        match proto m with
        | Some p => default (Builtin (Js.Object_prototype key)) (field p key)
        | None => Builtin (Js.Object_prototype key)
        end
    end.

(** [enrichmentMap[c.company_id]?.contact?.email]; a property the map
    object merely inherits has no [contact], so only its own entries can
    yield an email. *)
Definition contactEmail (enrichmentMap : gmap string EnrichmentStatusResponse.t)
    (c : ProjectCompanyEntry.t) : option string :=
  e ← enrichmentMap !! ProjectCompanyEntry.company_id c;
  k ← EnrichmentStatusResponse.contact e;
  Contact.email k.

Definition enrichedCompanyIds (project : ProjectDetail.t)
    (enrichmentMap : gmap string EnrichmentStatusResponse.t) : list string :=
  map ProjectCompanyEntry.company_id
    (List.filter (fun c => Js.truthy_opt (contactEmail enrichmentMap c))
       (ProjectDetail.companies project)).

Definition handleBulkGenerate (project : ProjectDetail.t)
    (enrichmentMap : gmap string EnrichmentStatusResponse.t) : Prog unit :=
  Emit (SetBulkGenerating true)
    (finally
       (let ids := enrichedCompanyIds project enrichmentMap in
        if (length ids =? 0)%nat then
          Emit (Alert
            "No enriched companies with email addresses. Enrich companies first.")
            (Ret tt)
        else
          Fetch (BulkGenerate (ProjectDetail.id project) ids MessageType.initial)
            (fun res =>
               match res with
               | Rejected => Throw "TypeError: fetch failed"
               | _ => Emit OnThreadsChanged (Ret tt)
               end))
       (SetBulkGenerating false)).

(** The count of the Drafts tab:
    [threads.reduce((n, t) => n + t.messages.length, 0)] *)
Definition draftsCount (threads : list OutreachThread.t) : nat :=
  fold_left (fun n t => n + length (OutreachThread.messages t)) threads 0.

(** The count of the Follow-ups tab: the threads whose status is one of
    [awaiting_response], [responded], [meeting_scheduled], [sent]. *)
Definition followUpsCount (threads : list OutreachThread.t) : nat :=
  length
    (List.filter
       (fun t =>
          existsb (ThreadStatus.eqb (OutreachThread.status t))
            [ ThreadStatus.awaiting_response; ThreadStatus.responded;
              ThreadStatus.meeting_scheduled; ThreadStatus.sent ])
       threads).

(** A tab shows its count when [tab.count > 0]. *)
Definition showsCount (count : nat) : bool := (0 <? count)%nat.

(** [enrichmentMap[c.company_id]?.status === "completed"], counted. *)
Definition enrichedCount (project : ProjectDetail.t)
    (enrichmentMap : gmap string EnrichmentStatusResponse.t) : nat :=
  length
    (List.filter
       (fun c =>
          match EnrichmentStatusResponse.status
                  <$> enrichmentMap !! ProjectCompanyEntry.company_id c with
          | Some EnrichmentStatus.completed => true
          | _ => false
          end)
       (ProjectDetail.companies project)).

End ProjectCRM.

(** ** app/(dashboard)/projects/page.tsx

    The state updates of the page that owns the threads, the enrichment
    map and the selected project, and hands them to [ProjectCRM]. *)

Module ProjectsPage.

(** The update of [threads] in [handleThreadUpdated]. *)
Definition handleThreadUpdated (prev : list OutreachThread.t)
    (updated : OutreachThread.t) : list OutreachThread.t :=
  match Js.find
          (fun t => String.eqb (OutreachThread.id t) (OutreachThread.id updated))
          prev with
  | Some _ =>
      map (fun t => if String.eqb (OutreachThread.id t) (OutreachThread.id updated)
                    then updated else t) prev
  | None => updated :: prev
  end.

(** [{ ...prev, [companyId]: data }] *)
Definition handleEnrichmentUpdated
    (prev : gmap string EnrichmentStatusResponse.t) (companyId : string)
    (data : EnrichmentStatusResponse.t)
  : gmap string EnrichmentStatusResponse.t :=
  <[ companyId := data ]> prev.

(** The update of [selected] in [removeCompany]. *)
Definition removeCompany (prev : option ProjectDetail.t) (companyId : string)
  : option ProjectDetail.t :=
  match prev with
  | Some p =>
      Some {| ProjectDetail.id := ProjectDetail.id p;
              ProjectDetail.name := ProjectDetail.name p;
              ProjectDetail.description := ProjectDetail.description p;
              ProjectDetail.color := ProjectDetail.color p;
              ProjectDetail.companies :=
                List.filter
                  (fun c => negb (String.eqb (ProjectCompanyEntry.company_id c)
                                    companyId))
                  (ProjectDetail.companies p) |}
  | None => None
  end.

End ProjectsPage.

(** ** The outreach service behind the API

    The server (FastAPI handlers over a relational store) is not part of
    the web client.  Its operations are written here after sections 3, 4
    and 7 of the specification, over the same thread and message records
    the client receives. *)

Module Backend.

(** Modelled from the spec: the error taxonomy of section 7 (the server's
    exception classes are not in the client sources). *)
Inductive Error :=
| MissingContactError
| InsufficientSlotsError
| InvalidTransitionError
| ImmutableStateError
| MissingCredentialError
| ExternalServiceError
| NotFoundError
| SendError (reason : string).

(** Modelled from the spec: the outcome of a service operation, a value
    or one of the errors above. *)
Inductive Result (A : Type) :=
| Done (a : A)
| Failed (e : Error).
Arguments Done {A} a.
Arguments Failed {A} e.

(** Modelled from the spec: the persistent store of section 3, reduced to
    the threads (each with its messages, in order), the principal
    contact of each company, and the id counter. *)
Record Store := {
  threads : list OutreachThread.t;
  contacts : gmap string Contact.t;
  next_id : N;
}.

(** Modelled from the spec: the store with its thread rows replaced. *)
Definition with_threads (s : Store) (ts : list OutreachThread.t) : Store :=
  {| threads := ts; contacts := contacts s; next_id := next_id s |}.

(** Modelled from the spec: the store after an id has been handed out. *)
Definition bump (s : Store) : Store :=
  {| threads := threads s; contacts := contacts s; next_id := N.succ (next_id s) |}.

(** Modelled from the spec: a thread row with its mutable attributes of
    section 3 set; identity, pair and joined columns stay. *)
Definition set_thread (t : OutreachThread.t) (status : ThreadStatus.t)
    (follow_up_count : Z) (last_sent_at response_received_at
      response_summary : option string)
    (proposed_slots : option (list ProposedSlot.t))
    (messages : list OutreachThreadMessage.t) : OutreachThread.t :=
  {| OutreachThread.id := OutreachThread.id t;
     OutreachThread.project_id := OutreachThread.project_id t;
     OutreachThread.company_id := OutreachThread.company_id t;
     OutreachThread.contact_id := OutreachThread.contact_id t;
     OutreachThread.status := status;
     OutreachThread.follow_up_count := follow_up_count;
     OutreachThread.next_follow_up_at := OutreachThread.next_follow_up_at t;
     OutreachThread.last_sent_at := last_sent_at;
     OutreachThread.response_received_at := response_received_at;
     OutreachThread.response_summary := response_summary;
     OutreachThread.proposed_slots := proposed_slots;
     OutreachThread.created_at := OutreachThread.created_at t;
     OutreachThread.updated_at := OutreachThread.updated_at t;
     OutreachThread.company_name := OutreachThread.company_name t;
     OutreachThread.company_sector := OutreachThread.company_sector t;
     OutreachThread.company_location := OutreachThread.company_location t;
     OutreachThread.contact_name := OutreachThread.contact_name t;
     OutreachThread.contact_email := OutreachThread.contact_email t;
     OutreachThread.contact_title := OutreachThread.contact_title t;
     OutreachThread.messages := messages |}.

(** Modelled from the spec: a thread row with its messages replaced. *)
Definition with_messages (t : OutreachThread.t)
    (ms : list OutreachThreadMessage.t) : OutreachThread.t :=
  set_thread t (OutreachThread.status t) (OutreachThread.follow_up_count t)
    (OutreachThread.last_sent_at t) (OutreachThread.response_received_at t)
    (OutreachThread.response_summary t) (OutreachThread.proposed_slots t) ms.

(** Modelled from the spec: a thread row with its status replaced. *)
Definition with_status (t : OutreachThread.t) (st : ThreadStatus.t)
  : OutreachThread.t :=
  set_thread t st (OutreachThread.follow_up_count t)
    (OutreachThread.last_sent_at t) (OutreachThread.response_received_at t)
    (OutreachThread.response_summary t) (OutreachThread.proposed_slots t)
    (OutreachThread.messages t).

(** Modelled from the spec: a message row with its mutable attributes of
    section 3 set; id, thread, sequence, type and recipient stay. *)
Definition set_message (m : OutreachThreadMessage.t) (subject body_html : string)
    (status : MessageStatus.t)
    (sent_at gmail_message_id gmail_thread_id error_message : option string)
  : OutreachThreadMessage.t :=
  {| OutreachThreadMessage.id := OutreachThreadMessage.id m;
     OutreachThreadMessage.thread_id := OutreachThreadMessage.thread_id m;
     OutreachThreadMessage.sequence := OutreachThreadMessage.sequence m;
     OutreachThreadMessage.message_type := OutreachThreadMessage.message_type m;
     OutreachThreadMessage.to_email := OutreachThreadMessage.to_email m;
     OutreachThreadMessage.subject := subject;
     OutreachThreadMessage.body_html := body_html;
     OutreachThreadMessage.status := status;
     OutreachThreadMessage.sent_at := sent_at;
     OutreachThreadMessage.gmail_message_id := gmail_message_id;
     OutreachThreadMessage.gmail_thread_id := gmail_thread_id;
     OutreachThreadMessage.error_message := error_message;
     OutreachThreadMessage.created_at := OutreachThreadMessage.created_at m |}.

(** Modelled from the spec: the store's lookup of a thread by id. *)
Definition find_thread (s : Store) (threadId : string) : option OutreachThread.t :=
  Js.find (fun t => String.eqb (OutreachThread.id t) threadId) (threads s).

(** Modelled from the spec: the store's lookup of the thread of a
    (project, company) pair. *)
Definition find_pair (s : Store) (project_id company_id : string)
  : option OutreachThread.t :=
  Js.find
    (fun t => String.eqb (OutreachThread.project_id t) project_id
              && String.eqb (OutreachThread.company_id t) company_id)
    (threads s).

(** Modelled from the spec: the store's lookup of a message by id,
    together with its thread. *)
Definition find_message (s : Store) (messageId : string)
  : option (OutreachThread.t * OutreachThreadMessage.t) :=
  Js.find (fun tm => String.eqb (OutreachThreadMessage.id (snd tm)) messageId)
    (t ← threads s; m ← OutreachThread.messages t; [(t, m)]).

(** Modelled from the spec: the store's update of the thread that has
    [t]'s id. *)
Definition put_thread (s : Store) (t : OutreachThread.t) : Store :=
  with_threads s
    ((fun t0 => if String.eqb (OutreachThread.id t0) (OutreachThread.id t)
                then t else t0) <$> threads s).

(** Modelled from the spec: the store's update of the message that has
    the given id, in place. *)
Definition alter_message (f : OutreachThreadMessage.t -> OutreachThreadMessage.t)
    (messageId : string) (ms : list OutreachThreadMessage.t)
  : list OutreachThreadMessage.t :=
  (fun m0 => if String.eqb (OutreachThreadMessage.id m0) messageId
             then f m0 else m0) <$> ms.

(** Modelled from the spec: [max(existing)] of section 4.2, 0 for a
    thread without messages. *)
Definition max_sequence (ms : list OutreachThreadMessage.t) : Z :=
  fold_right (fun m acc => Z.max (OutreachThreadMessage.sequence m) acc) 0%Z ms.

(** Modelled from the spec: the deliverable address of a company's
    contact, none when there is no contact or its email is null. *)
Definition usable_email (s : Store) (company_id : string) : option string :=
  c ← contacts s !! company_id; Contact.email c.

(** Whether a company has no usable contact email. *)
Definition lacks_email (s : Store) (company_id : string) : bool :=
  match usable_email s company_id with
  | Some _ => false
  | None => true
  end.

(** Modelled from the spec: [create(project_id, company_id, contact_id?)]
    of section 4.3, "idempotent — returns existing thread for the pair if
    present"; a new thread starts in [draft] with no message. *)
Definition create (s : Store) (project_id company_id : string)
    (contact_id : option string) (now : string) : OutreachThread.t * Store :=
  match find_pair s project_id company_id with
  | Some t => (t, s)
  | None =>
      let t :=
        {| OutreachThread.id := "thread-" +:+ pretty (next_id s);
           OutreachThread.project_id := project_id;
           OutreachThread.company_id := company_id;
           OutreachThread.contact_id := contact_id;
           OutreachThread.status := ThreadStatus.draft;
           OutreachThread.follow_up_count := 0;
           OutreachThread.next_follow_up_at := None;
           OutreachThread.last_sent_at := None;
           OutreachThread.response_received_at := None;
           OutreachThread.response_summary := None;
           OutreachThread.proposed_slots := None;
           OutreachThread.created_at := now;
           OutreachThread.updated_at := now;
           OutreachThread.company_name := None;
           OutreachThread.company_sector := None;
           OutreachThread.company_location := None;
           OutreachThread.contact_name := None;
           OutreachThread.contact_email := usable_email s company_id;
           OutreachThread.contact_title := None;
           OutreachThread.messages := [] |} in
      (t, bump (with_threads s (threads s ++ [t])))
  end.

(** Every message of the store, thread by thread. *)
Definition all_messages (s : Store) : list OutreachThreadMessage.t :=
  t ← threads s; OutreachThread.messages t.

(** No thread is in [meeting_scheduled] in [s'] that was not already in
    [s]. *)
Definition no_new_meeting (s s' : Store) : Prop :=
  forall t', t' ∈ threads s' ->
    OutreachThread.status t' = ThreadStatus.meeting_scheduled ->
    exists t, t ∈ threads s
      /\ OutreachThread.id t = OutreachThread.id t'
      /\ OutreachThread.status t = ThreadStatus.meeting_scheduled.

(** The messages carry the sequence numbers 1, 2, 3, ... in list order. *)
Definition in_sequence (ms : list OutreachThreadMessage.t) : Prop :=
  forall i m, ms !! i = Some m ->
    OutreachThreadMessage.sequence m = Z.of_nat (S i).

(** The pair a thread belongs to. *)
Definition pair_of (t : OutreachThread.t) : string * string :=
  (OutreachThread.project_id t, OutreachThread.company_id t).

(** The invariant of the store: thread ids are distinct and were handed
    out by the counter, no two threads share a (project, company) pair, and
    every thread's messages are in sequence. *)
Definition well_formed (s : Store) : Prop :=
  NoDup (OutreachThread.id <$> threads s)
  /\ NoDup (pair_of <$> threads s)
  /\ (forall t, t ∈ threads s ->
        exists k, (k < next_id s)%N
                  /\ OutreachThread.id t = "thread-" +:+ pretty k)
  /\ (forall t, t ∈ threads s -> in_sequence (OutreachThread.messages t)).

(** A store with contacts and no thread yet. *)
Definition empty (contacts : gmap string Contact.t) : Store :=
  {| threads := []; contacts := contacts; next_id := 0 |}.

Section Services.
(** The text-generation capability of section 6: subject and body, or
    nothing when the call fails or times out. *)
Variable generate :
  OutreachThread.t -> MessageType.t -> list ProposedSlot.t -> option (string * string).
(** The email transport of section 6: provider message and thread ids,
    or the reason of the failure. *)
Variable transport : OutreachThreadMessage.t -> string -> string + (string * string).

(** Modelled from the spec: the drafter of section 4.2 on a thread at
    hand.  Precondition first: the thread's company must have a contact
    with a non-null email, else [MissingContactError]; a scheduling reply
    needs at least 2 proposed slots, else [InsufficientSlotsError]; the
    text is generated once; the new message is appended at
    [max(existing) + 1] in state [draft]; a follow-up increments the
    thread's counter. *)
Definition draft (s : Store) (t : OutreachThread.t)
    (messageType : MessageType.t) (proposedSlots : list ProposedSlot.t)
    (now : string) : Result OutreachThreadMessage.t * Store :=
  match usable_email s (OutreachThread.company_id t) with
  | None => (Failed MissingContactError, s)
  | Some email =>
      if MessageType.eqb messageType MessageType.scheduling_reply
         && (length proposedSlots <? 2)%nat
      then (Failed InsufficientSlotsError, s)
      else
        match generate t messageType proposedSlots with
        | None => (Failed ExternalServiceError, s)
        | Some (subject, body_html) =>
            let m :=
              {| OutreachThreadMessage.id := "msg-" +:+ pretty (next_id s);
                 OutreachThreadMessage.thread_id := OutreachThread.id t;
                 OutreachThreadMessage.sequence :=
                   (max_sequence (OutreachThread.messages t) + 1)%Z;
                 OutreachThreadMessage.message_type := messageType;
                 OutreachThreadMessage.to_email := email;
                 OutreachThreadMessage.subject := subject;
                 OutreachThreadMessage.body_html := body_html;
                 OutreachThreadMessage.status := MessageStatus.draft;
                 OutreachThreadMessage.sent_at := None;
                 OutreachThreadMessage.gmail_message_id := None;
                 OutreachThreadMessage.gmail_thread_id := None;
                 OutreachThreadMessage.error_message := None;
                 OutreachThreadMessage.created_at := now |} in
            let t' :=
              set_thread t (OutreachThread.status t)
                (if MessageType.eqb messageType MessageType.follow_up
                 then OutreachThread.follow_up_count t + 1
                 else OutreachThread.follow_up_count t)%Z
                (OutreachThread.last_sent_at t)
                (OutreachThread.response_received_at t)
                (OutreachThread.response_summary t)
                (if MessageType.eqb messageType MessageType.scheduling_reply
                 then Some proposedSlots
                 else OutreachThread.proposed_slots t)
                (OutreachThread.messages t ++ [m]) in
            (Done m, bump (put_thread s t'))
        end
  end.

(** Modelled from the spec: [generateDraft(threadId, messageType,
    customPrompt?, proposedSlots?)], the drafter on the thread with that
    id, [NotFoundError] when there is none. *)
Definition generateDraft (s : Store) (threadId : string)
    (messageType : MessageType.t) (proposedSlots : list ProposedSlot.t)
    (now : string) : Result OutreachThreadMessage.t * Store :=
  match find_thread s threadId with
  | None => (Failed NotFoundError, s)
  | Some t => draft s t messageType proposedSlots now
  end.

(** Modelled from the spec: [generateSchedulingReply(thread, slots)],
    the drafter called with message type [scheduling_reply]. *)
Definition generateSchedulingReply (s : Store) (threadId : string)
    (proposedSlots : list ProposedSlot.t) (now : string)
  : Result OutreachThreadMessage.t * Store :=
  generateDraft s threadId MessageType.scheduling_reply proposedSlots now.

(** Modelled from the spec: the edit of [updateMessage], the fields
    given replace the old ones. *)
Definition edited (subject body_html : option string)
    (m : OutreachThreadMessage.t) : OutreachThreadMessage.t :=
  set_message m
    (default (OutreachThreadMessage.subject m) subject)
    (default (OutreachThreadMessage.body_html m) body_html)
    (OutreachThreadMessage.status m)
    (OutreachThreadMessage.sent_at m)
    (OutreachThreadMessage.gmail_message_id m)
    (OutreachThreadMessage.gmail_thread_id m)
    (OutreachThreadMessage.error_message m).

(** Modelled from the spec: [updateMessage(messageId, {subject?,
    body_html?})] of section 4.2, valid only while the message is
    [draft] or [approved]; otherwise [ImmutableStateError]. *)
Definition updateMessage (s : Store) (messageId : string)
    (subject body_html : option string)
  : Result OutreachThreadMessage.t * Store :=
  match find_message s messageId with
  | None => (Failed NotFoundError, s)
  | Some (t, m) =>
      match OutreachThreadMessage.status m with
      | MessageStatus.draft | MessageStatus.approved =>
          (Done (edited subject body_html m),
           put_thread s
             (with_messages t
                (alter_message (edited subject body_html) messageId
                   (OutreachThread.messages t))))
      | _ => (Failed ImmutableStateError, s)
      end
  end.

(** Modelled from the spec: a delivered message of section 4.5, [sent]
    with the time and the provider ids. *)
Definition delivered (now gmail_message_id gmail_thread_id : string)
    (m : OutreachThreadMessage.t) : OutreachThreadMessage.t :=
  set_message m (OutreachThreadMessage.subject m)
    (OutreachThreadMessage.body_html m) MessageStatus.sent
    (Some now) (Some gmail_message_id) (Some gmail_thread_id) None.

(** Modelled from the spec: a message the transport refused (section
    4.5), [failed] with the reason. *)
Definition undelivered (reason : string) (m : OutreachThreadMessage.t)
  : OutreachThreadMessage.t :=
  set_message m (OutreachThreadMessage.subject m)
    (OutreachThreadMessage.body_html m) MessageStatus.failed
    (OutreachThreadMessage.sent_at m)
    (OutreachThreadMessage.gmail_message_id m)
    (OutreachThreadMessage.gmail_thread_id m) (Some reason).

(** Modelled from the spec: the thread after one of its messages went
    out (section 4.3); only an initial or follow-up message moves it. *)
Definition after_send (now : string) (t : OutreachThread.t)
    (m : OutreachThreadMessage.t) (ms : list OutreachThreadMessage.t)
  : OutreachThread.t :=
  set_thread t
    (match OutreachThreadMessage.message_type m with
     | MessageType.scheduling_reply => OutreachThread.status t
     | _ => ThreadStatus.awaiting_response
     end)
    (OutreachThread.follow_up_count t) (Some now)
    (OutreachThread.response_received_at t)
    (OutreachThread.response_summary t)
    (OutreachThread.proposed_slots t) ms.

(** Modelled from the spec: [send(messageId)] of sections 4.3 and 4.5.
    No credential fails before any I/O; a [sent] message is not sent
    again; on success the message becomes [sent] with the provider ids
    and, for an initial or follow-up message, the thread moves to
    [awaiting_response]; on failure the message becomes [failed] with
    the reason recorded. *)
Definition send (s : Store) (messageId credential now : string)
  : Result OutreachThreadMessage.t * Store :=
  if negb (Js.truthy credential) then (Failed MissingCredentialError, s)
  else
    match find_message s messageId with
    | None => (Failed NotFoundError, s)
    | Some (t, m) =>
        if MessageStatus.eqb (OutreachThreadMessage.status m) MessageStatus.sent
        then (Failed ImmutableStateError, s)
        else
          match transport m credential with
          | inr (gmail_message_id, gmail_thread_id) =>
              let mark := delivered now gmail_message_id gmail_thread_id in
              (Done (mark m),
               put_thread s
                 (after_send now t m
                    (alter_message mark messageId (OutreachThread.messages t))))
          | inl reason =>
              (Failed (SendError reason),
               put_thread s
                 (with_messages t
                    (alter_message (undelivered reason) messageId
                       (OutreachThread.messages t))))
          end
    end.

(** Modelled from the spec: [markResponded(threadId, response_summary?)]
    of section 4.3, valid from [awaiting_response] or [sent]; it records
    the time and the summary and moves the thread to [responded]. *)
Definition markResponded (s : Store) (threadId : string)
    (response_summary : option string) (now : string)
  : Result OutreachThread.t * Store :=
  match find_thread s threadId with
  | None => (Failed NotFoundError, s)
  | Some t =>
      match OutreachThread.status t with
      | ThreadStatus.awaiting_response | ThreadStatus.sent =>
          let t' :=
            set_thread t ThreadStatus.responded
              (OutreachThread.follow_up_count t) (OutreachThread.last_sent_at t)
              (Some now) response_summary (OutreachThread.proposed_slots t)
              (OutreachThread.messages t) in
          (Done t', put_thread s t')
      | _ => (Failed InvalidTransitionError, s)
      end
  end.

(** Modelled from the spec: the transition legality of section 4.3 that
    the generic [update] entry point has to enforce. *)
Definition legal (from to : ThreadStatus.t) : bool :=
  match to with
  | ThreadStatus.responded =>
      ThreadStatus.eqb from ThreadStatus.awaiting_response
      || ThreadStatus.eqb from ThreadStatus.sent
  | ThreadStatus.meeting_scheduled => ThreadStatus.eqb from ThreadStatus.responded
  | ThreadStatus.passed =>
      negb (ThreadStatus.eqb from ThreadStatus.meeting_scheduled
            || ThreadStatus.eqb from ThreadStatus.passed)
  | _ => ThreadStatus.eqb from to
  end.

(** Modelled from the spec: [update(threadId, {status})] of section
    4.3, "not a bypass". *)
Definition update (s : Store) (threadId : string) (status : ThreadStatus.t)
  : Result OutreachThread.t * Store :=
  match find_thread s threadId with
  | None => (Failed NotFoundError, s)
  | Some t =>
      if legal (OutreachThread.status t) status
      then let t' := with_status t status in (Done t', put_thread s t')
      else (Failed InvalidTransitionError, s)
  end.

(** Modelled from the spec: one company of [bulkGenerate] (section
    4.4): a thread is ensured, a draft attempted, and the outcome
    tallied as generated, skipped (no usable contact email) or error. *)
Definition bulkStep (project_id : string) (message_type : MessageType.t)
    (now : string) (acc : BulkCounts.t * Store) (company_id : string)
  : BulkCounts.t * Store :=
  let '(n, s) := acc in
  let '(t, s1) := create s project_id company_id None now in
  let '(r, s2) := draft s1 t message_type [] now in
  let tally g k e :=
    {| BulkCounts.total := BulkCounts.total n;
       BulkCounts.generated := (BulkCounts.generated n + g)%Z;
       BulkCounts.skipped := (BulkCounts.skipped n + k)%Z;
       BulkCounts.errors := (BulkCounts.errors n + e)%Z |} in
  match r with
  | Done _ => (tally 1 0 0, s2)
  | Failed MissingContactError => (tally 0 1 0, s2)
  | Failed _ => (tally 0 0 1, s2)
  end%Z.

(** Modelled from the spec: [bulkGenerate(project_id, company_ids,
    message_type) -> {total, generated, skipped, errors}]. *)
Definition bulkGenerate (s : Store) (project_id : string)
    (company_ids : list string) (message_type : MessageType.t) (now : string)
  : BulkCounts.t * Store :=
  fold_left (bulkStep project_id message_type now) company_ids
    ({| BulkCounts.total := Z.of_nat (length company_ids);
        BulkCounts.generated := 0; BulkCounts.skipped := 0;
        BulkCounts.errors := 0 |}, s).

(** Modelled from the spec: [bulkSend(message_ids, sender_email)], each
    message attempted independently. *)
Definition bulkSend (s : Store) (message_ids : list string)
    (credential now : string) : Store :=
  fold_left (fun s id => snd (send s id credential now)) message_ids s.

(** Modelled from the spec: how an outcome reaches the caller, a 4xx
    response with a human-readable reason for an error (section 4.2). *)
Definition respond {A} (r : Result A) : Api.Response A :=
  match r with
  | Done a => Api.Ok a
  | Failed MissingContactError =>
      Api.NotOk (Some "Contact has no email address")
  | Failed _ => Api.NotOk (Some "Request failed")
  end.

(** Modelled from the spec: the REST surface of the service, one
    operation per request of the client. *)
Definition serve (now : string) (R : Type) (r : Api.Request R) (s : Store)
  : Api.Response R * Store :=
  match r in Api.Request R return Api.Response R * Store with
  | Api.CreateThread p c =>
      let '(t, s') := create s p c None now in (Api.Ok t, s')
  | Api.GetThread id =>
      (match find_thread s id with
       | Some t => Api.Ok t
       | None => Api.NotOk (Some "Thread not found")
       end, s)
  | Api.GenerateDraft id ty =>
      let '(r, s') := generateDraft s id ty [] now in (respond r, s')
  | Api.GenerateSchedulingReply id slots _ =>
      let '(r, s') := generateSchedulingReply s id slots now in (respond r, s')
  | Api.SendMessage id token =>
      let '(r, s') := send s id token now in
      (match r with Done _ => Api.Ok tt | Failed _ => Api.NotOk None end, s')
  | Api.PatchThreadStatus id st =>
      let '(r, s') := update s id st in (respond r, s')
  | Api.PatchMessage id subject body =>
      let '(r, s') := updateMessage s id (Some subject) (Some body) in
      (respond r, s')
  | Api.BulkGenerate p ids ty =>
      let '(n, s') := bulkGenerate s p ids ty now in (Api.Ok n, s')
  | Api.BulkSend ids _ token => (Api.Ok tt, bulkSend s ids token now)
  | Api.MarkResponded id summary =>
      let '(r, s') := markResponded s id summary now in (respond r, s')
  end.

(** The store after the service has answered the requests of a trace. *)
Definition replay (now : string) (calls : list Api.Event) (s : Store) : Store :=
  fold_left
    (fun s ev =>
       match ev with
       | Api.Requested r => snd (serve now _ r s)
       | Api.Performed _ => s
       end) calls s.
End Services.

End Backend.

(** ** Sample data *)

Module Sample.

Definition message (id : string) (sequence : Z) (ty : MessageType.t)
    (st : MessageStatus.t) : OutreachThreadMessage.t :=
  {| OutreachThreadMessage.id := id;
     OutreachThreadMessage.thread_id := "t1";
     OutreachThreadMessage.sequence := sequence;
     OutreachThreadMessage.message_type := ty;
     OutreachThreadMessage.to_email := "owner@acme.example";
     OutreachThreadMessage.subject := "Introduction";
     OutreachThreadMessage.body_html := "<p>Hello</p>";
     OutreachThreadMessage.status := st;
     OutreachThreadMessage.sent_at := None;
     OutreachThreadMessage.gmail_message_id := None;
     OutreachThreadMessage.gmail_thread_id := None;
     OutreachThreadMessage.error_message := None;
     OutreachThreadMessage.created_at := "2026-03-02T09:00:00Z" |}.

Definition thread (id : string) (st : ThreadStatus.t)
    (last_sent_at : option string) (ms : list OutreachThreadMessage.t)
  : OutreachThread.t :=
  {| OutreachThread.id := id;
     OutreachThread.project_id := "p1";
     OutreachThread.company_id := "c1";
     OutreachThread.contact_id := None;
     OutreachThread.status := st;
     OutreachThread.follow_up_count := 0;
     OutreachThread.next_follow_up_at := None;
     OutreachThread.last_sent_at := last_sent_at;
     OutreachThread.response_received_at := None;
     OutreachThread.response_summary := None;
     OutreachThread.proposed_slots := None;
     OutreachThread.created_at := "2026-03-02T09:00:00Z";
     OutreachThread.updated_at := "2026-03-02T09:00:00Z";
     OutreachThread.company_name := Some "Acme Dental";
     OutreachThread.company_sector := Some "Dental";
     OutreachThread.company_location := None;
     OutreachThread.contact_name := Some "Dana Owner";
     OutreachThread.contact_email := Some "owner@acme.example";
     OutreachThread.contact_title := None;
     OutreachThread.messages := ms |}.

Definition company (company_id : string) : ProjectCompanyEntry.t :=
  {| ProjectCompanyEntry.id := "pc-" +:+ company_id;
     ProjectCompanyEntry.company_id := company_id;
     ProjectCompanyEntry.company_name := "Acme Dental";
     ProjectCompanyEntry.company_sector := "Dental";
     ProjectCompanyEntry.company_stage := "Identified";
     ProjectCompanyEntry.company_location := None;
     ProjectCompanyEntry.notes := None;
     ProjectCompanyEntry.added_at := "2026-03-01T09:00:00Z" |}.

Definition contact (email : option string) : Contact.t :=
  {| Contact.id := "k1"; Contact.name := "Dana Owner"; Contact.title := None;
     Contact.email := email; Contact.phone := None;
     Contact.linkedin_url := None; Contact.facebook_url := None;
     Contact.enrichment_source := Some "manual"; Contact.enriched_at := None |}.

Definition enrichment (email : option string) : EnrichmentStatusResponse.t :=
  {| EnrichmentStatusResponse.status := EnrichmentStatus.completed;
     EnrichmentStatusResponse.contact := Some (contact email) |}.

Definition project (cs : list ProjectCompanyEntry.t) : ProjectDetail.t :=
  {| ProjectDetail.id := "p1"; ProjectDetail.name := "Dental roll-up";
     ProjectDetail.description := None; ProjectDetail.color := "blue";
     ProjectDetail.companies := cs |}.

Definition session : Session.t :=
  {| Session.user :=
       {| Session.id := "u1"; Session.email := "ana@quilt-cap.com";
          Session.name := "Ana"; Session.role := "Analyst" |};
     Session.accessToken := Some "ya29.token" |}.

(** One day, in milliseconds. *)
Definition day : Z := 1000 * 60 * 60 * 24.

Definition contacts : gmap string Contact.t :=
  {[ "c1" := contact (Some "owner@acme.example"); "c2" := contact None ]}.

Definition store (ts : list OutreachThread.t) : Backend.Store :=
  {| Backend.threads := ts; Backend.contacts := contacts; Backend.next_id := 7 |}.

(** A text generator that always answers. *)
Definition generate (t : OutreachThread.t) (ty : MessageType.t)
    (slots : list ProposedSlot.t) : option (string * string) :=
  Some ("Introduction", "<p>Hello</p>").

(** A transport that always delivers. *)
Definition transport (m : OutreachThreadMessage.t) (credential : string)
  : string + (string * string) :=
  inr ("gmail-msg-1", "gmail-thread-1").

(** A network on which every request is rejected. *)
Definition offline (R : Type) (r : Api.Request R) (s : unit)
  : Api.Response R * unit :=
  (Api.Rejected, s).

Definition formatSlotLabel (date time : string) : string :=
  date +:+ " at " +:+ time.

(** The requests of an analyst who opens a company, generates a draft and
    regenerates it. *)
Definition regenerate_once : list Api.Event :=
  [ Api.Requested (Api.CreateThread "p1" "c1");
    Api.Requested (Api.GenerateDraft "thread-0" MessageType.initial);
    Api.Requested (Api.GenerateDraft "thread-0" MessageType.initial) ].

(** The requests of the end-to-end scenario up to the scheduling reply:
    create, draft, send, mark responded, draft a reply with two slots. *)
Definition until_reply : list Api.Event :=
  [ Api.Requested (Api.CreateThread "p1" "c1");
    Api.Requested (Api.GenerateDraft "thread-0" MessageType.initial);
    Api.Requested (Api.SendMessage "msg-1" "ya29.token");
    Api.Requested
      (Api.MarkResponded "thread-0" (Some "interested, wants a call"));
    Api.Requested
      (Api.GenerateSchedulingReply "thread-0"
         [ {| ProposedSlot.datetime := "2026-03-12T10:00";
              ProposedSlot.label := "Thursday at 10" |};
           {| ProposedSlot.datetime := "2026-03-13T14:00";
              ProposedSlot.label := "Friday at 2" |} ] None) ].

(** The first draft of that thread and its regeneration. *)
Definition first_draft : OutreachThreadMessage.t :=
  {| OutreachThreadMessage.id := "msg-1";
     OutreachThreadMessage.thread_id := "thread-0";
     OutreachThreadMessage.sequence := 1;
     OutreachThreadMessage.message_type := MessageType.initial;
     OutreachThreadMessage.to_email := "owner@acme.example";
     OutreachThreadMessage.subject := "Introduction";
     OutreachThreadMessage.body_html := "<p>Hello</p>";
     OutreachThreadMessage.status := MessageStatus.draft;
     OutreachThreadMessage.sent_at := None;
     OutreachThreadMessage.gmail_message_id := None;
     OutreachThreadMessage.gmail_thread_id := None;
     OutreachThreadMessage.error_message := None;
     OutreachThreadMessage.created_at := "2026-03-02T09:00:00Z" |}.

Definition second_draft : OutreachThreadMessage.t :=
  {| OutreachThreadMessage.id := "msg-2";
     OutreachThreadMessage.thread_id := "thread-0";
     OutreachThreadMessage.sequence := 2;
     OutreachThreadMessage.message_type := MessageType.initial;
     OutreachThreadMessage.to_email := "owner@acme.example";
     OutreachThreadMessage.subject := "Introduction";
     OutreachThreadMessage.body_html := "<p>Hello</p>";
     OutreachThreadMessage.status := MessageStatus.draft;
     OutreachThreadMessage.sent_at := None;
     OutreachThreadMessage.gmail_message_id := None;
     OutreachThreadMessage.gmail_thread_id := None;
     OutreachThreadMessage.error_message := None;
     OutreachThreadMessage.created_at := "2026-03-02T09:00:00Z" |}.

(** A thread that waits for an answer, and one that got it. *)
Definition awaiting : OutreachThread.t :=
  thread "t1" ThreadStatus.awaiting_response (Some "2026-03-02T09:00:00Z") [].

Definition answered : OutreachThread.t :=
  thread "t1" ThreadStatus.responded None [].

(** A thread whose only message has gone out. *)
Definition contacted : OutreachThread.t :=
  thread "t1" ThreadStatus.awaiting_response (Some "2026-03-03T09:00:00Z")
    [message "m1" 1 MessageType.initial MessageStatus.sent].

(** A contacted thread with a follow-up drafted. *)
Definition followed_up : OutreachThread.t :=
  thread "t1" ThreadStatus.awaiting_response (Some "2026-03-03T09:00:00Z")
    [message "m1" 1 MessageType.initial MessageStatus.sent;
     message "m2" 2 MessageType.follow_up MessageStatus.draft].

(** The thread the service holds after [regenerate_once]. *)
Definition regenerated : OutreachThread.t :=
  {| OutreachThread.id := "thread-0";
     OutreachThread.project_id := "p1";
     OutreachThread.company_id := "c1";
     OutreachThread.contact_id := None;
     OutreachThread.status := ThreadStatus.draft;
     OutreachThread.follow_up_count := 0;
     OutreachThread.next_follow_up_at := None;
     OutreachThread.last_sent_at := None;
     OutreachThread.response_received_at := None;
     OutreachThread.response_summary := None;
     OutreachThread.proposed_slots := None;
     OutreachThread.created_at := "2026-03-02T09:00:00Z";
     OutreachThread.updated_at := "2026-03-02T09:00:00Z";
     OutreachThread.company_name := None;
     OutreachThread.company_sector := None;
     OutreachThread.company_location := None;
     OutreachThread.contact_name := None;
     OutreachThread.contact_email := Some "owner@acme.example";
     OutreachThread.contact_title := None;
     OutreachThread.messages := [first_draft; second_draft] |}.

End Sample.

(** * Properties *)

Example getSectorColor_IVF :
  Constants.getSectorColor "IVF" = Js.Str "bg-pink-100 text-pink-700".
Proof. vm_compute. reflexivity. Qed.

Example getSectorColor_Plumbing :
  Constants.getSectorColor "Plumbing" = Js.Str "bg-gray-100 text-gray-600".
Proof. vm_compute. reflexivity. Qed.

Example getSectorColor_constructor :
  Constants.getSectorColor "constructor" = Js.Function "Object".
Proof. vm_compute. reflexivity. Qed.

Example signIn_ok :
  Auth.signIn (Some {| Auth.email := Some "ana@quilt-cap.com" |}) = true.
Proof. vm_compute. reflexivity. Qed.

Example signIn_other :
  Auth.signIn (Some {| Auth.email := Some "ana@quilt-cap.com.evil.io" |}) = false.
Proof. vm_compute. reflexivity. Qed.


(** ** Strings and arrays *)

Section JsFacts.

Lemma substring_whole (s : string) :
  String.substring 0 (String.length s) s = s.
Proof. induction s as [|c s IH]; simpl; [reflexivity | now rewrite IH]. Qed.

Lemma substring_skip_prefix (pre s : string) :
  String.substring (String.length pre) (String.length s) (pre +:+ s) = s.
Proof.
  induction pre as [|c pre IH]; simpl.
  - apply substring_whole.
  - exact IH.
Qed.

Lemma string_length_app (a b : string) :
  String.length (a +:+ b) = String.length a + String.length b.
Proof. induction a as [|c a IH]; simpl; [reflexivity | now rewrite IH]. Qed.

(** A string is its first [n] code units followed by the rest. *)
Lemma substring_split (n : nat) (s : string) :
  n <= String.length s ->
  s = String.substring 0 n s +:+ String.substring n (String.length s - n) s.
Proof.
  revert n; induction s as [|c s IH]; intros n Hn; simpl in *.
  - destruct n; [reflexivity | lia].
  - destruct n as [|n]; simpl.
    + now rewrite substring_whole.
    + change (String c s = String c (String.substring 0 n s +:+
                String.substring n (String.length s - n) s)).
      f_equal. apply IH. lia.
Qed.

(** [endsWith] decides being a suffix. *)
Lemma endsWith_spec (s search : string) :
  Js.endsWith s search = true <-> exists pre, s = pre +:+ search.
Proof.
  unfold Js.endsWith. split.
  - destruct (Nat.ltb_spec (String.length s) (String.length search)) as [?|Hle];
      [discriminate|].
    intros Heq%String.eqb_eq.
    exists (String.substring 0 (String.length s - String.length search) s).
    pose proof (substring_split (String.length s - String.length search) s
                  ltac:(lia)) as Hsplit.
    replace (String.length s - (String.length s - String.length search))
      with (String.length search) in Hsplit by lia.
    now rewrite Heq in Hsplit.
  - intros [pre ->]. rewrite string_length_app.
    destruct (Nat.ltb_spec (String.length pre + String.length search)
                (String.length search)); [lia|].
    replace (String.length pre + String.length search - String.length search)
      with (String.length pre) by lia.
    rewrite substring_skip_prefix. apply String.eqb_refl.
Qed.

Context {A : Type}.

Lemma find_some (p : A -> bool) (l : list A) (x : A) :
  Js.find p l = Some x -> x ∈ l /\ p x = true.
Proof.
  induction l as [|y l IH]; simpl; [discriminate|].
  destruct (p y) eqn:Hy.
  - intros [= ->]. split; [left | exact Hy].
  - intros H. destruct (IH H). split; [now right | assumption].
Qed.

Lemma find_none (p : A -> bool) (l : list A) :
  Js.find p l = None -> forall x, x ∈ l -> p x = false.
Proof.
  induction l as [|y l IH]; simpl; intros H x Hx.
  - inversion Hx.
  - destruct (p y) eqn:Hy; [discriminate|].
    inversion Hx; subst; [assumption | now apply IH].
Qed.

Lemma sort_insert_perm (cmp : A -> A -> Js.Num) (x : A) (l : list A) :
  Js.sort_insert cmp x l ≡ₚ x :: l.
Proof.
  induction l as [|y l IH]; simpl; [reflexivity|].
  destruct (Js.negative (cmp x y)); [reflexivity|].
  rewrite IH. apply Permutation_swap.
Qed.

Lemma sort_acc_perm (cmp : A -> A -> Js.Num) (l acc : list A) :
  fold_left (fun acc x => Js.sort_insert cmp x acc) l acc ≡ₚ l ++ acc.
Proof.
  revert acc; induction l as [|x l IH]; intros acc; simpl; [reflexivity|].
  rewrite IH, sort_insert_perm. now rewrite Permutation_middle.
Qed.

(** Sorting rearranges, it neither drops nor adds an element. *)
Lemma sort_perm (cmp : A -> A -> Js.Num) (l : list A) :
  Js.sort cmp l ≡ₚ l.
Proof. unfold Js.sort. rewrite sort_acc_perm. now rewrite app_nil_r. Qed.

Lemma filteri_length_le (p : A -> nat -> bool) (i : nat) (l : list A) :
  length (Js.filteri p i l) <= length l.
Proof.
  revert i; induction l as [|x l IH]; intros i; simpl; [lia|].
  destruct (p x i); simpl; specialize (IH (S i)); lia.
Qed.

Lemma mapi_length {B} (f : A -> nat -> B) (i : nat) (l : list A) :
  length (Js.mapi f i l) = length l.
Proof.
  revert i; induction l as [|x l IH]; intros i; simpl; [reflexivity|].
  now rewrite IH.
Qed.

End JsFacts.

(** ** Lookups in the store *)

Section StoreFacts.
Import Backend.

Lemma find_thread_some (s : Store) (threadId : string) (t : OutreachThread.t) :
  find_thread s threadId = Some t ->
  t ∈ threads s /\ OutreachThread.id t = threadId.
Proof.
  intros H. apply find_some in H as [Hin Heq]. split; [assumption|].
  now apply String.eqb_eq.
Qed.

Lemma find_message_some (s : Store) (messageId : string)
    (t : OutreachThread.t) (m : OutreachThreadMessage.t) :
  find_message s messageId = Some (t, m) ->
  t ∈ threads s /\ m ∈ OutreachThread.messages t
  /\ OutreachThreadMessage.id m = messageId.
Proof.
  intros H. apply find_some in H as [Hin Heq].
  apply list_elem_of_bind in Hin as (t0 & Hin & Ht0).
  apply list_elem_of_bind in Hin as (m0 & Hin & Hm0).
  apply list_elem_of_singleton in Hin. injection Hin as -> ->.
  repeat split; try assumption. now apply String.eqb_eq.
Qed.

Lemma put_thread_elem (s : Store) (t' u : OutreachThread.t) :
  u ∈ threads (put_thread s t') -> u = t' \/ u ∈ threads s.
Proof.
  unfold put_thread; simpl. intros (t0 & -> & Hin)%list_elem_of_fmap.
  destruct (String.eqb _ _); [now left | now right].
Qed.

Lemma create_spec (s : Store) (project_id company_id : string)
    (contact_id : option string) (now : string) :
  let t := fst (create s project_id company_id contact_id now) in
  let s' := snd (create s project_id company_id contact_id now) in
  OutreachThread.project_id t = project_id
  /\ OutreachThread.company_id t = company_id
  /\ t ∈ threads s'
  /\ contacts s' = contacts s
  /\ all_messages s' = all_messages s.
Proof.
  unfold create.
  destruct (find_pair s project_id company_id) as [t|] eqn:Hfind; simpl.
  - apply find_some in Hfind as [Hin Hp].
    apply andb_true_iff in Hp as [Hp Hc].
    apply String.eqb_eq in Hp, Hc. auto.
  - repeat split.
    + apply elem_of_app. right. left.
    + unfold all_messages. simpl. rewrite bind_app. simpl. apply app_nil_r.
Qed.

Lemma NoDup_fmap_inj_on {A B : Type} (f : A -> B) (l : list A) (x y : A) :
  NoDup (f <$> l) -> x ∈ l -> y ∈ l -> f x = f y -> x = y.
Proof.
  induction l as [|a l IH]; intros Hnd Hx Hy Heq; [inversion Hx|].
  rewrite fmap_cons in Hnd. apply NoDup_cons in Hnd as [Hnotin Hnd].
  apply elem_of_cons in Hx as [-> | Hx]; apply elem_of_cons in Hy as [-> | Hy];
    auto.
  - exfalso. apply Hnotin. rewrite Heq. apply list_elem_of_fmap. eauto.
  - exfalso. apply Hnotin. rewrite <- Heq. apply list_elem_of_fmap. eauto.
Qed.

Lemma find_app {A : Type} (p : A -> bool) (l k : list A) :
  Js.find p (l ++ k) = Js.coalesce (Js.find p l) (Js.find p k).
Proof.
  induction l as [|x l IH]; simpl; [now destruct (Js.find p k)|].
  destruct (p x); [reflexivity | exact IH].
Qed.

End StoreFacts.

(** ** Sign-in (lib/auth.ts) *)

(** C10. The [signIn] callback returns [true] exactly when the profile's
    e-mail address, read as the empty string when the profile or the
    address is absent, ends with "@quilt-cap.com"; for every other profile
    it returns [false]. *)
Theorem C10_signIn_iff_allowed_domain (profile : option Auth.Profile) :
  let email := default "" (profile ≫= Auth.email) in
  (Auth.signIn profile = true <-> exists pre, email = pre +:+ "@quilt-cap.com")
  /\ (Auth.signIn profile = false <->
      ~ exists pre, email = pre +:+ "@quilt-cap.com").
Proof.
  intros email.
  assert (Hsign : Auth.signIn profile = Js.endsWith email "@quilt-cap.com").
  { unfold Auth.signIn. fold email.
    change ("@" +:+ Auth.ALLOWED_DOMAIN) with "@quilt-cap.com".
    now destruct (Js.endsWith email "@quilt-cap.com"). }
  rewrite Hsign. split; [apply endsWith_spec|].
  rewrite <- endsWith_spec.
  destruct (Js.endsWith email "@quilt-cap.com"); split; congruence.
Qed.

Example signIn_no_profile : Auth.signIn None = false.
Proof. reflexivity. Qed.

Example signIn_no_email : Auth.signIn (Some {| Auth.email := None |}) = false.
Proof. reflexivity. Qed.

Example signIn_bare_domain :
  Auth.signIn (Some {| Auth.email := Some "quilt-cap.com" |}) = false.
Proof. reflexivity. Qed.

(** ** Sector colours (lib/constants.ts) *)

(** A sector that names no property of [Object.prototype] gets its colour
    from the table, or the fallback. *)
Lemma getSectorColor_own_or_fallback (sector : string) :
  Js.Object_prototype sector = Js.Undefined ->
  Constants.getSectorColor sector =
  Js.Str (default Constants.FALLBACK_SECTOR_COLOR
            (Constants.KNOWN_SECTOR_COLORS !! sector)).
Proof.
  intros Hproto. unfold Constants.getSectorColor, Js.get.
  destruct (Constants.KNOWN_SECTOR_COLORS !! sector); simpl; [reflexivity|].
  now rewrite Hproto.
Qed.

(** C9. The sector "constructor" is not in the known-sector table, yet
    [getSectorColor] does not answer with the fallback colour: the lookup
    finds the property every object inherits and returns it, a function
    rather than a colour string. *)
Theorem C9_getSectorColor_inherited_key :
  Constants.KNOWN_SECTOR_COLORS !! "constructor" = None
  /\ Constants.getSectorColor "constructor" = Js.Function "Object"
  /\ Constants.getSectorColor "constructor"
     <> Js.Str Constants.FALLBACK_SECTOR_COLOR.
Proof. repeat split; [vm_compute; reflexivity .. | vm_compute; discriminate]. Qed.

Example getSectorColor_toString :
  Constants.getSectorColor "toString" = Js.Function "toString".
Proof. vm_compute. reflexivity. Qed.

(** ** Follow-up aging (components/projects/FollowUpPanel.tsx) *)

Section FollowUp.
Import FollowUpPanel.
Variable now : Z.
Variable getTime : string -> Js.Num.

Lemma place_needsFollowUp (l : list OutreachThread.t) (g : Groups)
    (u : OutreachThread.t) :
  u ∈ needsFollowUp (fold_left place l g) <->
  u ∈ needsFollowUp g
  \/ (u ∈ l /\ (OutreachThread.status u = ThreadStatus.sent
                \/ OutreachThread.status u = ThreadStatus.awaiting_response)).
Proof.
  revert g; induction l as [|t l IH]; intros g; simpl.
  - split; [now left | intros [H | [H _]]; [assumption | inversion H]].
  - rewrite IH. unfold place.
    destruct (OutreachThread.status t) eqn:Hst; simpl;
      rewrite ?elem_of_app, ?list_elem_of_singleton, elem_of_cons;
      split; intros H; destruct_or?; destruct_and?; subst;
      destruct_or?; subst; try congruence; eauto 6.
Qed.

Lemma categorize_needsFollowUp (threads : list OutreachThread.t)
    (u : OutreachThread.t) :
  u ∈ needsFollowUp (categorize now getTime threads) <->
  u ∈ threads /\ (OutreachThread.status u = ThreadStatus.sent
                  \/ OutreachThread.status u = ThreadStatus.awaiting_response).
Proof.
  unfold categorize; simpl. rewrite sort_perm, place_needsFollowUp. simpl.
  split; [intros [H | H]; [inversion H | exact H] | now right].
Qed.

Lemma daysSince_parsed (s : string) (ts : Z) :
  s <> "" -> getTime s = Js.Int ts ->
  daysSince now getTime (Some s) = Js.Int ((now - ts) / 86400000).
Proof.
  intros Hs Hts. unfold daysSince, Js.truthy_opt, Js.truthy.
  destruct (String.eqb_spec s ""); [contradiction|]. simpl.
  now rewrite Hts.
Qed.

Lemma five_days_floor (d : Z) : (5 <= d / 86400000 <-> 5 * 86400000 <= d)%Z.
Proof.
  split; intros H.
  - pose proof (Z.mul_div_le d 86400000 ltac:(lia)). lia.
  - apply Z.div_le_lower_bound; lia.
Qed.
End FollowUp.

(** C6. Needs-follow-up is computed from the threads at read time: a thread
    is listed in the needs-follow-up group exactly when it is one of the
    given threads and its status is [sent] or [awaiting_response]
    (ThreadStatus has no such state of its own).  [daysSince] is 0 for a
    null date and otherwise the floor of the elapsed time in days, and a
    listed thread is flagged overdue exactly when that count is at least 5,
    that is, from five full days after [last_sent_at] on. *)
Theorem C6_needs_follow_up_is_derived
    (now : Z) (getTime : string -> Js.Num)
    (threads : list OutreachThread.t) (t : OutreachThread.t)
    (s : string) (ts : Z)
    (Hlast : OutreachThread.last_sent_at t = Some s)
    (Hs : s <> "")
    (Hts : getTime s = Js.Int ts) :
  (forall u,
      u ∈ FollowUpPanel.needsFollowUp (FollowUpPanel.categorize now getTime threads)
      <-> u ∈ threads
          /\ (OutreachThread.status u = ThreadStatus.sent
              \/ OutreachThread.status u = ThreadStatus.awaiting_response))
  /\ FollowUpPanel.daysSince now getTime None = Js.Int 0
  /\ FollowUpPanel.daysSince now getTime (OutreachThread.last_sent_at t)
     = Js.Int ((now - ts) / (1000 * 60 * 60 * 24))
  /\ (FollowUpPanel.isOverdue now getTime t = true
      <-> (5 <= (now - ts) / (1000 * 60 * 60 * 24))%Z)
  /\ (FollowUpPanel.isOverdue now getTime t = true
      <-> (5 * (1000 * 60 * 60 * 24) <= now - ts)%Z)
  /\ (forall u, OutreachThread.last_sent_at u = None ->
                FollowUpPanel.isOverdue now getTime u = false).
Proof.
  change (1000 * 60 * 60 * 24)%Z with 86400000%Z.
  assert (Hover : FollowUpPanel.isOverdue now getTime t = true
                  <-> (5 <= (now - ts) / 86400000)%Z).
  { unfold FollowUpPanel.isOverdue. rewrite Hlast, (daysSince_parsed _ _ _ _ Hs Hts).
    simpl. apply Z.leb_le. }
  split; [intros u; apply categorize_needsFollowUp|].
  split; [reflexivity|].
  split; [rewrite Hlast; now apply daysSince_parsed|].
  split; [exact Hover|].
  split; [rewrite Hover; apply five_days_floor|].
  intros u Hu. unfold FollowUpPanel.isOverdue. now rewrite Hu.
Qed.

Lemma C6_needs_follow_up_witness :
  FollowUpPanel.isOverdue (5 * Sample.day) (fun _ => Js.Int 0) Sample.awaiting
  = true
  /\ Sample.awaiting
     ∈ FollowUpPanel.needsFollowUp
         (FollowUpPanel.categorize (5 * Sample.day) (fun _ => Js.Int 0)
            [Sample.awaiting]).
Proof.
  pose proof (C6_needs_follow_up_is_derived (5 * Sample.day) (fun _ => Js.Int 0)
                [Sample.awaiting] Sample.awaiting "2026-03-02T09:00:00Z" 0
                eq_refl ltac:(discriminate) eq_refl)
    as (Hgroup & _ & _ & _ & Hover & _).
  split.
  - apply Hover. vm_compute. discriminate.
  - apply Hgroup. split; [left | right; reflexivity].
Defined.

Example not_overdue_just_before_five_days :
  FollowUpPanel.isOverdue (5 * Sample.day - 1) (fun _ => Js.Int 0)
    (Sample.thread "t1" ThreadStatus.sent (Some "2026-03-02T09:00:00Z") []) = false.
Proof. reflexivity. Qed.

Example not_overdue_unparsable_date :
  FollowUpPanel.isOverdue (9 * Sample.day) (fun _ => Js.NaN)
    (Sample.thread "t1" ThreadStatus.sent (Some "soon") []) = false.
Proof. reflexivity. Qed.

(** ** Scheduling slots (components/projects/SchedulingModal.tsx) *)

Section Slots.
Import SchedulingModal.

Lemma filteri_keeps_later (idx k : nat) (l : list Slot) :
  idx < k -> Js.filteri (fun _ i => negb (i =? idx)%nat) k l = l.
Proof.
  revert k; induction l as [|x l IH]; intros k Hk; simpl; [reflexivity|].
  destruct (Nat.eqb_spec k idx); [lia|]. simpl. f_equal. apply IH. lia.
Qed.

Lemma filteri_drops_one (idx k : nat) (l : list Slot) :
  length l - 1 <= length (Js.filteri (fun _ i => negb (i =? idx)%nat) k l).
Proof.
  revert k; induction l as [|x l IH]; intros k; simpl; [lia|].
  destruct (Nat.eqb_spec k idx) as [->|Hne]; simpl.
  - rewrite filteri_keeps_later by lia. lia.
  - specialize (IH (S k)). lia.
Qed.

Lemma addSlot_bounds (l : list Slot) :
  2 <= length l <= 5 -> 2 <= length (addSlot l) <= 5.
Proof.
  intros H. unfold addSlot.
  destruct (Nat.leb_spec 5 (length l)); [assumption|].
  rewrite length_app; simpl; lia.
Qed.

Lemma removeSlot_bounds (l : list Slot) (i : nat) :
  2 <= length l <= 5 -> 2 <= length (removeSlot l i) <= 5.
Proof.
  intros H. unfold removeSlot.
  destruct (Nat.leb_spec (length l) 2); [assumption|].
  pose proof (filteri_drops_one i 0 l).
  pose proof (filteri_length_le (fun (_ : Slot) j => negb (j =? i)%nat) 0 l).
  lia.
Qed.

Lemma updateSlot_length (l : list Slot) (i : nat) (f : SlotKey) (v : string) :
  length (updateSlot l i f v) = length l.
Proof. apply mapi_length. Qed.

Lemma act_bounds (l : list Slot) (a : SlotAction) :
  2 <= length l <= 5 -> 2 <= length (act l a) <= 5.
Proof.
  destruct a; simpl.
  - apply addSlot_bounds.
  - apply removeSlot_bounds.
  - now rewrite updateSlot_length.
Qed.

(** Whatever the user does, the modal holds between 2 and 5 slots. *)
Lemma slots_always_2_to_5 (actions : list SlotAction) :
  2 <= length (fold_left act actions initialSlots) <= 5.
Proof.
  assert (H : 2 <= length initialSlots <= 5) by (simpl; lia).
  revert H. generalize initialSlots.
  induction actions as [|a actions IH]; intros l H; simpl; [assumption|].
  apply IH, act_bounds, H.
Qed.

Lemma validSlots_length (fmt : string -> string -> string) (l : list Slot) :
  length (validSlots fmt l) <= length l.
Proof. unfold validSlots. rewrite length_map. apply List.filter_length_le. Qed.

Lemma handleGenerate_requests {S : Type}
    (server : forall R, Api.Request R -> S -> Api.Response R * S) (s0 : S)
    (fmt : string -> string -> string) (thread : OutreachThread.t)
    (slots : list Slot) (assistantName : string) :
  Api.requests (Api.trace server (handleGenerate fmt thread slots assistantName) s0)
  = if (length (validSlots fmt slots) <? 2)%nat then []
    else [Api.Requested
            (Api.GenerateSchedulingReply (OutreachThread.id thread)
               (validSlots fmt slots)
               (if Js.truthy assistantName then Some assistantName else None))].
Proof.
  unfold Api.trace, handleGenerate.
  destruct (length (validSlots fmt slots) <? 2)%nat; [reflexivity|]. simpl.
  destruct (server _ _ s0) as [res s1]. destruct res; reflexivity.
Qed.

End Slots.

Section Drafting.
Import Backend.
Variable generate :
  OutreachThread.t -> MessageType.t -> list ProposedSlot.t -> option (string * string).

(** With fewer than 2 slots a scheduling reply is never drafted, and the
    store is left as it was. *)
Lemma draft_too_few_slots (s : Store) (t : OutreachThread.t)
    (slots : list ProposedSlot.t) (now : string) :
  length slots < 2 ->
  draft generate s t MessageType.scheduling_reply slots now
  = (Failed (match usable_email s (OutreachThread.company_id t) with
             | Some _ => InsufficientSlotsError
             | None => MissingContactError
             end), s).
Proof.
  intros H. unfold draft.
  destruct (usable_email s (OutreachThread.company_id t)); [|reflexivity].
  simpl. destruct (Nat.ltb_spec (length slots) 2); [reflexivity | lia].
Qed.

End Drafting.

(** What does hold of the scheduling modal and of the service.  A
    scheduling reply asked for with fewer than 2 proposed slots is
    refused by the service with [InsufficientSlotsError] and nothing is
    stored; the modal, when fewer than 2 of its slots have a date, only
    alerts and sends no request.  The slot list starts with exactly 2
    entries and stays between 2 and 5 under every sequence of user
    actions: adding is a no-op at 5, removing is a no-op at 2.  The modal
    sends a generation request exactly when at least 2 slots are dated, so
    a request carries between 2 and 5 slots. *)
Lemma scheduling_modal_slots
    (formatSlotLabel : string -> string -> string)
    (generate : OutreachThread.t -> MessageType.t -> list ProposedSlot.t
                -> option (string * string))
    (S : Type) (server : forall R, Api.Request R -> S -> Api.Response R * S)
    (s0 : S)
    (store : Backend.Store) (thread : OutreachThread.t) (email now : string)
    (proposed : list ProposedSlot.t)
    (slots : list SchedulingModal.Slot) (assistantName : string)
    (actions : list SchedulingModal.SlotAction)
    (Hthread : Backend.find_thread store (OutreachThread.id thread) = Some thread)
    (Hemail : Backend.usable_email store (OutreachThread.company_id thread)
              = Some email)
    (Hproposed : length proposed < 2)
    (Hslots : length (SchedulingModal.validSlots formatSlotLabel slots) < 2) :
  Backend.generateSchedulingReply generate store (OutreachThread.id thread)
    proposed now = (Backend.Failed Backend.InsufficientSlotsError, store)
  /\ Api.run server
       (SchedulingModal.handleGenerate formatSlotLabel thread slots assistantName)
       s0
     = (Api.Returned tt,
        [Api.Performed (Api.Alert "Please provide at least 2 time slots.")], s0)
  /\ length SchedulingModal.initialSlots = 2
  /\ (let current := fold_left SchedulingModal.act actions
                       SchedulingModal.initialSlots in
      2 <= length current <= 5
      /\ length (SchedulingModal.validSlots formatSlotLabel current) <= 5
      /\ Api.requests
           (Api.trace server
              (SchedulingModal.handleGenerate formatSlotLabel thread current
                 assistantName) s0)
         = (if (length (SchedulingModal.validSlots formatSlotLabel current) <? 2)%nat
            then []
            else [Api.Requested
                    (Api.GenerateSchedulingReply (OutreachThread.id thread)
                       (SchedulingModal.validSlots formatSlotLabel current)
                       (if Js.truthy assistantName then Some assistantName
                        else None))])
      /\ (length current = 5 -> SchedulingModal.addSlot current = current)
      /\ (length current = 2 ->
          forall i, SchedulingModal.removeSlot current i = current)).
Proof.
  split.
  { unfold Backend.generateSchedulingReply, Backend.generateDraft.
    rewrite Hthread, draft_too_few_slots by assumption. now rewrite Hemail. }
  split.
  { unfold SchedulingModal.handleGenerate.
    destruct (Nat.ltb_spec
                (length (SchedulingModal.validSlots formatSlotLabel slots)) 2);
      [reflexivity | lia]. }
  split; [reflexivity|].
  pose proof (slots_always_2_to_5 actions) as Hb.
  cbv zeta. split; [exact Hb|].
  split.
  { etransitivity; [apply validSlots_length | apply Hb]. }
  split; [apply handleGenerate_requests|].
  split.
  - intros H5. unfold SchedulingModal.addSlot. now rewrite H5.
  - intros H2 i. unfold SchedulingModal.removeSlot. now rewrite H2.
Qed.

Example scheduling_reply_without_slots_is_refused :
  Backend.generateSchedulingReply Sample.generate
    (Sample.store [Sample.answered]) "t1" [] "2026-03-09T09:00:00Z"
  = (Backend.Failed Backend.InsufficientSlotsError,
     Sample.store [Sample.answered]).
Proof.
  refine (proj1 (scheduling_modal_slots Sample.formatSlotLabel Sample.generate
                   unit Sample.offline tt (Sample.store [Sample.answered])
                   Sample.answered "owner@acme.example" "2026-03-09T09:00:00Z"
                   [] SchedulingModal.initialSlots "" [] _ _ _ _)).
  - reflexivity.
  - vm_compute. reflexivity.
  - simpl. lia.
  - simpl. lia.
Qed.

Example one_dated_slot_sends_nothing :
  Api.trace Sample.offline
    (SchedulingModal.handleGenerate Sample.formatSlotLabel
       (Sample.thread "t1" ThreadStatus.responded None [])
       [ {| SchedulingModal.date := "2026-03-12"; SchedulingModal.time := "10:00";
            SchedulingModal.label := "" |};
         {| SchedulingModal.date := ""; SchedulingModal.time := "14:00";
            SchedulingModal.label := "" |} ] "") tt
  = [Api.Performed (Api.Alert "Please provide at least 2 time slots.")].
Proof. reflexivity. Qed.

(** ** Confirming a meeting (SchedulingModal.handleSend) *)

Section Meetings.
Import Backend.
Variable generate :
  OutreachThread.t -> MessageType.t -> list ProposedSlot.t -> option (string * string).
Variable transport : OutreachThreadMessage.t -> string -> string + (string * string).

Lemma no_new_meeting_refl (s : Store) : no_new_meeting s s.
Proof. intros t Hin Hst. now exists t. Qed.

Lemma no_new_meeting_put (s : Store) (t t' : OutreachThread.t) :
  t ∈ threads s ->
  OutreachThread.id t' = OutreachThread.id t ->
  (OutreachThread.status t' = ThreadStatus.meeting_scheduled ->
   OutreachThread.status t = ThreadStatus.meeting_scheduled) ->
  no_new_meeting s (put_thread s t').
Proof.
  intros Hin Hid Hst u Hu Hmeet.
  apply put_thread_elem in Hu as [-> | Hu].
  - exists t. auto.
  - now exists u.
Qed.

Lemma draft_no_new_meeting (s : Store) (t : OutreachThread.t)
    (ty : MessageType.t) (slots : list ProposedSlot.t) (now : string) :
  t ∈ threads s -> no_new_meeting s (snd (draft generate s t ty slots now)).
Proof.
  intros Hin. unfold draft.
  destruct (usable_email s _); [|apply no_new_meeting_refl].
  destruct (_ && _); [apply no_new_meeting_refl|].
  destruct (generate t ty slots) as [[subject body]|]; [|apply no_new_meeting_refl].
  simpl. apply (no_new_meeting_put s t); auto.
Qed.

Lemma generateDraft_no_new_meeting (s : Store) (threadId : string)
    (ty : MessageType.t) (slots : list ProposedSlot.t) (now : string) :
  no_new_meeting s (snd (generateDraft generate s threadId ty slots now)).
Proof.
  unfold generateDraft. destruct (find_thread s threadId) as [t|] eqn:Hfind;
    [|apply no_new_meeting_refl].
  apply draft_no_new_meeting. now apply find_thread_some in Hfind.
Qed.

Lemma send_no_new_meeting (s : Store) (messageId credential now : string) :
  no_new_meeting s (snd (send transport s messageId credential now)).
Proof.
  unfold send. destruct (negb _); [apply no_new_meeting_refl|].
  destruct (find_message s messageId) as [[t m]|] eqn:Hfind;
    [|apply no_new_meeting_refl].
  apply find_message_some in Hfind as (Hin & _ & _).
  destruct (MessageStatus.eqb _ _); [apply no_new_meeting_refl|].
  destruct (transport m credential) as [reason | [gm gt]]; simpl;
    apply (no_new_meeting_put s t); auto; simpl.
  destruct (OutreachThreadMessage.message_type m); auto; discriminate.
Qed.

End Meetings.

Section HandleSend.
Import Api SchedulingModal.
Context {S : Type}.
Variable server : forall R, Request R -> S -> Response R * S.

Lemma handleSend_requests (thread : OutreachThread.t)
    (msg : OutreachThreadMessage.t) (sess : Session.t) (s0 : S) :
  let send := SendMessage (OutreachThreadMessage.id msg) (Session.token sess) in
  let patch := PatchThreadStatus (OutreachThread.id thread)
                 ThreadStatus.meeting_scheduled in
  let tr := trace server (handleSend thread (Some msg) (Some sess)) s0 in
  requests tr
  = Requested send ::
    match fst (server _ send s0) with
    | Ok _ => [Requested patch]
    | _ => []
    end
  /\ existsb is_meeting_patch tr
     = match fst (server _ send s0) with
       | Ok _ => true
       | _ => false
       end.
Proof.
  intros send patch tr. subst tr. unfold trace, handleSend. simpl.
  fold send. destruct (server _ send s0) as [res s1]. simpl.
  destruct res as [[] | detail |]; simpl; [|split; reflexivity ..].
  fold patch. destruct (server _ patch s1) as [res2 s2].
  destruct res2; simpl; split; reflexivity.
Qed.

Lemma handleGenerate_no_meeting_patch (fmt : string -> string -> string)
    (thread : OutreachThread.t) (slots : list Slot) (assistantName : string)
    (s0 : S) :
  existsb is_meeting_patch
    (trace server (handleGenerate fmt thread slots assistantName) s0) = false.
Proof.
  unfold trace, handleGenerate.
  destruct (length (validSlots fmt slots) <? 2)%nat; [reflexivity|]. simpl.
  destruct (server _ _ s0) as [res s1]. destruct res; reflexivity.
Qed.

Lemma handleSendMessage_no_meeting_patch (thread : option OutreachThread.t)
    (session : option Session.t) (s0 : S) :
  existsb is_meeting_patch
    (trace server (CompanyDetailPanel.handleSendMessage thread session) s0)
  = false.
Proof.
  unfold trace, CompanyDetailPanel.handleSendMessage.
  destruct (CompanyDetailPanel.sendTarget thread) as [msg|]; [|reflexivity].
  destruct session as [sess|]; [|reflexivity]. simpl.
  destruct (server _ _ s0) as [res s1].
  destruct res as [[] | detail |]; try reflexivity.
  destruct thread as [t|]; [|reflexivity]. simpl.
  destruct (server _ _ s1) as [res2 s2]. destruct res2; reflexivity.
Qed.

End HandleSend.

(** C7. The modal asks for the thread's status to become
    [meeting_scheduled] exactly when it holds a generated message and a
    session and the send request for that message came back successful; the
    patch is then the request right after the send, and on a failed or
    rejected send nothing follows it.  Generating the reply and sending a
    message from the detail panel never ask for it, and the service's
    drafter and sender never move a thread into [meeting_scheduled] by
    themselves. *)
Theorem C7_meeting_scheduled_after_successful_send
    (S : Type) (server : forall R, Api.Request R -> S -> Api.Response R * S)
    (s0 : S) (thread : OutreachThread.t)
    (generatedMessage : option OutreachThreadMessage.t)
    (session : option Session.t)
    (generate : OutreachThread.t -> MessageType.t -> list ProposedSlot.t
                -> option (string * string))
    (transport : OutreachThreadMessage.t -> string -> string + (string * string))
    (store : Backend.Store) (threadId messageId credential now : string)
    (ty : MessageType.t) (slots : list ProposedSlot.t)
    (formatSlotLabel : string -> string -> string)
    (modalSlots : list SchedulingModal.Slot) (assistantName : string)
    (held : option OutreachThread.t) :
  let tr := Api.trace server
              (SchedulingModal.handleSend thread generatedMessage session) s0 in
  (existsb Api.is_meeting_patch tr = true <->
   exists msg sess body,
     generatedMessage = Some msg /\ session = Some sess
     /\ fst (server _ (Api.SendMessage (OutreachThreadMessage.id msg)
                         (Session.token sess)) s0) = Api.Ok body)
  /\ match generatedMessage, session with
     | Some msg, Some sess =>
         let send := Api.SendMessage (OutreachThreadMessage.id msg)
                       (Session.token sess) in
         Api.requests tr
         = Api.Requested send ::
           match fst (server _ send s0) with
           | Api.Ok _ =>
               [Api.Requested
                  (Api.PatchThreadStatus (OutreachThread.id thread)
                     ThreadStatus.meeting_scheduled)]
           | _ => []
           end
     | _, _ => tr = []
     end
  /\ existsb Api.is_meeting_patch
       (Api.trace server
          (SchedulingModal.handleGenerate formatSlotLabel thread modalSlots
             assistantName) s0) = false
  /\ existsb Api.is_meeting_patch
       (Api.trace server (CompanyDetailPanel.handleSendMessage held session) s0)
     = false
  /\ Backend.no_new_meeting store
       (snd (Backend.generateDraft generate store threadId ty slots now))
  /\ Backend.no_new_meeting store
       (snd (Backend.send transport store messageId credential now)).
Proof.
  intros tr. subst tr.
  split; [|split; [|split; [|split; [|split]]]].
  - destruct generatedMessage as [msg|], session as [sess|];
      try (split; [discriminate | intros (? & ? & ? & ? & ? & ?); discriminate]).
    destruct (handleSend_requests server thread msg sess s0) as [_ Hpatch].
    cbv zeta in Hpatch. rewrite Hpatch. split.
    + destruct (fst (server _ _ s0)) as [body| |] eqn:Hres; try discriminate.
      intros _. now exists msg, sess, body.
    + intros (msg' & sess' & body & [= <-] & [= <-] & ->). reflexivity.
  - destruct generatedMessage as [msg|], session as [sess|]; try reflexivity.
    apply handleSend_requests.
  - apply handleGenerate_no_meeting_patch.
  - apply handleSendMessage_no_meeting_patch.
  - apply generateDraft_no_new_meeting.
  - apply send_no_new_meeting.
Qed.

(** ** Bulk generation (ProjectCRM.handleBulkGenerate) *)

Section Bulk.
Import Backend.
Variable generate :
  OutreachThread.t -> MessageType.t -> list ProposedSlot.t -> option (string * string).

Lemma truthy_opt_spec (o : option string) :
  Js.truthy_opt o = true <-> exists e, o = Some e /\ e <> "".
Proof.
  destruct o as [e|]; simpl.
  - unfold Js.truthy. destruct (String.eqb_spec e ""); simpl; split.
    + discriminate.
    + intros (e' & [= <-] & Hne). contradiction.
    + intros _. now exists e.
    + reflexivity.
  - split; [discriminate | intros (e & H & _); discriminate].
Qed.

Lemma enrichedCompanyIds_spec (project : ProjectDetail.t)
    (enrichmentMap : gmap string EnrichmentStatusResponse.t) (id : string) :
  id ∈ ProjectCRM.enrichedCompanyIds project enrichmentMap <->
  exists c e, c ∈ ProjectDetail.companies project
    /\ ProjectCompanyEntry.company_id c = id
    /\ ProjectCRM.contactEmail enrichmentMap c = Some e /\ e <> "".
Proof.
  unfold ProjectCRM.enrichedCompanyIds.
  rewrite list_elem_of_In, in_map_iff. split.
  - intros (c & Hid & Hc). apply filter_In in Hc as [Hc Hp].
    apply truthy_opt_spec in Hp as (e & He & Hne).
    exists c, e. now rewrite list_elem_of_In.
  - intros (c & e & Hc & Hid & He & Hne). exists c. split; [assumption|].
    apply filter_In. split; [now apply list_elem_of_In|].
    apply truthy_opt_spec. now exists e.
Qed.

(** A company without a usable contact email is tallied as skipped, and no
    message appears in the store for it. *)
Lemma bulkStep_skips (project_id company_id now : string) (ty : MessageType.t)
    (counts : BulkCounts.t) (s : Store) :
  usable_email s company_id = None ->
  let r := bulkStep generate project_id ty now (counts, s) company_id in
  BulkCounts.skipped (fst r) = (BulkCounts.skipped counts + 1)%Z
  /\ BulkCounts.generated (fst r) = BulkCounts.generated counts
  /\ BulkCounts.errors (fst r) = BulkCounts.errors counts
  /\ all_messages (snd r) = all_messages s.
Proof.
  intros Hnone. unfold bulkStep.
  pose proof (create_spec s project_id company_id None now)
    as (_ & Hc & _ & Hk & Hm).
  destruct (create s project_id company_id None now) as [t s1].
  simpl in Hc, Hk, Hm. unfold draft, usable_email.
  rewrite Hc, Hk. unfold usable_email in Hnone. rewrite Hnone. simpl.
  repeat split; [lia .. | assumption].
Qed.

Lemma bulkStep_tally (project_id company_id now : string) (ty : MessageType.t)
    (counts : BulkCounts.t) (s : Store) :
  let c := fst (bulkStep generate project_id ty now (counts, s) company_id) in
  BulkCounts.total c = BulkCounts.total counts
  /\ (BulkCounts.generated c + BulkCounts.skipped c + BulkCounts.errors c
      = BulkCounts.generated counts + BulkCounts.skipped counts
        + BulkCounts.errors counts + 1)%Z.
Proof.
  unfold bulkStep.
  destruct (create s project_id company_id None now) as [t s1].
  destruct (draft generate s1 t ty [] now) as [[m|e] s2]; [|destruct e];
    simpl; split; lia || reflexivity.
Qed.

Lemma bulk_fold_tally (project_id now : string) (ty : MessageType.t)
    (ids : list string) (acc : BulkCounts.t * Store) :
  let c := fst (fold_left (bulkStep generate project_id ty now) ids acc) in
  BulkCounts.total c = BulkCounts.total (fst acc)
  /\ (BulkCounts.generated c + BulkCounts.skipped c + BulkCounts.errors c
      = BulkCounts.generated (fst acc) + BulkCounts.skipped (fst acc)
        + BulkCounts.errors (fst acc) + Z.of_nat (length ids))%Z.
Proof.
  revert acc; induction ids as [|id ids IH]; intros [counts s]; simpl.
  - split; [reflexivity | lia].
  - specialize (IH (bulkStep generate project_id ty now (counts, s) id)).
    destruct IH as [IHt IHs].
    pose proof (bulkStep_tally project_id id now ty counts s) as [Ht Hs].
    simpl in Ht, Hs, IHt, IHs |- *. split; [now rewrite IHt | lia].
Qed.

(** One company of a bulk generation: the contacts stay, [skipped] grows
    exactly when the company has no usable email, and a thread of the
    store afterwards is a thread from before, or the company's thread
    without messages, or the thread of a company that has an email. *)
Lemma bulkStep_effect (project_id company_id now : string) (ty : MessageType.t)
    (counts : BulkCounts.t) (s : Store) :
  let r := bulkStep generate project_id ty now (counts, s) company_id in
  contacts (snd r) = contacts s
  /\ BulkCounts.skipped (fst r)
     = (BulkCounts.skipped counts
        + (if lacks_email s company_id then 1 else 0))%Z
  /\ (forall t', t' ∈ threads (snd r) ->
        t' ∈ threads s
        \/ (OutreachThread.company_id t' = company_id
            /\ (OutreachThread.messages t' = []
                \/ usable_email s company_id <> None))).
Proof.
  unfold bulkStep.
  assert (Hcreate : forall t s1,
            create s project_id company_id None now = (t, s1) ->
            OutreachThread.company_id t = company_id
            /\ contacts s1 = contacts s
            /\ (forall t', t' ∈ threads s1 ->
                  t' ∈ threads s
                  \/ (t' = t /\ OutreachThread.messages t' = []))).
  { intros t s1. unfold create.
    destruct (find_pair s project_id company_id) as [t0|] eqn:Hfind.
    - intros [= <- <-]. apply find_some in Hfind as [_ Hp].
      apply andb_true_iff in Hp as [_ Hc]. apply String.eqb_eq in Hc. auto.
    - intros [= <- <-]. simpl. repeat split.
      intros t' [Hin | ->%list_elem_of_singleton]%elem_of_app; auto. }
  destruct (create s project_id company_id None now) as [t s1].
  destruct (Hcreate t s1 eq_refl) as (Hc & Hk & Hthreads).
  assert (Hemail : usable_email s1 (OutreachThread.company_id t)
                   = usable_email s company_id)
    by (unfold usable_email; now rewrite Hk, Hc).
  unfold draft, lacks_email. rewrite Hemail.
  destruct (usable_email s company_id) as [email|]; simpl.
  - assert (Hmail : forall t', t' ∈ threads s1 ->
              t' ∈ threads s
              \/ OutreachThread.company_id t' = company_id
                 /\ (OutreachThread.messages t' = []
                     \/ Some email <> (None : option string))).
    { intros t' [Hin | [-> _]]%Hthreads; [now left | right].
      split; [exact Hc | now right]. }
    destruct (_ && _); simpl; [split; [assumption | split; [lia | exact Hmail]]|].
    destruct (generate t ty []) as [[subject body]|]; simpl;
      [|split; [assumption | split; [lia | exact Hmail]]].
    split; [assumption|]. split; [lia|].
    intros t' (t0 & -> & Hin)%list_elem_of_fmap.
    destruct (String.eqb _ _); [|now apply Hmail].
    right. split; [exact Hc | now right].
  - split; [assumption|]. split; [lia|].
    intros t' [Hin | [-> Hm]]%Hthreads; [now left | right].
    split; [exact Hc | now left].
Qed.

(** Over a whole bulk generation: [skipped] grows by the number of
    companies without a usable email, and a thread of a company without a
    usable email holds only messages that were in the store before. *)
Lemma bulk_fold_skipped (project_id now : string) (ty : MessageType.t)
    (s0 : Store) (ids : list string) (acc : BulkCounts.t * Store) :
  contacts (snd acc) = contacts s0 ->
  (forall t, t ∈ threads (snd acc) ->
     usable_email s0 (OutreachThread.company_id t) = None ->
     forall m, m ∈ OutreachThread.messages t -> m ∈ all_messages s0) ->
  let r := fold_left (bulkStep generate project_id ty now) ids acc in
  BulkCounts.skipped (fst r)
  = (BulkCounts.skipped (fst acc)
     + Z.of_nat (length (List.filter (lacks_email s0) ids)))%Z
  /\ (forall t, t ∈ threads (snd r) ->
        usable_email s0 (OutreachThread.company_id t) = None ->
        forall m, m ∈ OutreachThread.messages t -> m ∈ all_messages s0).
Proof.
  revert acc. induction ids as [|id ids IH]; intros [counts s] Hk Hold.
  - simpl in *. split; [lia | exact Hold].
  - cbn [fold_left].
    pose proof (bulkStep_effect project_id id now ty counts s)
      as (Hk' & Hskip & Hthreads).
    simpl in Hk, Hold.
    assert (Hsame : usable_email s id = usable_email s0 id)
      by (unfold usable_email; now rewrite Hk).
    assert (Hlacks : lacks_email s id = lacks_email s0 id)
      by (unfold lacks_email; now rewrite Hsame).
    rewrite Hlacks in Hskip. rewrite Hsame in Hthreads.
    destruct (IH (bulkStep generate project_id ty now (counts, s) id))
      as [IHs IHt].
    + now rewrite Hk'.
    + intros t [Hin | [Hc [Hm | Hmail]]]%Hthreads Hnone m Hin'.
      * now apply (Hold t).
      * rewrite Hm in Hin'. inversion Hin'.
      * rewrite Hc in Hnone. contradiction.
    + split; [|exact IHt]. rewrite IHs, Hskip. cbn [List.filter].
      destruct (lacks_email s0 id); simpl; lia.
Qed.

Lemma bulkGenerate_skipped (project_id now : string) (ty : MessageType.t)
    (s : Store) (ids : list string) :
  let r := bulkGenerate generate s project_id ids ty now in
  BulkCounts.skipped (fst r)
  = Z.of_nat (length (List.filter (lacks_email s) ids))
  /\ (forall t, t ∈ threads (snd r) ->
        usable_email s (OutreachThread.company_id t) = None ->
        forall m, m ∈ OutreachThread.messages t -> m ∈ all_messages s).
Proof.
  unfold bulkGenerate.
  match goal with
  | |- context [fold_left _ ids ?a] =>
      pose proof (bulk_fold_skipped project_id now ty s ids a eq_refl) as H
  end.
  destruct H as [Hs Ht].
  - intros t Hin _ m Hm. apply list_elem_of_bind. eauto.
  - simpl in Hs. split; [rewrite Hs; lia | exact Ht].
Qed.

End Bulk.

Section HandleBulkGenerate.
Import Api.
Context {S : Type}.
Variable server : forall R, Request R -> S -> Response R * S.

Lemma handleBulkGenerate_requests (project : ProjectDetail.t)
    (enrichmentMap : gmap string EnrichmentStatusResponse.t) (s0 : S) :
  let ids := ProjectCRM.enrichedCompanyIds project enrichmentMap in
  requests (trace server (ProjectCRM.handleBulkGenerate project enrichmentMap) s0)
  = match ids with
    | [] => []
    | _ => [Requested (BulkGenerate (ProjectDetail.id project) ids
                         MessageType.initial)]
    end.
Proof.
  intros ids. unfold trace, ProjectCRM.handleBulkGenerate. fold ids.
  destruct ids as [|id ids]; [reflexivity|]. simpl.
  destruct (server _ _ s0) as [res s1]. destruct res; reflexivity.
Qed.

End HandleBulkGenerate.

(** C8. In the service's bulk generation a company without a usable
    contact email is counted under [skipped] and no message is created for
    it: one such company adds 1 to [skipped] and nothing else, the
    [skipped] count that [bulkGenerate] reports is the number of submitted
    ids whose company has no usable email, every thread of such a company
    holds afterwards only messages that were there before, and the counts
    add up to the total.  The client submits
    exactly the ids of the project's companies whose enrichment snapshot
    carries a contact email that is neither null nor empty, and when there
    is no such company it sends no bulk-generate request at all. *)
Theorem C8_bulk_generate_needs_contact_email
    (S : Type) (server : forall R, Api.Request R -> S -> Api.Response R * S)
    (s0 : S) (project : ProjectDetail.t)
    (enrichmentMap : gmap string EnrichmentStatusResponse.t)
    (generate : OutreachThread.t -> MessageType.t -> list ProposedSlot.t
                -> option (string * string))
    (store : Backend.Store) (counts : BulkCounts.t)
    (project_id company_id now : string) (ty : MessageType.t)
    (company_ids : list string)
    (Hnone : Backend.usable_email store company_id = None) :
  let step := Backend.bulkStep generate project_id ty now (counts, store)
                company_id in
  let result := fst (Backend.bulkGenerate generate store project_id company_ids
                       ty now) in
  let ids := ProjectCRM.enrichedCompanyIds project enrichmentMap in
  (BulkCounts.skipped (fst step) = (BulkCounts.skipped counts + 1)%Z
   /\ BulkCounts.generated (fst step) = BulkCounts.generated counts
   /\ BulkCounts.errors (fst step) = BulkCounts.errors counts
   /\ Backend.all_messages (snd step) = Backend.all_messages store)
  /\ (BulkCounts.total result = Z.of_nat (length company_ids)
      /\ BulkCounts.total result
         = (BulkCounts.generated result + BulkCounts.skipped result
            + BulkCounts.errors result)%Z)
  /\ (BulkCounts.skipped result
      = Z.of_nat (length (List.filter (Backend.lacks_email store) company_ids))
      /\ (forall t,
            t ∈ Backend.threads
                  (snd (Backend.bulkGenerate generate store project_id
                          company_ids ty now)) ->
            Backend.usable_email store (OutreachThread.company_id t) = None ->
            forall m, m ∈ OutreachThread.messages t ->
                      m ∈ Backend.all_messages store))
  /\ (forall id,
        id ∈ ids <->
        exists c e, c ∈ ProjectDetail.companies project
          /\ ProjectCompanyEntry.company_id c = id
          /\ ProjectCRM.contactEmail enrichmentMap c = Some e /\ e <> "")
  /\ Api.requests
       (Api.trace server (ProjectCRM.handleBulkGenerate project enrichmentMap) s0)
     = match ids with
       | [] => []
       | _ => [Api.Requested
                 (Api.BulkGenerate (ProjectDetail.id project) ids
                    MessageType.initial)]
       end.
Proof.
  intros step result ids. split; [|split; [|split; [|split]]].
  - now apply bulkStep_skips.
  - subst result. unfold Backend.bulkGenerate.
    match goal with
    | |- context [fold_left ?f ?l ?a] =>
        pose proof (bulk_fold_tally generate project_id now ty l a) as [Ht Hs]
    end.
    simpl in Ht, Hs. split; [exact Ht | lia].
  - apply bulkGenerate_skipped.
  - intros id. apply enrichedCompanyIds_spec.
  - apply handleBulkGenerate_requests.
Qed.

Lemma C8_bulk_generate_witness :
  BulkCounts.skipped
    (fst (Backend.bulkStep Sample.generate "p1" MessageType.initial
            "2026-03-09T09:00:00Z"
            ({| BulkCounts.total := 1; BulkCounts.generated := 0;
                BulkCounts.skipped := 0; BulkCounts.errors := 0 |},
             Sample.store []) "c2"))
  = (0 + 1)%Z
  /\ BulkCounts.skipped
       (fst (Backend.bulkGenerate Sample.generate (Sample.store []) "p1"
               ["c1"; "c2"; "c3"] MessageType.initial "2026-03-09T09:00:00Z"))
     = 2%Z.
Proof.
  assert (Hnone : Backend.usable_email (Sample.store []) "c2" = None)
    by (vm_compute; reflexivity).
  pose proof (C8_bulk_generate_needs_contact_email unit Sample.offline
                tt (Sample.project []) ∅ Sample.generate (Sample.store [])
                {| BulkCounts.total := 1; BulkCounts.generated := 0;
                   BulkCounts.skipped := 0; BulkCounts.errors := 0 |}
                "p1" "c2" "2026-03-09T09:00:00Z" MessageType.initial
                ["c1"; "c2"; "c3"] Hnone)
    as ((Hstep & _) & _ & (Hskipped & _) & _).
  split; [exact Hstep|]. rewrite Hskipped. vm_compute. reflexivity.
Defined.

Example bulk_generate_submits_only_companies_with_email :
  Api.requests
    (Api.trace Sample.offline
       (ProjectCRM.handleBulkGenerate
          (Sample.project [Sample.company "c1"; Sample.company "c2";
                           Sample.company "c3"; Sample.company "c4"])
          {[ "c1" := Sample.enrichment (Some "owner@acme.example");
             "c2" := Sample.enrichment None;
             "c4" := Sample.enrichment (Some "") ]}) tt)
  = [Api.Requested (Api.BulkGenerate "p1" ["c1"] MessageType.initial)].
Proof. vm_compute. reflexivity. Qed.

Example bulk_generate_without_emails_sends_nothing :
  Api.trace Sample.offline
    (ProjectCRM.handleBulkGenerate
       (Sample.project [Sample.company "c2"; Sample.company "c3"])
       {[ "c2" := Sample.enrichment None ]}) tt
  = [Api.Performed (Api.SetBulkGenerating true);
     Api.Performed
       (Api.Alert
          "No enriched companies with email addresses. Enrich companies first.");
     Api.Performed (Api.SetBulkGenerating false)].
Proof. vm_compute. reflexivity. Qed.

(** ** The store invariant *)

Section StoreInvariant.
Import Backend.
Variable generate :
  OutreachThread.t -> MessageType.t -> list ProposedSlot.t -> option (string * string).
Variable transport : OutreachThreadMessage.t -> string -> string + (string * string).

(** *** Sequence numbers *)

Lemma max_sequence_nonneg (ms : list OutreachThreadMessage.t) :
  (0 <= max_sequence ms)%Z.
Proof. induction ms; simpl; lia. Qed.

Lemma max_sequence_app (l k : list OutreachThreadMessage.t) :
  max_sequence (l ++ k) = Z.max (max_sequence l) (max_sequence k).
Proof.
  induction l as [|m l IH]; simpl.
  - pose proof (max_sequence_nonneg k). lia.
  - rewrite IH. lia.
Qed.

Lemma in_sequence_nil : in_sequence [].
Proof. intros i m H. discriminate. Qed.

Lemma in_sequence_snoc (ms : list OutreachThreadMessage.t)
    (m : OutreachThreadMessage.t) :
  in_sequence ms ->
  OutreachThreadMessage.sequence m = Z.of_nat (S (length ms)) ->
  in_sequence (ms ++ [m]).
Proof.
  intros Hms Hm i x Hx. apply lookup_snoc_Some in Hx as [[_ Hx] | [-> <-]].
  - now apply Hms.
  - exact Hm.
Qed.

Lemma in_sequence_init (ms : list OutreachThreadMessage.t)
    (m : OutreachThreadMessage.t) :
  in_sequence (ms ++ [m]) -> in_sequence ms.
Proof.
  intros H i x Hx. apply H. rewrite lookup_app_l; [assumption|].
  now apply lookup_lt_Some in Hx.
Qed.

(** In a sequenced thread the highest number is the number of messages. *)
Lemma max_sequence_length (ms : list OutreachThreadMessage.t) :
  in_sequence ms -> max_sequence ms = Z.of_nat (length ms).
Proof.
  induction ms as [|m ms IH] using rev_ind; intros H; [reflexivity|].
  rewrite max_sequence_app, length_app, IH by now apply in_sequence_init in H.
  simpl. rewrite (H (length ms) m) by apply list_lookup_middle, eq_refl. lia.
Qed.

Lemma in_sequence_alter (f : OutreachThreadMessage.t -> OutreachThreadMessage.t)
    (messageId : string) (ms : list OutreachThreadMessage.t) :
  (forall m, OutreachThreadMessage.sequence (f m)
             = OutreachThreadMessage.sequence m) ->
  in_sequence ms -> in_sequence (alter_message f messageId ms).
Proof.
  intros Hf Hms i x. unfold alter_message. rewrite list_lookup_fmap.
  destruct (ms !! i) as [m|] eqn:Hm; [|discriminate].
  simpl. intros [= <-]. destruct (String.eqb _ _); [rewrite Hf|]; now apply Hms.
Qed.

(** *** Threads *)

Lemma well_formed_empty (k : gmap string Contact.t) : well_formed (empty k).
Proof.
  repeat split; simpl; try apply NoDup_nil_2; intros t Ht; inversion Ht.
Qed.

Lemma put_thread_well_formed (s : Store) (t t' : OutreachThread.t) :
  well_formed s -> t ∈ threads s ->
  OutreachThread.id t' = OutreachThread.id t ->
  pair_of t' = pair_of t ->
  in_sequence (OutreachThread.messages t') ->
  well_formed (put_thread s t').
Proof.
  intros (Hids & Hpairs & Hcount & Hseq) Hin Hid Hpair Hms.
  set (g := fun t0 => if String.eqb (OutreachThread.id t0) (OutreachThread.id t')
                      then t' else t0).
  assert (Hg : forall x, x ∈ threads s -> g x = x \/ (x = t /\ g x = t')).
  { intros x Hx. unfold g.
    destruct (String.eqb_spec (OutreachThread.id x) (OutreachThread.id t'))
      as [Heq|]; [right | now left].
    split; [|reflexivity].
    apply (NoDup_fmap_inj_on OutreachThread.id (threads s)); congruence. }
  assert (Hsame : forall {B} (f : OutreachThread.t -> B),
             f t' = f t -> f <$> (g <$> threads s) = f <$> threads s).
  { intros B f Hf. rewrite <- list_fmap_compose. apply list_fmap_ext.
    intros i x Hx%list_elem_of_lookup_2. simpl.
    destruct (Hg x Hx) as [-> | [-> ->]]; auto. }
  unfold well_formed, put_thread; simpl. fold g.
  rewrite !Hsame by assumption.
  repeat split; try assumption.
  - intros u (x & -> & Hx)%list_elem_of_fmap.
    destruct (Hg x Hx) as [-> | [-> ->]]; [auto|]. rewrite Hid. auto.
  - intros u (x & -> & Hx)%list_elem_of_fmap.
    destruct (Hg x Hx) as [-> | [-> ->]]; auto.
Qed.

Lemma bump_well_formed (s : Store) : well_formed s -> well_formed (bump s).
Proof.
  intros (Hids & Hpairs & Hcount & Hseq). repeat split; try assumption.
  simpl. intros t Ht. destruct (Hcount t Ht) as (k & Hk & Heq).
  exists k. split; [lia | assumption].
Qed.

Lemma thread_id_inj (a b : N) :
  "thread-" +:+ pretty a = "thread-" +:+ pretty b -> a = b.
Proof.
  intros H. cbv [String.app] in H. injection H as H.
  now apply (inj pretty) in H.
Qed.

Lemma create_well_formed (s : Store) (project_id company_id : string)
    (contact_id : option string) (now : string) :
  well_formed s ->
  well_formed (snd (create s project_id company_id contact_id now)).
Proof.
  intros Hwf. unfold create.
  destruct (find_pair s project_id company_id) as [t|] eqn:Hfind;
    [exact Hwf|].
  destruct Hwf as (Hids & Hpairs & Hcount & Hseq).
  unfold well_formed; simpl. rewrite !fmap_app. simpl.
  repeat split.
  - apply NoDup_app. split; [assumption|]. split; [|apply NoDup_singleton].
    intros i (t & -> & Ht)%list_elem_of_fmap Hi%list_elem_of_singleton.
    destruct (Hcount t Ht) as (k & Hk & Heq). rewrite Heq in Hi.
    apply thread_id_inj in Hi. lia.
  - apply NoDup_app. split; [assumption|]. split; [|apply NoDup_singleton].
    intros pr (t & -> & Ht)%list_elem_of_fmap Hpr%list_elem_of_singleton.
    pose proof (find_none _ _ Hfind t Ht) as Hp. simpl in Hp.
    unfold pair_of in Hpr. injection Hpr as Hp1 Hp2.
    rewrite Hp1, Hp2, !String.eqb_refl in Hp. discriminate.
  - intros t [Ht | ->%list_elem_of_singleton]%elem_of_app.
    + destruct (Hcount t Ht) as (k & Hk & Heq). exists k. split; [lia | assumption].
    + exists (next_id s). split; [lia | reflexivity].
  - intros t [Ht | ->%list_elem_of_singleton]%elem_of_app;
      [now apply Hseq | apply in_sequence_nil].
Qed.

Lemma draft_well_formed (s : Store) (t : OutreachThread.t) (ty : MessageType.t)
    (slots : list ProposedSlot.t) (now : string) :
  well_formed s -> t ∈ threads s ->
  well_formed (snd (draft generate s t ty slots now)).
Proof.
  intros Hwf Hin. unfold draft.
  destruct (usable_email s _); [|exact Hwf].
  destruct (_ && _); [exact Hwf|].
  destruct (generate t ty slots) as [[subject body]|]; [|exact Hwf].
  simpl. apply bump_well_formed, (put_thread_well_formed s t); auto.
  simpl. destruct Hwf as (_ & _ & _ & Hseq).
  apply in_sequence_snoc; [now apply Hseq|]. simpl.
  rewrite max_sequence_length by now apply Hseq. lia.
Qed.

Lemma generateDraft_well_formed (s : Store) (threadId : string)
    (ty : MessageType.t) (slots : list ProposedSlot.t) (now : string) :
  well_formed s ->
  well_formed (snd (generateDraft generate s threadId ty slots now)).
Proof.
  intros Hwf. unfold generateDraft.
  destruct (find_thread s threadId) as [t|] eqn:Hfind; [|exact Hwf].
  apply draft_well_formed; [assumption|]. now apply find_thread_some in Hfind.
Qed.

Lemma updateMessage_well_formed (s : Store) (messageId : string)
    (subject body_html : option string) :
  well_formed s ->
  well_formed (snd (updateMessage s messageId subject body_html)).
Proof.
  intros Hwf. unfold updateMessage.
  destruct (find_message s messageId) as [[t m]|] eqn:Hfind; [|exact Hwf].
  apply find_message_some in Hfind as (Hin & _ & _).
  destruct (OutreachThreadMessage.status m); try exact Hwf; simpl;
    apply (put_thread_well_formed s t); auto; simpl;
    apply in_sequence_alter; auto; now apply Hwf.
Qed.

Lemma send_well_formed (s : Store) (messageId credential now : string) :
  well_formed s ->
  well_formed (snd (send transport s messageId credential now)).
Proof.
  intros Hwf. unfold send. destruct (negb _); [exact Hwf|].
  destruct (find_message s messageId) as [[t m]|] eqn:Hfind; [|exact Hwf].
  apply find_message_some in Hfind as (Hin & _ & _).
  destruct (MessageStatus.eqb _ _); [exact Hwf|].
  destruct (transport m credential) as [reason | [gm gt]]; simpl;
    apply (put_thread_well_formed s t); auto; simpl;
    apply in_sequence_alter; auto; now apply Hwf.
Qed.

Lemma update_well_formed (s : Store) (threadId : string) (st : ThreadStatus.t) :
  well_formed s -> well_formed (snd (update s threadId st)).
Proof.
  intros Hwf. unfold update.
  destruct (find_thread s threadId) as [t|] eqn:Hfind; [|exact Hwf].
  apply find_thread_some in Hfind as [Hin _].
  destruct (legal _ _); [|exact Hwf]. simpl.
  apply (put_thread_well_formed s t); auto. simpl. now apply Hwf.
Qed.

Lemma bulkStep_well_formed (project_id company_id now : string)
    (ty : MessageType.t) (counts : BulkCounts.t) (s : Store) :
  well_formed s ->
  well_formed (snd (bulkStep generate project_id ty now (counts, s) company_id)).
Proof.
  intros Hwf. unfold bulkStep.
  pose proof (create_well_formed s project_id company_id None now Hwf) as Hwf1.
  pose proof (create_spec s project_id company_id None now) as (_ & _ & Hin & _).
  destruct (create s project_id company_id None now) as [t s1].
  simpl in Hwf1, Hin.
  pose proof (draft_well_formed s1 t ty [] now Hwf1 Hin) as Hwf2.
  destruct (draft generate s1 t ty [] now) as [[m|e] s2]; [|destruct e];
    exact Hwf2.
Qed.

Lemma bulkGenerate_well_formed (s : Store) (project_id : string)
    (ids : list string) (ty : MessageType.t) (now : string) :
  well_formed s ->
  well_formed (snd (bulkGenerate generate s project_id ids ty now)).
Proof.
  unfold bulkGenerate. generalize (Z.of_nat (length ids)). intros total.
  generalize {| BulkCounts.total := total; BulkCounts.generated := 0;
                BulkCounts.skipped := 0; BulkCounts.errors := 0 |}.
  revert s. induction ids as [|id ids IH]; intros s counts Hwf; [exact Hwf|].
  cbn [fold_left].
  pose proof (bulkStep_well_formed project_id id now ty counts s Hwf) as Hstep.
  destruct (bulkStep generate project_id ty now (counts, s) id) as [c1 s1].
  now apply IH.
Qed.

Lemma bulkSend_well_formed (s : Store) (ids : list string)
    (credential now : string) :
  well_formed s -> well_formed (bulkSend transport s ids credential now).
Proof.
  unfold bulkSend. revert s. induction ids as [|id ids IH]; intros s Hwf;
    [exact Hwf|].
  simpl. now apply IH, send_well_formed.
Qed.

Lemma markResponded_well_formed (s : Store) (threadId : string)
    (summary : option string) (now : string) :
  well_formed s -> well_formed (snd (markResponded s threadId summary now)).
Proof.
  intros Hwf. unfold markResponded.
  destruct (find_thread s threadId) as [t|] eqn:Hfind; [|exact Hwf].
  apply find_thread_some in Hfind as [Hin _].
  destruct (OutreachThread.status t); try exact Hwf; simpl;
    apply (put_thread_well_formed s t); auto; simpl; now apply Hwf.
Qed.

(** Every request the client can make leaves the store well formed. *)
Lemma serve_well_formed (now : string) (R : Type) (r : Api.Request R)
    (s : Store) :
  well_formed s -> well_formed (snd (serve generate transport now R r s)).
Proof.
  intros Hwf. destruct r; simpl.
  - pose proof (create_well_formed s project_id company_id None now Hwf).
    now destruct (create s project_id company_id None now).
  - exact Hwf.
  - pose proof (generateDraft_well_formed s threadId message_type [] now Hwf).
    now destruct (generateDraft generate s threadId message_type [] now).
  - pose proof (generateDraft_well_formed s threadId
                  MessageType.scheduling_reply proposed_slots now Hwf).
    unfold generateSchedulingReply.
    now destruct (generateDraft generate s threadId _ proposed_slots now).
  - pose proof (send_well_formed s messageId gmailToken now Hwf).
    now destruct (send transport s messageId gmailToken now).
  - pose proof (update_well_formed s threadId status Hwf).
    now destruct (update s threadId status).
  - pose proof (updateMessage_well_formed s messageId (Some subject)
                  (Some body_html) Hwf).
    now destruct (updateMessage s messageId (Some subject) (Some body_html)).
  - pose proof (bulkGenerate_well_formed s project_id company_ids message_type
                  now Hwf).
    now destruct (bulkGenerate generate s project_id company_ids message_type now).
  - now apply bulkSend_well_formed.
  - pose proof (markResponded_well_formed s threadId response_summary now Hwf).
    now destruct (markResponded s threadId response_summary now).
Qed.

Lemma replay_well_formed (now : string) (calls : list Api.Event) (s : Store) :
  well_formed s -> well_formed (replay generate transport now calls s).
Proof.
  unfold replay. revert s. induction calls as [|ev calls IH]; intros s Hwf;
    [exact Hwf|].
  simpl. apply IH. destruct ev; [now apply serve_well_formed | exact Hwf].
Qed.

End StoreInvariant.

(** ** Thread creation (CompanyDetailPanel.ensureThread) *)

Section Creation.
Import Backend.

Lemma create_again (s : Store) (project_id company_id : string)
    (k1 k2 : option string) (now1 now2 : string) :
  let first := create s project_id company_id k1 now1 in
  create (snd first) project_id company_id k2 now2 = first.
Proof.
  unfold create.
  destruct (find_pair s project_id company_id) as [t|] eqn:Hfind; simpl.
  - now rewrite Hfind.
  - unfold find_pair in *. simpl. rewrite find_app, Hfind. simpl.
    now rewrite !String.eqb_refl.
Qed.

End Creation.

Section EnsureThread.
Import Api CompanyDetailPanel.
Context {S : Type}.
Variable server : forall R, Request R -> S -> Response R * S.

Lemma ensureThread_requests (projectId : string)
    (company : ProjectCompanyEntry.t) (s0 : S) :
  requests (trace server (ensureThread None projectId company) s0)
  = [Requested (CreateThread projectId (ProjectCompanyEntry.company_id company))].
Proof.
  unfold trace, ensureThread, await. simpl.
  destruct (server _ _ s0) as [res s1]. destruct res; reflexivity.
Qed.

End EnsureThread.

(** C1. Thread creation is idempotent.  In the service, creating a thread
    for a (project, company) pair a second time returns the thread of the
    first call and leaves the store as it was, and whatever requests the
    client sends, no two threads of the store share a pair.  In the client,
    [ensureThread] returns the id of the thread it holds without any
    request, and issues exactly one creation request when it holds none;
    run twice against the service without a thread at hand, it gets the
    same thread id both times and the second run adds nothing. *)
Theorem C1_thread_creation_idempotent
    (generate : OutreachThread.t -> MessageType.t -> list ProposedSlot.t
                -> option (string * string))
    (transport : OutreachThreadMessage.t -> string -> string + (string * string))
    (S : Type) (server : forall R, Api.Request R -> S -> Api.Response R * S)
    (s0 : S) (store : Backend.Store) (known : gmap string Contact.t)
    (calls : list Api.Event)
    (project_id company_id : string) (k1 k2 : option string)
    (now now1 now2 : string)
    (held : OutreachThread.t) (company : ProjectCompanyEntry.t) :
  let first := Backend.create store project_id company_id k1 now1 in
  let run1 := Api.run (Backend.serve generate transport now1)
                (CompanyDetailPanel.ensureThread None project_id company) store in
  let run2 := Api.run (Backend.serve generate transport now2)
                (CompanyDetailPanel.ensureThread None project_id company)
                (snd run1) in
  Backend.create (snd first) project_id company_id k2 now2 = first
  /\ NoDup (Backend.pair_of <$>
              Backend.threads
                (Backend.replay generate transport now calls (Backend.empty known)))
  /\ CompanyDetailPanel.ensureThread (Some held) project_id company
     = Api.Ret (OutreachThread.id held)
  /\ Api.requests
       (Api.trace server
          (CompanyDetailPanel.ensureThread None project_id company) s0)
     = [Api.Requested
          (Api.CreateThread project_id (ProjectCompanyEntry.company_id company))]
  /\ (exists t, fst (fst run1) = Api.Returned (OutreachThread.id t)
                /\ t ∈ Backend.threads (snd run1)
                /\ Backend.pair_of t
                   = (project_id, ProjectCompanyEntry.company_id company))
  /\ fst (fst run2) = fst (fst run1)
  /\ snd run2 = snd run1.
Proof.
  intros first run1 run2.
  split; [apply create_again|].
  split; [apply replay_well_formed, well_formed_empty|].
  split; [reflexivity|].
  split; [apply ensureThread_requests|].
  subst run1 run2. unfold CompanyDetailPanel.ensureThread, Api.await. simpl.
  pose proof (create_again store project_id
                (ProjectCompanyEntry.company_id company) None None now1 now2)
    as Hagain.
  pose proof (create_spec store project_id
                (ProjectCompanyEntry.company_id company) None now1)
    as (Hp & Hc & Hin & _).
  destruct (Backend.create store project_id
              (ProjectCompanyEntry.company_id company) None now1) as [t s1].
  simpl in *. rewrite Hagain. simpl.
  split; [|split; reflexivity].
  exists t. unfold Backend.pair_of. rewrite Hp, Hc. auto.
Qed.

Example second_creation_adds_no_thread :
  let serve := Backend.serve Sample.generate Sample.transport
                 "2026-03-02T09:00:00Z" in
  let ensure := CompanyDetailPanel.ensureThread None "p1" (Sample.company "c1") in
  let run1 := Api.run serve ensure (Backend.empty Sample.contacts) in
  let run2 := Api.run serve ensure (snd run1) in
  fst (fst run1) = Api.Returned "thread-0"
  /\ fst (fst run2) = Api.Returned "thread-0"
  /\ length (Backend.threads (snd run2)) = 1.
Proof. vm_compute. repeat split. Qed.

(** ** Message sequence numbers *)

Section Latest.
Import Backend CompanyDetailPanel.

(** Under the sequence invariant the last message of the list is the one
    with the highest number. *)
Lemma latestMessage_is_highest (t : OutreachThread.t)
    (m : OutreachThreadMessage.t) :
  in_sequence (OutreachThread.messages t) ->
  latestMessage (Some t) = Some m ->
  OutreachThreadMessage.sequence m
  = Z.of_nat (length (OutreachThread.messages t))
  /\ forall i m', OutreachThread.messages t !! i = Some m' ->
       (OutreachThreadMessage.sequence m' <= OutreachThreadMessage.sequence m)%Z
       /\ (OutreachThreadMessage.sequence m' = OutreachThreadMessage.sequence m
           -> m' = m).
Proof.
  intros Hseq Hlast. simpl in Hlast. rewrite last_lookup in Hlast.
  pose proof (lookup_lt_Some _ _ _ Hlast) as Hlen.
  pose proof (Hseq _ _ Hlast) as Hm.
  split; [rewrite Hm; lia|].
  intros i m' Hi. pose proof (lookup_lt_Some _ _ _ Hi).
  rewrite Hm, (Hseq _ _ Hi). split; [lia|].
  intros Heq. assert (i = pred (length (OutreachThread.messages t))) as -> by lia.
  congruence.
Qed.

End Latest.

(** C2. In every thread the service can hold, whatever requests were sent,
    the messages are listed in the order of their [sequence] and the
    numbers are 1, 2, 3, ... without a gap, hence strictly increasing; the
    last element of [thread.messages], which the client takes as the latest
    message, is the message with the highest sequence number. *)
Theorem C2_messages_in_sequence
    (generate : OutreachThread.t -> MessageType.t -> list ProposedSlot.t
                -> option (string * string))
    (transport : OutreachThreadMessage.t -> string -> string + (string * string))
    (now : string) (known : gmap string Contact.t) (calls : list Api.Event)
    (t : OutreachThread.t) (latest : OutreachThreadMessage.t)
    (Ht : t ∈ Backend.threads
              (Backend.replay generate transport now calls (Backend.empty known)))
    (Hlatest : CompanyDetailPanel.latestMessage (Some t) = Some latest) :
  (forall i m, OutreachThread.messages t !! i = Some m ->
     OutreachThreadMessage.sequence m = Z.of_nat (i + 1))
  /\ (forall i j mi mj,
        OutreachThread.messages t !! i = Some mi ->
        OutreachThread.messages t !! j = Some mj ->
        i < j ->
        (OutreachThreadMessage.sequence mi < OutreachThreadMessage.sequence mj)%Z)
  /\ OutreachThreadMessage.sequence latest
     = Z.of_nat (length (OutreachThread.messages t))
  /\ (forall i m, OutreachThread.messages t !! i = Some m ->
        (OutreachThreadMessage.sequence m
         <= OutreachThreadMessage.sequence latest)%Z
        /\ (OutreachThreadMessage.sequence m
            = OutreachThreadMessage.sequence latest -> m = latest)).
Proof.
  assert (Hseq : Backend.in_sequence (OutreachThread.messages t)).
  { pose proof (replay_well_formed generate transport now calls _
                  (well_formed_empty known)) as (_ & _ & _ & H).
    now apply H. }
  split; [intros i m Hi; rewrite (Hseq _ _ Hi); lia|].
  split.
  { intros i j mi mj Hi Hj Hij. rewrite (Hseq _ _ Hi), (Hseq _ _ Hj). lia. }
  now apply latestMessage_is_highest.
Qed.

Lemma C2_messages_in_sequence_witness :
  Sample.regenerated
    ∈ Backend.threads
        (Backend.replay Sample.generate Sample.transport "2026-03-02T09:00:00Z"
           Sample.regenerate_once (Backend.empty Sample.contacts))
  /\ OutreachThreadMessage.sequence Sample.second_draft = 2%Z.
Proof.
  assert (Ht : Sample.regenerated
               ∈ Backend.threads
                   (Backend.replay Sample.generate Sample.transport
                      "2026-03-02T09:00:00Z" Sample.regenerate_once
                      (Backend.empty Sample.contacts))).
  { vm_compute. left. }
  split; [exact Ht|].
  exact (proj1 (proj2 (proj2
           (C2_messages_in_sequence Sample.generate Sample.transport
              "2026-03-02T09:00:00Z" Sample.contacts Sample.regenerate_once
              Sample.regenerated Sample.second_draft Ht eq_refl)))).
Defined.

(** ** Editing and sending drafts *)

Section Editing.
Import Backend.

Lemma updateMessage_sent (s : Store) (messageId : string) (t : OutreachThread.t)
    (m : OutreachThreadMessage.t) (subject body_html : option string) :
  find_message s messageId = Some (t, m) ->
  OutreachThreadMessage.status m = MessageStatus.sent ->
  updateMessage s messageId subject body_html = (Failed ImmutableStateError, s).
Proof. intros Hfind Hsent. unfold updateMessage. now rewrite Hfind, Hsent. Qed.

Lemma updateMessage_done (s : Store) (messageId : string)
    (subject body_html : option string) (m' : OutreachThreadMessage.t) :
  fst (updateMessage s messageId subject body_html) = Done m' ->
  exists t m, find_message s messageId = Some (t, m)
    /\ (OutreachThreadMessage.status m = MessageStatus.draft
        \/ OutreachThreadMessage.status m = MessageStatus.approved).
Proof.
  unfold updateMessage.
  destruct (find_message s messageId) as [[t m]|]; [|discriminate].
  destruct (OutreachThreadMessage.status m) eqn:Hst; try discriminate;
    intros _; exists t, m; auto.
Qed.

Lemma isSendable_spec (m : OutreachThreadMessage.t) :
  DraftsGrid.isSendable m = true <->
  OutreachThreadMessage.status m = MessageStatus.draft
  \/ OutreachThreadMessage.status m = MessageStatus.approved.
Proof.
  unfold DraftsGrid.isSendable.
  destruct (OutreachThreadMessage.status m); simpl; split; intros H; auto;
    try discriminate; destruct H; discriminate.
Qed.

Lemma selectAll_sendable (rs : list DraftsGrid.Row) (selected : gset string)
    (id : string) :
  id ∈ DraftsGrid.selectAll rs selected ->
  exists r, r ∈ rs
    /\ OutreachThreadMessage.id (DraftsGrid.message r) = id
    /\ DraftsGrid.isSendable (DraftsGrid.message r) = true.
Proof.
  unfold DraftsGrid.selectAll. destruct (_ =? _)%nat; [set_solver|].
  rewrite elem_of_list_to_set, list_elem_of_In, in_map_iff.
  intros (r & Hid & Hr). apply filter_In in Hr as [Hr Hp].
  exists r. now rewrite list_elem_of_In.
Qed.

End Editing.

(** What does hold of a sent message.  The service refuses to edit it
    with [ImmutableStateError] and changes nothing, and an edit succeeds
    only on a message that is [draft] or [approved].  In the client, the
    draft editor given a sent message disables the subject input, shows
    neither the edit switch nor the editable body, and hides Save,
    Regenerate and Send; the drafts grid shows a row's selection box and
    edit button exactly for draft and approved messages, and select-all
    selects such messages only. *)
Lemma sent_message_is_immutable
    (store : Backend.Store) (messageId : string) (t : OutreachThread.t)
    (m : OutreachThreadMessage.t) (subject body_html : option string)
    (Hfind : Backend.find_message store messageId = Some (t, m))
    (Hsent : OutreachThreadMessage.status m = MessageStatus.sent) :
  Backend.updateMessage store messageId subject body_html
  = (Backend.Failed Backend.ImmutableStateError, store)
  /\ (forall s id sub body m',
        fst (Backend.updateMessage s id sub body) = Backend.Done m' ->
        exists t0 m0, Backend.find_message s id = Some (t0, m0)
          /\ (OutreachThreadMessage.status m0 = MessageStatus.draft
              \/ OutreachThreadMessage.status m0 = MessageStatus.approved))
  /\ (forall isGenerating hasContact editMode dirty,
        let v := EmailDraftEditor.render (Some m) isGenerating hasContact
                   editMode dirty in
        (EmailDraftEditor.showSubject v = true ->
         EmailDraftEditor.subjectDisabled v = true)
        /\ EmailDraftEditor.showEditToggle v = false
        /\ EmailDraftEditor.showBodyTextarea v = false
        /\ EmailDraftEditor.showSave v = false
        /\ EmailDraftEditor.showRegenerate v = false
        /\ EmailDraftEditor.showSend v = false)
  /\ (forall st r,
        (DraftsGrid.showSelect (DraftsGrid.rowControls st r) = true <->
         OutreachThreadMessage.status (DraftsGrid.message r) = MessageStatus.draft
         \/ OutreachThreadMessage.status (DraftsGrid.message r)
            = MessageStatus.approved)
        /\ DraftsGrid.showEdit (DraftsGrid.rowControls st r)
           = DraftsGrid.showSelect (DraftsGrid.rowControls st r))
  /\ (forall rs selected id,
        id ∈ DraftsGrid.selectAll rs selected ->
        exists r, r ∈ rs
          /\ OutreachThreadMessage.id (DraftsGrid.message r) = id
          /\ (OutreachThreadMessage.status (DraftsGrid.message r)
              = MessageStatus.draft
              \/ OutreachThreadMessage.status (DraftsGrid.message r)
                 = MessageStatus.approved)).
Proof.
  split; [now apply updateMessage_sent with t m|].
  split; [intros s id sub body m'; apply updateMessage_done|].
  split.
  { intros isGenerating hasContact editMode dirty v. subst v.
    unfold EmailDraftEditor.render. rewrite Hsent.
    destruct isGenerating; simpl; rewrite ?andb_false_r; auto 10. }
  split.
  { intros st r. split; [apply isSendable_spec | reflexivity]. }
  intros rs selected id (r & Hr & Hid & Hp)%selectAll_sendable.
  exists r. rewrite <- isSendable_spec. auto.
Qed.

Example edit_of_a_sent_message_is_refused :
  Backend.updateMessage (Sample.store [Sample.contacted]) "m1"
    (Some "Changed my mind") None
  = (Backend.Failed Backend.ImmutableStateError, Sample.store [Sample.contacted]).
Proof.
  refine (proj1 (sent_message_is_immutable (Sample.store [Sample.contacted])
                   "m1" Sample.contacted
                   (Sample.message "m1" 1 MessageType.initial MessageStatus.sent)
                   (Some "Changed my mind") None _ _)).
  - reflexivity.
  - reflexivity.
Qed.

(** C4. The drafts grid does not keep editing to draft and approved
    messages.  A row shows its selection box and its edit button exactly
    when its message is draft or approved; but once the edit button of a
    message has opened the edit form, the form with "Save Changes" is shown
    below the row of that message whatever its status has become, since it
    is rendered on [editingId === message.id] alone.  Opening a preview
    closes the form, but a bulk send calls no setter but the sending flag
    and the selection and then the refresh, so it leaves [editingId] in
    place, and "Save Changes" sends a PATCH for the message under edit,
    sent or not. *)
Theorem C4_grid_edit_form_ignores_status
    (S : Type) (server : forall R, Api.Request R -> S -> Api.Response R * S)
    (s : S) (st : DraftsGrid.Editing) (edited shown : DraftsGrid.Row)
    (selected : gset string) (session : option Session.t)
    (subject body : string) :
  let id := OutreachThreadMessage.id (DraftsGrid.message edited) in
  let opened := DraftsGrid.clickEdit (DraftsGrid.clickCancel st)
                  (DraftsGrid.message edited) in
  let row := DraftsGrid.rowControls opened shown in
  DraftsGrid.editingId opened = Some id
  /\ DraftsGrid.showSelect row = DraftsGrid.isSendable (DraftsGrid.message shown)
  /\ DraftsGrid.showEdit row = DraftsGrid.isSendable (DraftsGrid.message shown)
  /\ DraftsGrid.showEditForm row
     = String.eqb id (OutreachThreadMessage.id (DraftsGrid.message shown))
  /\ (OutreachThreadMessage.id (DraftsGrid.message shown) = id ->
      OutreachThreadMessage.status (DraftsGrid.message shown) = MessageStatus.sent ->
      DraftsGrid.showEdit row = false /\ DraftsGrid.showEditForm row = true)
  /\ (forall m, DraftsGrid.editingId (DraftsGrid.clickPreview opened m) = None)
  /\ (forall ev,
        ev ∈ Api.trace server (DraftsGrid.handleBulkSend selected session) s ->
        Api.is_request ev = true
        \/ ev = Api.Performed (Api.SetSending true)
        \/ ev = Api.Performed (Api.SetSending false)
        \/ ev = Api.Performed Api.OnRefresh)
  /\ Api.requests
       (Api.trace server
          (DraftsGrid.handleSaveEdit (DraftsGrid.editingId opened) subject body)
          s)
     = (if Js.truthy id then [Api.Requested (Api.PatchMessage id subject body)]
        else []).
Proof.
  intros id opened row. subst opened row. unfold DraftsGrid.clickEdit. simpl.
  split; [reflexivity|]. split; [reflexivity|]. split; [reflexivity|].
  split; [reflexivity|]. split; [|split; [reflexivity|split]].
  - intros Hid Hsent. unfold DraftsGrid.isSendable. rewrite Hsent, Hid.
    split; [reflexivity | apply String.eqb_refl].
  - intros ev. unfold Api.trace, DraftsGrid.handleBulkSend.
    destruct session as [sess|]; [|intros H; inversion H].
    destruct (size selected =? 0)%nat; [intros H; inversion H|]. simpl.
    destruct (server _ _ s) as [res s1]. destruct res as [[] | detail |]; simpl;
      intros H; repeat (apply elem_of_cons in H as [-> | H]; [auto|]);
      inversion H.
  - unfold Api.trace, DraftsGrid.handleSaveEdit. fold id.
    destruct (Js.truthy id); simpl; [|reflexivity].
    destruct (server _ _ s) as [res s1]. now destruct res.
Qed.

(** The grid after a bulk send of the message under edit: the row of the
    message, now sent, has neither selection box nor edit button, yet the
    edit form is open, and "Save Changes" sends a PATCH that the service
    refuses while the grid closes the form as after a save. *)
Example grid_offers_save_on_a_message_it_just_sent :
  let serve := Backend.serve Sample.generate Sample.transport
                 "2026-03-10T09:00:00Z" in
  let before := Sample.store [Sample.followed_up] in
  let editing :=
    DraftsGrid.clickEdit DraftsGrid.initialEditing
      (Sample.message "m2" 2 MessageType.follow_up MessageStatus.draft) in
  let selected := DraftsGrid.toggleSelect ∅ "m2" in
  let after :=
    snd (Api.run serve
           (DraftsGrid.handleBulkSend selected (Some Sample.session)) before) in
  let rows := DraftsGrid.rows (Backend.threads after) DraftsGrid.all in
  let save :=
    Api.run serve
      (DraftsGrid.handleSaveEdit (DraftsGrid.editingId editing)
         "Second thoughts" "<p>Wait</p>") after in
  map (fun r =>
         (OutreachThreadMessage.id (DraftsGrid.message r),
          OutreachThreadMessage.status (DraftsGrid.message r),
          DraftsGrid.showEdit (DraftsGrid.rowControls editing r),
          DraftsGrid.showEditForm (DraftsGrid.rowControls editing r))) rows
  = [ ("m1", MessageStatus.sent, false, false);
      ("m2", MessageStatus.sent, false, true) ]
  /\ save
     = (Api.Returned None,
        [ Api.Requested (Api.PatchMessage "m2" "Second thoughts" "<p>Wait</p>");
          Api.Performed Api.OnRefresh ],
        after).
Proof. split; vm_compute; reflexivity. Qed.

Example draft_is_editable :
  let v := EmailDraftEditor.render (Some Sample.second_draft) false true true true in
  EmailDraftEditor.subjectDisabled v = false
  /\ EmailDraftEditor.showBodyTextarea v = true
  /\ EmailDraftEditor.showSave v = true
  /\ EmailDraftEditor.showSend v = true.
Proof. repeat split. Qed.

(** ** Latest draft wins *)

Section LatestDraft.
Import Backend CompanyDetailPanel.
Context {A : Type}.

Lemma find_split (p : A -> bool) (l : list A) (x : A) :
  Js.find p l = Some x ->
  exists l1 l2 : list A, l = (l1 ++ x :: l2)%list /\ p x = true
                /\ forall y, y ∈ l1 -> p y = false.
Proof.
  induction l as [|a l IH]; simpl; [discriminate|].
  destruct (p a) eqn:Ha.
  - intros [= ->]. exists [], l. repeat split; auto. intros y Hy. inversion Hy.
  - intros (l1 & l2 & -> & Hx & Hl1)%IH. exists (a :: l1), l2.
    repeat split; auto. intros y [-> | Hy]%elem_of_cons; auto.
Qed.

Lemma findLast_split (p : A -> bool) (l : list A) (x : A) :
  Js.findLast p l = Some x ->
  exists l1 l2 : list A, l = (l1 ++ x :: l2)%list /\ p x = true
                /\ forall y, y ∈ l2 -> p y = false.
Proof.
  unfold Js.findLast. intros (r1 & r2 & Hrev & Hx & Hr1)%find_split.
  exists (rev r2), (rev r1). repeat split; auto.
  - rewrite <- (rev_involutive l), Hrev, rev_app_distr. simpl.
    now rewrite <- app_assoc.
  - intros y Hy. apply Hr1. apply list_elem_of_In.
    rewrite in_rev. now apply list_elem_of_In.
Qed.

End LatestDraft.

(** What the editor shows is the latest draft: under the sequence
    invariant, the draft it finds has the highest number among the
    thread's drafts. *)
Lemma editor_shows_latest_draft (t : OutreachThread.t)
    (d : OutreachThreadMessage.t) :
  Backend.in_sequence (OutreachThread.messages t) ->
  Js.findLast
    (fun m => MessageStatus.eqb (OutreachThreadMessage.status m)
                MessageStatus.draft)
    (OutreachThread.messages t) = Some d ->
  CompanyDetailPanel.editorMessage (Some t) = Some d
  /\ OutreachThreadMessage.status d = MessageStatus.draft
  /\ forall i m, OutreachThread.messages t !! i = Some m ->
       OutreachThreadMessage.status m = MessageStatus.draft ->
       (OutreachThreadMessage.sequence m <= OutreachThreadMessage.sequence d)%Z.
Proof.
  intros Hseq Hfind.
  split; [unfold CompanyDetailPanel.editorMessage; simpl; now rewrite Hfind|].
  apply findLast_split in Hfind as (l1 & l2 & Hms & Hd & Hl2).
  split; [now destruct (OutreachThreadMessage.status d)|].
  intros i m Hi Hm.
  rewrite (Hseq _ _ Hi), (Hseq (length l1) d)
    by (rewrite Hms; apply list_lookup_middle, eq_refl).
  destruct (Nat.le_gt_cases i (length l1)) as [|Hgt]; [lia|]. exfalso.
  rewrite Hms in Hi. rewrite lookup_app_r in Hi by lia.
  destruct (i - length l1) as [|j] eqn:Hj; [lia|]. simpl in Hi.
  apply list_elem_of_lookup_2, Hl2 in Hi. now rewrite Hm in Hi.
Qed.

(** C5. After one regeneration the thread holds two drafts.  The editor
    shows the second, the highest-sequence draft; the Send button of that
    editor sends the first, because [handleSendMessage] takes the first
    message of type [initial] before anything else. *)
Theorem C5_send_takes_first_initial_message :
  Sample.regenerated
    ∈ Backend.threads
        (Backend.replay Sample.generate Sample.transport "2026-03-02T09:00:00Z"
           Sample.regenerate_once (Backend.empty Sample.contacts))
  /\ CompanyDetailPanel.editorMessage (Some Sample.regenerated)
     = Some Sample.second_draft
  /\ CompanyDetailPanel.sendTarget (Some Sample.regenerated)
     = Some Sample.first_draft
  /\ Api.requests
       (Api.trace Sample.offline
          (CompanyDetailPanel.handleSendMessage (Some Sample.regenerated)
             (Some Sample.session)) tt)
     = [Api.Requested (Api.SendMessage "msg-1" "ya29.token")]
  /\ OutreachThreadMessage.status Sample.second_draft = MessageStatus.draft
  /\ (OutreachThreadMessage.sequence Sample.first_draft
      < OutreachThreadMessage.sequence Sample.second_draft)%Z.
Proof.
  split; [vm_compute; left|].
  repeat split.
Qed.

Example send_resends_the_sent_initial_message :
  CompanyDetailPanel.editorMessage (Some Sample.followed_up)
  = Some (Sample.message "m2" 2 MessageType.follow_up MessageStatus.draft)
  /\ CompanyDetailPanel.sendTarget (Some Sample.followed_up)
     = Some (Sample.message "m1" 1 MessageType.initial MessageStatus.sent).
Proof. split; reflexivity. Qed.

(** ** The end-to-end scenario *)

Example scenario_reaches_meeting_scheduled :
  let serve := Backend.serve Sample.generate Sample.transport
                 "2026-03-02T09:00:00Z" in
  let before := Backend.replay Sample.generate Sample.transport
                  "2026-03-02T09:00:00Z" Sample.until_reply
                  (Backend.empty Sample.contacts) in
  let thread := default Sample.contacted (Backend.find_thread before "thread-0") in
  let reply := snd <$> Backend.find_message before "msg-2" in
  let after := snd (Api.run serve
                      (SchedulingModal.handleSend thread reply (Some Sample.session))
                      before) in
  OutreachThread.status thread = ThreadStatus.responded
  /\ OutreachThreadMessage.sequence <$> OutreachThread.messages thread = [1; 2]%Z
  /\ OutreachThreadMessage.status <$> OutreachThread.messages thread
     = [MessageStatus.sent; MessageStatus.draft]
  /\ (t ← Backend.find_thread after "thread-0";
      Some (OutreachThread.status t,
            OutreachThreadMessage.status <$> OutreachThread.messages t))
     = Some (ThreadStatus.meeting_scheduled,
             [MessageStatus.sent; MessageStatus.sent]).
Proof. vm_compute. repeat split. Qed.

(** The detail panel's "Draft Scheduling Reply" button asks the drafter
    for a scheduling reply without proposing slots; the service refuses. *)
Example detail_panel_scheduling_reply_is_refused :
  let before := Backend.replay Sample.generate Sample.transport
                  "2026-03-02T09:00:00Z"
                  [ Api.Requested (Api.CreateThread "p1" "c1") ]
                  (Backend.empty Sample.contacts) in
  Api.run (Backend.serve Sample.generate Sample.transport "2026-03-02T09:00:00Z")
    (CompanyDetailPanel.handleGenerateDraft
       (Backend.find_thread before "thread-0") "p1" (Sample.company "c1")
       MessageType.scheduling_reply) before
  = (Api.Returned tt,
     [ Api.Performed (Api.SetGenerating true);
       Api.Performed (Api.SetGenError None);
       Api.Requested (Api.GenerateDraft "thread-0" MessageType.scheduling_reply);
       Api.Performed (Api.SetGenError (Some "Request failed"));
       Api.Performed (Api.SetGenerating false) ],
     before).
Proof. vm_compute. reflexivity. Qed.

(** C3. A scheduling reply can be requested without any proposed slot.
    The scheduling modal guards its request, sending none while fewer than
    2 of its slots are dated.  The detail panel does not: its "Draft
    Scheduling Reply" button, shown exactly for a thread that is
    [responded], always posts a generation request of type
    [scheduling_reply] for the thread it holds, a request that has no place
    for slots, and reloads the thread if the server accepts it. *)
Theorem C3_detail_panel_requests_reply_without_slots
    (S : Type) (server : forall R, Api.Request R -> S -> Api.Response R * S)
    (s : S) (formatSlotLabel : string -> string -> string)
    (thread : OutreachThread.t) (projectId : string)
    (company : ProjectCompanyEntry.t)
    (slots : list SchedulingModal.Slot) (assistantName : string) :
  let request :=
    Api.GenerateDraft (OutreachThread.id thread) MessageType.scheduling_reply in
  let valid := SchedulingModal.validSlots formatSlotLabel slots in
  (CompanyDetailPanel.showSchedulingReply (Some thread) = true
   <-> OutreachThread.status thread = ThreadStatus.responded)
  /\ Api.requests
       (Api.trace server
          (CompanyDetailPanel.clickSchedulingReply (Some thread) projectId
             company) s)
     = Api.Requested request ::
       match fst (server _ request s) with
       | Api.Ok _ => [Api.Requested (Api.GetThread (OutreachThread.id thread))]
       | _ => []
       end
  /\ Api.requests
       (Api.trace server
          (SchedulingModal.handleGenerate formatSlotLabel thread slots
             assistantName) s)
     = (if (length valid <? 2)%nat then []
        else [Api.Requested
                (Api.GenerateSchedulingReply (OutreachThread.id thread) valid
                   (if Js.truthy assistantName then Some assistantName
                    else None))]).
Proof.
  intros request valid. split; [|split].
  - simpl. destruct (OutreachThread.status thread); simpl;
      split; congruence.
  - unfold Api.trace, CompanyDetailPanel.clickSchedulingReply,
      CompanyDetailPanel.handleGenerateDraft. simpl. fold request.
    destruct (server _ request s) as [res s1]. destruct res as [m | detail |];
      simpl; [|reflexivity..].
    destruct (server _ (Api.GetThread (OutreachThread.id thread)) s1)
      as [res' s2]. now destruct res'.
  - apply handleGenerate_requests.
Qed.

(** * Further properties of the components *)

(** ** Handlers: what is requested, and what is always cleaned up *)

Section Handlers.
Import Api.
Context {S : Type}.
Variable server : forall R, Request R -> S -> Response R * S.

(** [finally] appends its effect to every run, thrown or returned. *)
Lemma run_finally {A : Type} (p : Prog A) (e : Effect) (s : S) :
  run server (finally p e) s
  = (fst (fst (run server p s)),
     (snd (fst (run server p s)) ++ [Performed e])%list,
     snd (run server p s)).
Proof.
  revert s. induction p as [a | m | e' k IH | R r k IH]; intros s; simpl.
  - reflexivity.
  - reflexivity.
  - rewrite IH. now destruct (run server k s) as [[o tr] s'].
  - destruct (server R r s) as [res s1]. rewrite IH.
    now destruct (run server (k res) s1) as [[o tr] s'].
Qed.

(** X1. [handleGenerateDraft] never throws and always clears the
    generating flag it set.  It creates the thread first only when none is
    held, asks for a draft only once a thread id is known (never after a
    failed creation), and reloads the thread only after a successful
    generation. *)
Theorem X1_handleGenerateDraft_requests (thread : option OutreachThread.t)
    (projectId : string) (company : ProjectCompanyEntry.t)
    (ty : MessageType.t) (s : S) :
  let r := run server
             (CompanyDetailPanel.handleGenerateDraft thread projectId company ty)
             s in
  let tr := snd (fst r) in
  let generate id s1 :=
    Requested (GenerateDraft id ty) ::
    match fst (server _ (GenerateDraft id ty) s1) with
    | Ok _ => [Requested (GetThread id)]
    | _ => []
    end in
  fst (fst r) = Returned tt
  /\ head tr = Some (Performed (SetGenerating true))
  /\ last tr = Some (Performed (SetGenerating false))
  /\ requests tr
     = match thread with
       | Some t => generate (OutreachThread.id t) s
       | None =>
           Requested (CreateThread projectId
                        (ProjectCompanyEntry.company_id company)) ::
           match server _ (CreateThread projectId
                             (ProjectCompanyEntry.company_id company)) s with
           | (Ok created, s1) => generate (OutreachThread.id created) s1
           | _ => []
           end
       end.
Proof.
  unfold CompanyDetailPanel.handleGenerateDraft,
    CompanyDetailPanel.ensureThread, await.
  destruct thread as [t|]; simpl.
  - destruct (server _ (GenerateDraft (OutreachThread.id t) ty) s) as [res s1].
    destruct res; simpl; auto.
    destruct (server _ (GetThread (OutreachThread.id t)) s1) as [res2 s2].
    destruct res2; simpl; auto.
  - destruct (server _ (CreateThread projectId
                          (ProjectCompanyEntry.company_id company)) s)
      as [res s1].
    destruct res as [created | detail |]; simpl; auto.
    destruct (server _ (GenerateDraft (OutreachThread.id created) ty) s1)
      as [res2 s2].
    destruct res2; simpl; auto.
    destruct (server _ (GetThread (OutreachThread.id created)) s2) as [res3 s3].
    destruct res3; simpl; auto.
Qed.

(** X2. The detail panel's [handleSendMessage] does nothing at all without
    a message or without a session.  Otherwise it posts one send request,
    reloads the thread only after a successful send, hands the reloaded
    thread on only when the reload succeeded, reports nothing on an error
    response, and clears the sending flag in every case, also when a
    request is rejected. *)
Theorem X2_handleSendMessage_trace (thread : option OutreachThread.t)
    (session : option Session.t) (s : S) :
  let r := run server (CompanyDetailPanel.handleSendMessage thread session) s in
  match thread, CompanyDetailPanel.sendTarget thread, session with
  | Some t, Some msg, Some sess =>
      let send := SendMessage (OutreachThreadMessage.id msg)
                    (Session.token sess) in
      snd (fst r)
      = (Performed (SetSending true) :: Requested send ::
         match server _ send s with
         | (Ok _, s1) =>
             Requested (GetThread (OutreachThread.id t)) ::
             match fst (server _ (GetThread (OutreachThread.id t)) s1) with
             | Ok t' => [Performed (OnThreadUpdated t')]
             | _ => []
             end
         | _ => []
         end ++ [Performed (SetSending false)])%list
  | _, _, _ => r = (Returned tt, [], s)
  end.
Proof.
  unfold CompanyDetailPanel.handleSendMessage.
  destruct thread as [t|]; [|reflexivity].
  destruct (CompanyDetailPanel.sendTarget (Some t)) as [msg|]; [|reflexivity].
  destruct session as [sess|]; [|reflexivity]. simpl.
  destruct (server _ _ s) as [res s1]. destruct res as [[] | detail |]; simpl;
    try reflexivity.
  destruct (server _ _ s1) as [res2 s2]. destruct res2; reflexivity.
Qed.

(** X3. [handleBulkGenerate] always clears the bulk-generating flag.  With
    no qualifying company it alerts and nothing else; otherwise it posts
    one bulk-generate request for message type [initial] and asks for the
    threads to be reloaded after any response, successful or not, and
    throws only when the request itself is rejected. *)
Theorem X3_handleBulkGenerate_trace (project : ProjectDetail.t)
    (enrichmentMap : gmap string EnrichmentStatusResponse.t) (s : S) :
  let ids := ProjectCRM.enrichedCompanyIds project enrichmentMap in
  let request := BulkGenerate (ProjectDetail.id project) ids
                   MessageType.initial in
  let r := run server (ProjectCRM.handleBulkGenerate project enrichmentMap) s in
  snd (fst r)
  = (Performed (SetBulkGenerating true) ::
     match ids with
     | [] => [Performed (Alert
                "No enriched companies with email addresses. Enrich companies first.")]
     | _ => Requested request ::
            match fst (server _ request s) with
            | Rejected => []
            | _ => [Performed OnThreadsChanged]
            end
     end ++ [Performed (SetBulkGenerating false)])%list
  /\ ((exists m, fst (fst r) = Thrown m)
      <-> ids <> [] /\ fst (server _ request s) = Rejected).
Proof.
  intros ids request r. subst r request.
  unfold ProjectCRM.handleBulkGenerate. fold ids.
  destruct ids as [|id ids]; simpl.
  - split; [reflexivity|]. split; [intros [m H]; discriminate | intros [H _]; congruence].
  - destruct (server _ _ s) as [res s1]. destruct res as [body | detail |];
      simpl; (split; [reflexivity|]).
    + split; [intros [m H]; discriminate | intros [_ H]; discriminate].
    + split; [intros [m H]; discriminate | intros [_ H]; discriminate].
    + split; [intros _; split; [discriminate | reflexivity] | eauto].
Qed.

(** X4. [handleBulkSend] sends nothing without a session or with an empty
    selection and leaves the selection as it is.  Otherwise it posts one
    bulk-send request carrying exactly the selected ids, each once, with
    the session's email as sender; the selection is emptied and the grid
    refreshed only after a successful response, and kept on an error
    response. *)
Theorem X4_handleBulkSend_trace (selected : gset string)
    (session : option Session.t) (s : S) :
  let r := run server (DraftsGrid.handleBulkSend selected session) s in
  match session with
  | Some sess =>
      if decide (selected = ∅) then r = (Returned selected, [], s)
      else
        let request :=
          BulkSend (elements selected) (Session.email (Session.user sess))
            (Session.token sess) in
        requests (snd (fst r)) = [Requested request]
        /\ NoDup (elements selected)
        /\ (forall id, id ∈ elements selected <-> id ∈ selected)
        /\ last (snd (fst r)) = Some (Performed (SetSending false))
        /\ match fst (server _ request s) with
           | Ok _ => fst (fst r) = Returned ∅
                     /\ Performed OnRefresh ∈ snd (fst r)
           | NotOk _ => fst (fst r) = Returned selected
                        /\ Performed OnRefresh ∉ snd (fst r)
           | Rejected => (exists m, fst (fst r) = Thrown m)
                         /\ Performed OnRefresh ∉ snd (fst r)
           end
  | None => r = (Returned selected, [], s)
  end.
Proof.
  unfold DraftsGrid.handleBulkSend.
  destruct session as [sess|]; [|reflexivity].
  destruct (decide (selected = ∅)) as [-> | Hne]; [reflexivity|].
  assert (size selected <> 0) as Hsize by (now intros ?%size_empty_inv%leibniz_equiv).
  destruct (Nat.eqb_spec (size selected) 0); [contradiction|]. simpl.
  split.
  { destruct (server _ _ s) as [res s1]. destruct res as [[] | detail |];
      reflexivity. }
  split; [apply NoDup_elements|].
  split; [intros id; apply elem_of_elements|].
  destruct (server _ _ s) as [res s1]. destruct res as [[] | detail |]; simpl.
  - split; [reflexivity|]. split; [reflexivity|]. set_solver.
  - split; [reflexivity|]. split; [reflexivity|].
    intros H. repeat (apply elem_of_cons in H as [H | H]; [discriminate|]).
    inversion H.
  - split; [reflexivity|]. split; [eauto|].
    intros H. repeat (apply elem_of_cons in H as [H | H]; [discriminate|]).
    inversion H.
Qed.

(** X5. The follow-up panel's handlers refresh the threads exactly when
    their request succeeded.  [handleGenerateFollowUp] always asks for a
    [follow_up] draft and always clears the generating id;
    [handleMarkResponded] sends the summary typed into the prompt, and
    [null] when the prompt was cancelled or left empty, never the empty
    string. *)
Theorem X5_followUp_handlers (threadId : string) (summary : option string)
    (s : S) :
  let draft := GenerateDraft threadId MessageType.follow_up in
  let sent := if Js.truthy_opt summary then summary else None in
  let mark := MarkResponded threadId sent in
  trace server (FollowUpPanel.handleGenerateFollowUp threadId) s
  = (Performed (SetGeneratingId (Some threadId)) :: Requested draft ::
     match fst (server _ draft s) with
     | Ok _ => [Performed OnRefresh]
     | _ => []
     end ++ [Performed (SetGeneratingId None)])%list
  /\ trace server (FollowUpPanel.handleMarkResponded threadId summary) s
     = Requested mark ::
       match fst (server _ mark s) with
       | Ok _ => [Performed OnRefresh]
       | _ => []
       end
  /\ sent <> Some ""
  /\ (sent = None <-> summary = None \/ summary = Some "").
Proof.
  intros draft sent mark. subst draft mark.
  unfold trace, FollowUpPanel.handleGenerateFollowUp,
    FollowUpPanel.handleMarkResponded, await. simpl.
  split.
  { destruct (server _ _ s) as [res s1]. destruct res; reflexivity. }
  split.
  { destruct (server _ _ s) as [res s1]. destruct res; reflexivity. }
  subst sent. destruct summary as [x|]; simpl; [|split; [discriminate | tauto]].
  unfold Js.truthy. destruct (String.eqb_spec x ""); simpl.
  - subst. split; [discriminate | tauto].
  - split; [congruence|]. split; [discriminate|].
    intros [H | H]; congruence.
Qed.

(** X6. In the scheduling modal the latest generated reply wins: a
    successful generation replaces the message the modal holds and Send
    then posts that new message first; a refused, failed or rejected
    generation leaves the message the modal held in place. *)
Theorem X6_modal_sends_latest_generated
    (formatSlotLabel : string -> string -> string) (thread : OutreachThread.t)
    (slots : list SchedulingModal.Slot) (assistantName : string)
    (held : option OutreachThreadMessage.t) (sess : Session.t) (s s' : S) :
  let valid := SchedulingModal.validSlots formatSlotLabel slots in
  let request :=
    GenerateSchedulingReply (OutreachThread.id thread) valid
      (if Js.truthy assistantName then Some assistantName else None) in
  let now_held :=
    SchedulingModal.generatedAfter
      (trace server
         (SchedulingModal.handleGenerate formatSlotLabel thread slots
            assistantName) s) held in
  match (length valid <? 2)%nat, fst (server _ request s) with
  | false, Ok msg =>
      now_held = Some msg
      /\ head (trace server
                 (SchedulingModal.handleSend thread now_held (Some sess)) s')
         = Some (Performed (SetSending true))
      /\ head (requests
                 (trace server
                    (SchedulingModal.handleSend thread now_held (Some sess)) s'))
         = Some (Requested (SendMessage (OutreachThreadMessage.id msg)
                              (Session.token sess)))
  | _, _ => now_held = held
  end.
Proof.
  intros valid request now_held. subst now_held request.
  unfold trace, SchedulingModal.handleGenerate. fold valid.
  destruct (length valid <? 2)%nat; [reflexivity|]. simpl.
  destruct (server _ _ s) as [res s1]. destruct res as [msg | detail |];
    simpl; try reflexivity.
  split; [reflexivity|]. unfold SchedulingModal.handleSend. simpl.
  destruct (server _ _ s') as [res2 s2]. destruct res2 as [[] | detail |];
    simpl; try (split; reflexivity).
  destruct (server _ _ s2) as [res3 s3]. destruct res3; split; reflexivity.
Qed.

End Handlers.

(** ** Which thread and which message the detail panel works on *)

Section Selection.
Context {A : Type}.

Lemma find_is_some (p : A -> bool) (l : list A) (x : A) :
  x ∈ l -> p x = true -> exists y, Js.find p l = Some y.
Proof.
  intros Hx Hp. destruct (Js.find p l) as [y|] eqn:Hfind; [eauto|].
  rewrite (find_none _ _ Hfind x Hx) in Hp. discriminate.
Qed.

Lemma findLast_snoc (p : A -> bool) (l : list A) (x : A) :
  Js.findLast p (l ++ [x]) = if p x then Some x else Js.findLast p l.
Proof. unfold Js.findLast. rewrite rev_unit. reflexivity. Qed.

Lemma findLast_cons (p : A -> bool) (l : list A) (x : A) :
  Js.findLast p (x :: l)
  = Js.coalesce (Js.findLast p l) (if p x then Some x else None).
Proof. unfold Js.findLast. simpl. now rewrite find_app. Qed.

Lemma findLast_is_some (p : A -> bool) (l : list A) (x : A) :
  x ∈ l -> p x = true ->
  exists y, Js.findLast p l = Some y /\ y ∈ l /\ p y = true.
Proof.
  intros Hx Hp. unfold Js.findLast.
  destruct (find_is_some p (rev l) x) as [y Hy]; [|assumption|].
  { apply list_elem_of_In. rewrite <- in_rev. now apply list_elem_of_In. }
  exists y. split; [assumption|]. apply find_some in Hy as [Hin Hpy].
  split; [|assumption].
  apply list_elem_of_In. rewrite in_rev. now apply list_elem_of_In.
Qed.

(** When only one element satisfies the test, every scan finds it. *)
Lemma findLast_unique (p : A -> bool) (l : list A) (a : A) :
  (forall x, x ∈ l -> p x = true -> x = a) -> a ∈ l -> p a = true ->
  Js.findLast p l = Some a.
Proof.
  intros Huniq Ha Hp.
  destruct (findLast_is_some p l a Ha Hp) as (y & -> & Hy & Hpy).
  f_equal. now apply Huniq.
Qed.

Lemma find_map_same (p : A -> bool) (g : A -> A) (l : list A) :
  (forall t, p (g t) = p t) ->
  Js.find p (map g l) = option_map g (Js.find p l).
Proof.
  intros Hg. induction l as [|x l IH]; simpl; [reflexivity|].
  rewrite Hg. destruct (p x); [reflexivity | exact IH].
Qed.

End Selection.

(** X7. When the last message of the thread is a draft, the message the
    editor shows, the latest message and the message that Save patches are
    one and the same. *)
Theorem X7_save_patches_the_shown_draft
    (S : Type) (server : forall R, Api.Request R -> S -> Api.Response R * S)
    (s : S) (t : OutreachThread.t) (m : OutreachThreadMessage.t)
    (subject bodyHtml : string)
    (Hlast : last (OutreachThread.messages t) = Some m)
    (Hdraft : OutreachThreadMessage.status m = MessageStatus.draft) :
  CompanyDetailPanel.editorMessage (Some t) = Some m
  /\ CompanyDetailPanel.latestMessage (Some t) = Some m
  /\ Api.trace server
       (CompanyDetailPanel.handleSaveMessage (Some t) subject bodyHtml) s
     = [Api.Requested
          (Api.PatchMessage (OutreachThreadMessage.id m) subject bodyHtml)].
Proof.
  split; [|split; [exact Hlast|]].
  - apply last_Some in Hlast as [l Hl].
    unfold CompanyDetailPanel.editorMessage. simpl.
    now rewrite Hl, findLast_snoc, Hdraft.
  - unfold Api.trace, CompanyDetailPanel.handleSaveMessage.
    change (CompanyDetailPanel.latestMessage (Some t))
      with (last (OutreachThread.messages t)).
    rewrite Hlast. simpl.
    destruct (server _ _ s) as [res s1]. destruct res; reflexivity.
Qed.

Lemma X7_save_patches_the_shown_draft_witness :
  CompanyDetailPanel.editorMessage (Some Sample.regenerated)
  = Some Sample.second_draft.
Proof.
  exact (proj1 (X7_save_patches_the_shown_draft unit Sample.offline tt
                  Sample.regenerated Sample.second_draft "Hello" "<p>Hi</p>"
                  eq_refl eq_refl)).
Defined.

Example save_patches_a_message_that_is_not_shown :
  let t := Sample.thread "t1" ThreadStatus.awaiting_response None
             [Sample.message "m1" 1 MessageType.initial MessageStatus.draft;
              Sample.message "m2" 2 MessageType.initial MessageStatus.sent] in
  OutreachThreadMessage.id <$> CompanyDetailPanel.editorMessage (Some t)
  = Some "m1"
  /\ Api.trace Sample.offline
       (CompanyDetailPanel.handleSaveMessage (Some t) "Hello" "<p>Hi</p>") tt
     = [Api.Requested (Api.PatchMessage "m2" "Hello" "<p>Hi</p>")].
Proof. split; reflexivity. Qed.

(** X8. Whenever the thread contains a draft, the message handed to the
    editor is a draft of that thread.  While no generation is running the
    editor rendered for it is editable: the subject is shown and enabled,
    the edit switch, Regenerate and Send are shown, the body is editable in
    edit mode, and Save is shown exactly when there are unsaved edits.
    While a generation is running, as during Regenerate, the editor shows
    none of these, only the spinner.  In neither case is there a sent
    banner or a Generate button. *)
Theorem X8_editor_is_editable_when_a_draft_exists
    (t : OutreachThread.t) (d : OutreachThreadMessage.t)
    (Hd : d ∈ OutreachThread.messages t)
    (Hdraft : OutreachThreadMessage.status d = MessageStatus.draft) :
  exists m,
    CompanyDetailPanel.editorMessage (Some t) = Some m
    /\ m ∈ OutreachThread.messages t
    /\ OutreachThreadMessage.status m = MessageStatus.draft
    /\ forall isGenerating hasContact editMode dirty,
         let v := EmailDraftEditor.render (Some m) isGenerating hasContact
                    editMode dirty in
         EmailDraftEditor.showSubject v = negb isGenerating
         /\ EmailDraftEditor.subjectDisabled v = false
         /\ EmailDraftEditor.showEditToggle v = negb isGenerating
         /\ EmailDraftEditor.showBodyTextarea v = negb isGenerating && editMode
         /\ EmailDraftEditor.showSave v = negb isGenerating && dirty
         /\ EmailDraftEditor.showRegenerate v = negb isGenerating
         /\ EmailDraftEditor.showSend v = negb isGenerating
         /\ EmailDraftEditor.showSentBanner v = false
         /\ EmailDraftEditor.showGenerate v = false.
Proof.
  destruct (findLast_is_some
              (fun m => MessageStatus.eqb (OutreachThreadMessage.status m)
                          MessageStatus.draft)
              (OutreachThread.messages t) d Hd)
    as (m & Hfind & Hin & Hp); [now rewrite Hdraft|].
  exists m.
  assert (Hm : OutreachThreadMessage.status m = MessageStatus.draft)
    by now destruct (OutreachThreadMessage.status m).
  split; [unfold CompanyDetailPanel.editorMessage; simpl; now rewrite Hfind|].
  split; [assumption|]. split; [assumption|].
  intros isGenerating hasContact editMode dirty v. subst v.
  unfold EmailDraftEditor.render. rewrite Hm.
  destruct isGenerating; simpl; rewrite ?andb_true_r; auto 12.
Qed.

Lemma X8_editor_is_editable_witness :
  exists m, CompanyDetailPanel.editorMessage (Some Sample.followed_up) = Some m
            /\ OutreachThreadMessage.status m = MessageStatus.draft.
Proof.
  destruct (X8_editor_is_editable_when_a_draft_exists Sample.followed_up
              (Sample.message "m2" 2 MessageType.follow_up MessageStatus.draft))
    as (m & Hm & _ & Hst & _).
  - right. left.
  - reflexivity.
  - exists m. split; assumption.
Defined.

(** ** The page's state and what the CRM view makes of it *)

Lemma Object_prototype_undefined (key : string) :
  Js.Object_prototype key = Js.Undefined
  <-> key ∉ "constructor" :: "__proto__" :: Js.Object_prototype_methods.
Proof.
  unfold Js.Object_prototype. rewrite !not_elem_of_cons.
  destruct (String.eqb_spec key "constructor") as [-> | Hc];
    [split; [discriminate | tauto]|].
  destruct (String.eqb_spec key "__proto__") as [-> | Hp];
    [split; [discriminate | tauto]|].
  destruct (existsb (String.eqb key) Js.Object_prototype_methods) eqn:Hm.
  - split; [discriminate|]. intros (_ & _ & Hout). exfalso. apply Hout.
    apply existsb_exists in Hm as (m & Hin & ->%String.eqb_eq).
    now apply list_elem_of_In.
  - split; [|reflexivity]. intros _. split; [assumption|]. split; [assumption|].
    intros Hin%list_elem_of_In.
    assert (existsb (String.eqb key) Js.Object_prototype_methods = true)
      as Hyes; [|congruence].
    apply existsb_exists. exists key. split; [assumption|apply String.eqb_refl].
Qed.

Section PageState.
Import ProjectsPage.

Lemma handleThreadUpdated_present (prev : list OutreachThread.t)
    (u x : OutreachThread.t) :
  Js.find (fun t => String.eqb (OutreachThread.id t) (OutreachThread.id u)) prev
  = Some x ->
  handleThreadUpdated prev u
  = map (fun t => if String.eqb (OutreachThread.id t) (OutreachThread.id u)
                  then u else t) prev.
Proof. intros H. unfold handleThreadUpdated. now rewrite H. Qed.

Lemma handleThreadUpdated_find (prev : list OutreachThread.t)
    (u : OutreachThread.t) :
  Js.find (fun t => String.eqb (OutreachThread.id t) (OutreachThread.id u))
    (handleThreadUpdated prev u) = Some u.
Proof.
  unfold handleThreadUpdated.
  destruct (Js.find _ prev) as [x|] eqn:Hfind.
  - rewrite find_map_same, Hfind.
    + simpl. apply find_some in Hfind as [_ ->]. reflexivity.
    + intros t. simpl.
      destruct (String.eqb_spec (OutreachThread.id t) (OutreachThread.id u));
        [apply String.eqb_refl | now apply String.eqb_neq].
  - simpl. now rewrite String.eqb_refl.
Qed.

Lemma handleThreadUpdated_elem (prev : list OutreachThread.t)
    (u t : OutreachThread.t) :
  t ∈ handleThreadUpdated prev u <->
  t = u \/ (t ∈ prev /\ OutreachThread.id t <> OutreachThread.id u).
Proof.
  unfold handleThreadUpdated.
  destruct (Js.find _ prev) as [x|] eqn:Hfind.
  - apply find_some in Hfind as [Hx Hpx]. apply String.eqb_eq in Hpx.
    rewrite list_elem_of_In, in_map_iff. split.
    + intros (y & <- & Hy). destruct (String.eqb_spec (OutreachThread.id y)
                                        (OutreachThread.id u)); [now left|].
      right. now rewrite list_elem_of_In.
    + intros [-> | [Ht Hne]].
      * exists x. rewrite Hpx, String.eqb_refl. now rewrite <- list_elem_of_In.
      * exists t. destruct (String.eqb_spec (OutreachThread.id t)
                              (OutreachThread.id u)); [contradiction|].
        now rewrite <- list_elem_of_In.
  - rewrite elem_of_cons. split; (intros [-> | H]; [now left | right]).
    + split; [assumption|]. intros Heq.
      pose proof (find_none _ _ Hfind t H) as Hp. simpl in Hp.
      rewrite Heq, String.eqb_refl in Hp. discriminate.
    + apply H.
Qed.

Lemma handleThreadUpdated_ids (prev : list OutreachThread.t)
    (u : OutreachThread.t) :
  OutreachThread.id <$> handleThreadUpdated prev u
  = if bool_decide (OutreachThread.id u ∈ (OutreachThread.id <$> prev))
    then OutreachThread.id <$> prev
    else OutreachThread.id u :: (OutreachThread.id <$> prev).
Proof.
  unfold handleThreadUpdated.
  destruct (Js.find _ prev) as [x|] eqn:Hfind.
  - apply find_some in Hfind as [Hx Hpx]. apply String.eqb_eq in Hpx.
    rewrite bool_decide_true
      by (apply list_elem_of_fmap; exists x; split; [congruence | assumption]).
    change (map ?g prev) with (g <$> prev).
    rewrite <- list_fmap_compose. apply list_fmap_ext. intros i t _. simpl.
    destruct (String.eqb_spec (OutreachThread.id t) (OutreachThread.id u));
      congruence.
  - rewrite bool_decide_false; [reflexivity|].
    intros (t & Hid & Ht)%list_elem_of_fmap.
    pose proof (find_none _ _ Hfind t Ht) as Hp. simpl in Hp.
    rewrite <- Hid, String.eqb_refl in Hp. discriminate.
Qed.

(** The thread [threadMap] holds under a key: its prototype for
    [__proto__], its own property for any other key. *)
Lemma threadMap_acc (threads : list OutreachThread.t)
    (m : ProjectCRM.ThreadMap) (c : string) :
  let stored m :=
    if String.eqb c "__proto__" then ProjectCRM.proto m
    else ProjectCRM.own m !! c in
  stored (fold_left ProjectCRM.assign threads m)
  = Js.coalesce
      (Js.findLast (fun t => String.eqb (OutreachThread.company_id t) c) threads)
      (stored m).
Proof.
  cbv zeta. revert m. induction threads as [|t threads IH]; intros m.
  - reflexivity.
  - cbn [fold_left]. rewrite IH, findLast_cons.
    destruct (Js.findLast _ threads); simpl; [reflexivity|].
    unfold ProjectCRM.assign.
    destruct (String.eqb_spec (OutreachThread.company_id t) c) as [<- | Hne].
    + destruct (String.eqb (OutreachThread.company_id t) "__proto__");
        simpl; [reflexivity | now rewrite lookup_insert_eq].
    + destruct (String.eqb_spec (OutreachThread.company_id t) "__proto__")
        as [Ht | Ht]; simpl.
      * destruct (String.eqb_spec c "__proto__"); [congruence | reflexivity].
      * destruct (String.eqb c "__proto__"); [reflexivity|].
        now rewrite lookup_insert_ne.
Qed.

Lemma threadMap_stored (threads : list OutreachThread.t) (c : string) :
  (if String.eqb c "__proto__" then ProjectCRM.proto (ProjectCRM.threadMap threads)
   else ProjectCRM.own (ProjectCRM.threadMap threads) !! c)
  = Js.findLast (fun t => String.eqb (OutreachThread.company_id t) c) threads.
Proof.
  unfold ProjectCRM.threadMap.
  pose proof (threadMap_acc threads
                {| ProjectCRM.own := ∅; ProjectCRM.proto := None |} c) as H.
  cbv zeta in H. rewrite H. simpl. rewrite lookup_empty.
  destruct (Js.findLast _ threads); simpl; [reflexivity|].
  now destruct (String.eqb c "__proto__").
Qed.

(** What [threadMap[c]] reads, from the threads the map was built of. *)
Lemma threadMap_read (threads : list OutreachThread.t) (c : string) :
  let of_company k :=
    Js.findLast (fun t => String.eqb (OutreachThread.company_id t) k) threads in
  ProjectCRM.read (ProjectCRM.threadMap threads) c
  = match of_company c with
    | Some t => ProjectCRM.Thread t
    | None =>
        match of_company "__proto__" with
        | Some p =>
            default (ProjectCRM.Builtin (Js.Object_prototype c))
              (ProjectCRM.field p c)
        | None => ProjectCRM.Builtin (Js.Object_prototype c)
        end
    end.
Proof.
  cbv zeta. unfold ProjectCRM.read.
  pose proof (threadMap_stored threads c) as Hc.
  pose proof (threadMap_stored threads "__proto__") as Hp. simpl in Hp.
  destruct (String.eqb c "__proto__") eqn:Heq.
  - apply String.eqb_eq in Heq. subst c. rewrite Hp.
    now destruct (Js.findLast _ threads).
  - rewrite Hc, Hp. reflexivity.
Qed.

Lemma nullable_not_thread (o : option string) (t : OutreachThread.t) :
  ProjectCRM.nullable o <> ProjectCRM.Thread t.
Proof. now destruct o. Qed.

Lemma optional_not_thread (name : string) (o : option string) :
  Forall (fun kv => forall t, snd kv <> ProjectCRM.Thread t)
    (ProjectCRM.optional name o).
Proof. destruct o; repeat constructor. simpl. discriminate. Qed.

(** No field of a thread is itself a thread. *)
Lemma field_not_thread (p t : OutreachThread.t) (key : string) :
  ProjectCRM.field p key <> Some (ProjectCRM.Thread t).
Proof.
  assert (Hall : Forall (fun kv => forall t, snd kv <> ProjectCRM.Thread t)
                   (ProjectCRM.fields p)).
  { unfold ProjectCRM.fields.
    repeat (apply Forall_app; split); try apply optional_not_thread.
    repeat (apply Forall_cons; split;
            [simpl; intros; try apply nullable_not_thread; try discriminate|]).
    - now destruct (OutreachThread.proposed_slots p).
    - constructor. }
  unfold ProjectCRM.field.
  destruct (Js.find _ (ProjectCRM.fields p)) as [kv|] eqn:Hfind; [|discriminate].
  apply find_some in Hfind as [Hin _]. simpl. intros [= Heq].
  rewrite Forall_forall in Hall. now apply (Hall kv Hin t).
Qed.

End PageState.

(** X9. [handleThreadUpdated] is an upsert by thread id.  Afterwards the
    first thread with the updated id is the updated thread; a thread with
    that id is replaced in place, otherwise the thread is put in front, so
    the list of ids is unchanged or grows by that one id; every other
    thread is kept; recording the same thread twice changes nothing more;
    and distinct ids stay distinct. *)
Theorem X9_handleThreadUpdated_upsert (prev : list OutreachThread.t)
    (updated : OutreachThread.t) :
  let next := ProjectsPage.handleThreadUpdated prev updated in
  Js.find (fun t => String.eqb (OutreachThread.id t) (OutreachThread.id updated))
    next = Some updated
  /\ OutreachThread.id <$> next
     = (if bool_decide (OutreachThread.id updated ∈ (OutreachThread.id <$> prev))
        then OutreachThread.id <$> prev
        else OutreachThread.id updated :: (OutreachThread.id <$> prev))
  /\ (forall t, t ∈ next <->
                t = updated
                \/ (t ∈ prev /\ OutreachThread.id t <> OutreachThread.id updated))
  /\ ProjectsPage.handleThreadUpdated next updated = next
  /\ (NoDup (OutreachThread.id <$> prev) -> NoDup (OutreachThread.id <$> next)).
Proof.
  intros next.
  pose proof (handleThreadUpdated_find prev updated) as Hfind. fold next in Hfind.
  pose proof (handleThreadUpdated_ids prev updated) as Hids. fold next in Hids.
  split; [exact Hfind|]. split; [exact Hids|].
  split; [intros t; apply handleThreadUpdated_elem|].
  split.
  - rewrite (handleThreadUpdated_present next updated updated Hfind).
    change (map ?g next) with (g <$> next).
    rewrite <- (list_fmap_id next) at 2. apply list_fmap_ext.
    intros i t Ht%list_elem_of_lookup_2. simpl.
    destruct (String.eqb_spec (OutreachThread.id t) (OutreachThread.id updated))
      as [Heq|]; [|reflexivity].
    subst next. apply handleThreadUpdated_elem in Ht as [-> | [_ Hne]];
      [reflexivity | contradiction].
  - intros Hnd. rewrite Hids. case_bool_decide as Hin; [assumption|].
    now apply NoDup_cons.
Qed.

(** X10. [threadMap[company_id]] is the last thread of the list that
    belongs to that company whenever there is one, and what it reads is a
    thread only then, a thread of the page for that very company.  With no
    thread for the company the read falls through the prototype chain: to a
    field of the thread stored under [__proto__], if there is one, and
    otherwise to what [Object.prototype] has under that name, which is
    [undefined] for every name but the inherited ones. *)
Theorem X10_threadMap_is_last_thread_of_company
    (threads : list OutreachThread.t) (company_id : string) :
  let of_company k :=
    Js.findLast (fun t => String.eqb (OutreachThread.company_id t) k) threads in
  let held := ProjectCRM.read (ProjectCRM.threadMap threads) company_id in
  held = match of_company company_id with
         | Some t => ProjectCRM.Thread t
         | None =>
             match of_company "__proto__" with
             | Some p =>
                 default (ProjectCRM.Builtin (Js.Object_prototype company_id))
                   (ProjectCRM.field p company_id)
             | None => ProjectCRM.Builtin (Js.Object_prototype company_id)
             end
         end
  /\ (forall t, held = ProjectCRM.Thread t ->
                of_company company_id = Some t
                /\ t ∈ threads /\ OutreachThread.company_id t = company_id)
  /\ ((exists t, held = ProjectCRM.Thread t) <->
      (exists t, t ∈ threads /\ OutreachThread.company_id t = company_id))
  /\ ((forall t, t ∈ threads ->
         OutreachThread.company_id t <> company_id
         /\ OutreachThread.company_id t <> "__proto__") ->
      held = ProjectCRM.Builtin (Js.Object_prototype company_id)
      /\ (held = ProjectCRM.Builtin Js.Undefined <->
          company_id ∉ "constructor" :: "__proto__" :: Js.Object_prototype_methods)).
Proof.
  intros of_company held.
  assert (Hread := threadMap_read threads company_id).
  cbv zeta in Hread. fold of_company held in Hread.
  assert (Hthread : forall t, held = ProjectCRM.Thread t ->
            of_company company_id = Some t
            /\ t ∈ threads /\ OutreachThread.company_id t = company_id).
  { intros t Ht. rewrite Hread in Ht.
    destruct (of_company company_id) as [t0|] eqn:Hc.
    - injection Ht as ->. split; [reflexivity|].
      apply findLast_split in Hc as (l1 & l2 & -> & Hp & _).
      split; [|now apply String.eqb_eq].
      apply elem_of_app. right. left.
    - exfalso. destruct (of_company "__proto__") as [p|]; [|discriminate].
      destruct (ProjectCRM.field p company_id) as [r|] eqn:Hf; [|discriminate].
      simpl in Ht. subst r. now apply field_not_thread in Hf. }
  assert (Hnone : forall k,
            (forall t, t ∈ threads -> OutreachThread.company_id t <> k) ->
            of_company k = None).
  { intros k Hall. destruct (of_company k) as [t|] eqn:Hk; [|reflexivity].
    apply findLast_split in Hk as (l1 & l2 & -> & Hp & _).
    exfalso. apply (Hall t); [|now apply String.eqb_eq].
    apply elem_of_app. right. left. }
  split; [exact Hread|]. split; [exact Hthread|]. split; [split|].
  - intros [t Ht]. exists t. now apply Hthread.
  - intros (t & Ht & Hc).
    destruct (findLast_is_some
                (fun t => String.eqb (OutreachThread.company_id t) company_id)
                threads t Ht) as (y & Hy & _); [now apply String.eqb_eq|].
    exists y. rewrite Hread. fold (of_company company_id) in Hy. now rewrite Hy.
  - intros Hall.
    assert (Hheld : held = ProjectCRM.Builtin (Js.Object_prototype company_id)).
    { rewrite Hread, (Hnone company_id), (Hnone "__proto__");
        [reflexivity | |]; intros t Ht; now apply Hall. }
    split; [exact Hheld|]. rewrite Hheld, <- Object_prototype_undefined.
    split; [now intros [= ->] | now intros ->].
Qed.

(** X11. Once the page has recorded the thread a creation returned, the
    detail panel of that company holds it and [ensureThread] answers with
    its id without any request, provided the page holds no other thread
    for the same company. *)
Theorem X11_recorded_thread_is_not_created_again
    (S : Type) (server : forall R, Api.Request R -> S -> Api.Response R * S)
    (s : S) (prev : list OutreachThread.t) (created : OutreachThread.t)
    (projectId : string) (company : ProjectCompanyEntry.t)
    (Hcompany : OutreachThread.company_id created
                = ProjectCompanyEntry.company_id company)
    (Hother : forall t, t ∈ prev ->
                OutreachThread.company_id t = OutreachThread.company_id created ->
                OutreachThread.id t = OutreachThread.id created) :
  let threads := ProjectsPage.handleThreadUpdated prev created in
  let held := ProjectCRM.read (ProjectCRM.threadMap threads)
                (ProjectCompanyEntry.company_id company) in
  held = ProjectCRM.Thread created
  /\ (forall thread,
        held = ProjectCRM.Thread thread ->
        Api.run server
          (CompanyDetailPanel.ensureThread (Some thread) projectId company) s
        = (Api.Returned (OutreachThread.id created), [], s)).
Proof.
  intros threads held.
  assert (Hheld : held = ProjectCRM.Thread created).
  { subst held. rewrite threadMap_read, <- Hcompany.
    rewrite (findLast_unique _ threads created); [reflexivity | | |].
    - intros t Ht Hp. apply String.eqb_eq in Hp.
      apply handleThreadUpdated_elem in Ht as [-> | [Ht Hne]]; [reflexivity|].
      exfalso. apply Hne. now apply Hother.
    - apply handleThreadUpdated_elem. now left.
    - apply String.eqb_refl. }
  split; [exact Hheld|]. intros thread Ht. rewrite Hheld in Ht.
  now injection Ht as <-.
Qed.

Lemma X11_recorded_thread_witness :
  ProjectCRM.read
    (ProjectCRM.threadMap (ProjectsPage.handleThreadUpdated [] Sample.regenerated))
    "c1" = ProjectCRM.Thread Sample.regenerated.
Proof.
  refine (proj1 (X11_recorded_thread_is_not_created_again unit Sample.offline tt
                   [] Sample.regenerated "p1" (Sample.company "c1") eq_refl _)).
  intros t Ht. inversion Ht.
Defined.

Example a_later_thread_of_the_company_hides_the_created_one :
  ProjectCRM.read
    (ProjectCRM.threadMap
       (ProjectsPage.handleThreadUpdated [Sample.contacted] Sample.regenerated))
    "c1" = ProjectCRM.Thread Sample.contacted.
Proof. vm_compute. reflexivity. Qed.

(** A company whose id is an inherited property name reads as that
    property when it has no thread, not as nothing. *)
Example threadMap_reads_inherited_names :
  ProjectCRM.read (ProjectCRM.threadMap [Sample.contacted]) "constructor"
  = ProjectCRM.Builtin (Js.Function "Object")
  /\ ProjectCRM.read (ProjectCRM.threadMap [Sample.contacted]) "c2"
     = ProjectCRM.Builtin Js.Undefined.
Proof. split; vm_compute; reflexivity. Qed.

Section PageEnrichment.
Import ProjectsPage.

Lemma filter_idem {A : Type} (p : A -> bool) (l : list A) :
  List.filter p (List.filter p l) = List.filter p l.
Proof.
  induction l as [|x l IH]; simpl; [reflexivity|].
  destruct (p x) eqn:Hp; simpl; [rewrite Hp; f_equal|]; exact IH.
Qed.

Lemma contactEmail_updated (emap : gmap string EnrichmentStatusResponse.t)
    (companyId : string) (data : EnrichmentStatusResponse.t)
    (c : ProjectCompanyEntry.t) :
  ProjectCRM.contactEmail (handleEnrichmentUpdated emap companyId data) c
  = if String.eqb (ProjectCompanyEntry.company_id c) companyId
    then k ← EnrichmentStatusResponse.contact data; Contact.email k
    else ProjectCRM.contactEmail emap c.
Proof.
  unfold ProjectCRM.contactEmail, handleEnrichmentUpdated.
  destruct (String.eqb_spec (ProjectCompanyEntry.company_id c) companyId)
    as [-> | Hne].
  - now rewrite lookup_insert_eq.
  - now rewrite lookup_insert_ne.
Qed.

End PageEnrichment.

(** X12. After the page has recorded an enrichment snapshot for a company,
    bulk generation submits that company exactly when it belongs to the
    project and the new snapshot carries a non-empty contact email,
    whatever was recorded before; for every other company nothing
    changes. *)
Theorem X12_recorded_enrichment_decides_submission
    (project : ProjectDetail.t)
    (enrichmentMap : gmap string EnrichmentStatusResponse.t)
    (companyId : string) (data : EnrichmentStatusResponse.t) :
  let next := ProjectsPage.handleEnrichmentUpdated enrichmentMap companyId data in
  (companyId ∈ ProjectCRM.enrichedCompanyIds project next <->
   (exists c, c ∈ ProjectDetail.companies project
              /\ ProjectCompanyEntry.company_id c = companyId)
   /\ exists k e, EnrichmentStatusResponse.contact data = Some k
                  /\ Contact.email k = Some e /\ e <> "")
  /\ (forall id, id <> companyId ->
        (id ∈ ProjectCRM.enrichedCompanyIds project next <->
         id ∈ ProjectCRM.enrichedCompanyIds project enrichmentMap)).
Proof.
  intros next. subst next. split.
  - rewrite enrichedCompanyIds_spec. split.
    + intros (c & e & Hc & Hid & He & Hne).
      rewrite contactEmail_updated, Hid, String.eqb_refl in He.
      split; [eauto|].
      destruct (EnrichmentStatusResponse.contact data) as [k|]; [|discriminate].
      exists k, e. auto.
    + intros [(c & Hc & Hid) (k & e & Hk & He & Hne)].
      exists c, e. repeat split; try assumption.
      rewrite contactEmail_updated, Hid, String.eqb_refl, Hk. exact He.
  - intros id Hid. rewrite !enrichedCompanyIds_spec.
    split; intros (c & e & Hc & Hcid & He & Hne); exists c, e;
      repeat split; try assumption;
      rewrite contactEmail_updated in *;
      destruct (String.eqb_spec (ProjectCompanyEntry.company_id c) companyId);
      congruence.
Qed.

(** X13. Removing a company from the selected project drops every entry
    of that company and keeps all others, so bulk generation no longer
    submits it and submits every other company as before; removing it
    again changes nothing, and without a selected project nothing is
    selected afterwards either. *)
Theorem X13_removed_company_is_no_longer_submitted
    (project : ProjectDetail.t)
    (enrichmentMap : gmap string EnrichmentStatusResponse.t)
    (companyId : string) :
  exists next,
    ProjectsPage.removeCompany (Some project) companyId = Some next
    /\ ProjectDetail.id next = ProjectDetail.id project
    /\ (forall c, c ∈ ProjectDetail.companies next <->
                  c ∈ ProjectDetail.companies project
                  /\ ProjectCompanyEntry.company_id c <> companyId)
    /\ (companyId ∉ ProjectCRM.enrichedCompanyIds next enrichmentMap)
    /\ (forall id, id <> companyId ->
          (id ∈ ProjectCRM.enrichedCompanyIds next enrichmentMap <->
           id ∈ ProjectCRM.enrichedCompanyIds project enrichmentMap))
    /\ ProjectsPage.removeCompany (Some next) companyId = Some next
    /\ ProjectsPage.removeCompany None companyId = None.
Proof.
  eexists. split; [reflexivity|]. split; [reflexivity|].
  assert (Hmem : forall c,
    c ∈ List.filter
          (fun c => negb (String.eqb (ProjectCompanyEntry.company_id c) companyId))
          (ProjectDetail.companies project)
    <-> c ∈ ProjectDetail.companies project
        /\ ProjectCompanyEntry.company_id c <> companyId).
  { intros c. rewrite list_elem_of_In, filter_In, negb_true_iff,
      <- list_elem_of_In. now rewrite String.eqb_neq. }
  split; [exact Hmem|]. split; [|split; [|split]].
  - rewrite enrichedCompanyIds_spec. intros (c & e & Hc & Hid & _).
    simpl in Hc. apply Hmem in Hc as [_ Hne]. contradiction.
  - intros id Hid. rewrite !enrichedCompanyIds_spec. simpl.
    split; intros (c & e & Hc & Hcid & He); exists c, e;
      (split; [|split; assumption]).
    + now apply Hmem in Hc as [Hc _].
    + apply Hmem. split; [assumption | congruence].
  - simpl. now rewrite filter_idem.
  - reflexivity.
Qed.

(** ** The drafts grid: selection and counters *)

Section Grid.
Import DraftsGrid.

Lemma toggleSelect_elem (selected : gset string) (id x : string) :
  x ∈ toggleSelect selected id <->
  (x = id /\ id ∉ selected) \/ (x <> id /\ x ∈ selected).
Proof.
  unfold toggleSelect. destruct (decide (id ∈ selected)) as [Hin | Hout].
  - rewrite elem_of_difference, elem_of_singleton. split.
    + intros [Hx Hne]. now right.
    + intros [[-> Hno] | [Hne Hx]]; [contradiction | now split].
  - rewrite elem_of_union, elem_of_singleton. split.
    + intros [Hx | ->]; [right | now left].
      split; [|assumption]. intros ->. contradiction.
    + intros [[-> _] | [_ Hx]]; [now right | now left].
Qed.

(** The grid lists the messages of all threads that pass the filter. *)
Lemma rows_length (threads : list OutreachThread.t) (filter : StatusFilter) :
  length (rows threads filter)
  = length (List.filter
              (fun m => matches filter (OutreachThreadMessage.status m))
              (t ← threads; OutreachThread.messages t)).
Proof.
  unfold rows. induction threads as [|t threads IH]; [reflexivity|].
  rewrite !bind_cons, length_app, List.filter_app, length_app, IH. f_equal.
  induction (OutreachThread.messages t) as [|m ms IHm]; [reflexivity|].
  rewrite bind_cons, length_app, IHm. simpl.
  now destruct (matches filter (OutreachThreadMessage.status m)).
Qed.

Lemma tally_fold (ms : list OutreachThreadMessage.t) (d s f : nat) :
  let n st := length (List.filter
                        (fun m => MessageStatus.eqb
                                    (OutreachThreadMessage.status m) st) ms) in
  fold_left tally ms (d, s, f)
  = (d + (n MessageStatus.draft + n MessageStatus.approved),
     s + n MessageStatus.sent, f + n MessageStatus.failed).
Proof.
  revert d s f. induction ms as [|m ms IH]; intros d s f; simpl.
  - now rewrite !Nat.add_0_r.
  - simpl in IH.
    destruct (OutreachThreadMessage.status m); rewrite IH; simpl;
      repeat f_equal; lia.
Qed.

Lemma stats_fold (threads : list OutreachThread.t) (d s f : nat) :
  let n st := length (List.filter
                        (fun m => MessageStatus.eqb
                                    (OutreachThreadMessage.status m) st)
                        (t ← threads; OutreachThread.messages t)) in
  fold_left (fun acc t => fold_left tally (OutreachThread.messages t) acc)
    threads (d, s, f)
  = (d + (n MessageStatus.draft + n MessageStatus.approved),
     s + n MessageStatus.sent, f + n MessageStatus.failed).
Proof.
  cbv zeta. revert d s f.
  induction threads as [|t threads IH]; intros d s f.
  - simpl. now rewrite !Nat.add_0_r.
  - cbn [fold_left]. pose proof (tally_fold (OutreachThread.messages t) d s f)
      as Ht. cbv zeta in Ht.
    rewrite Ht, IH, bind_cons, !List.filter_app, !length_app.
    f_equal; [f_equal|]; lia.
Qed.

Lemma status_partition (ms : list OutreachThreadMessage.t) :
  let n st := length (List.filter
                        (fun m => MessageStatus.eqb
                                    (OutreachThreadMessage.status m) st) ms) in
  length ms = n MessageStatus.draft + n MessageStatus.approved
              + n MessageStatus.sent + n MessageStatus.failed
              + n MessageStatus.bounced.
Proof.
  induction ms as [|m ms IH]; simpl; [reflexivity|].
  simpl in IH. destruct (OutreachThreadMessage.status m); simpl; lia.
Qed.

Lemma draftsCount_fold (threads : list OutreachThread.t) (n : nat) :
  fold_left (fun n t => n + length (OutreachThread.messages t)) threads n
  = n + length (t ← threads; OutreachThread.messages t).
Proof.
  revert n. induction threads as [|t threads IH]; intros n.
  - simpl. lia.
  - cbn [fold_left]. rewrite IH, bind_cons, length_app. lia.
Qed.

End Grid.

(** X14. Clicking a row's selection box twice restores the selection.  One
    click changes the membership of that message id and of no other, so
    the size of the selection changes by exactly one. *)
Theorem X14_toggleSelect_flips_one_id (selected : gset string) (id : string) :
  DraftsGrid.toggleSelect (DraftsGrid.toggleSelect selected id) id = selected
  /\ (forall x, x ∈ DraftsGrid.toggleSelect selected id <->
                (x = id /\ id ∉ selected) \/ (x <> id /\ x ∈ selected))
  /\ size (DraftsGrid.toggleSelect selected id)
     = (if decide (id ∈ selected) then size selected - 1 else size selected + 1).
Proof.
  split; [|split; [apply toggleSelect_elem|]].
  - apply set_eq. intros x. rewrite !toggleSelect_elem.
    destruct (decide (x = id)) as [-> | Hne]; [|tauto].
    destruct (decide (id ∈ selected)); tauto.
  - unfold DraftsGrid.toggleSelect.
    destruct (decide (id ∈ selected)) as [Hin | Hout].
    + rewrite size_difference by now apply singleton_subseteq_l.
      now rewrite size_singleton.
    + rewrite size_union by now apply disjoint_singleton_r.
      now rewrite size_singleton.
Qed.

(** X15. The grid's counters against what it lists.  "Drafts" counts the
    draft and the approved messages, "Sent" the sent and "Failed" the
    failed ones, and "All" is their sum, so it leaves the bounced messages
    out, although the unfiltered grid lists every message, as many as the
    Drafts tab of the project announces.  The "draft" filter lists only the
    messages whose status is draft, fewer than its label counts when some
    are approved; the "sent" and "failed" filters list as many as their
    labels say. *)
Theorem X15_grid_counters (threads : list OutreachThread.t) :
  let n st :=
    length (List.filter
              (fun m => MessageStatus.eqb (OutreachThreadMessage.status m) st)
              (t ← threads; OutreachThread.messages t)) in
  let shown filter := length (DraftsGrid.rows threads filter) in
  let st := DraftsGrid.stats threads in
  DraftsGrid.Stats.drafts st = n MessageStatus.draft + n MessageStatus.approved
  /\ DraftsGrid.Stats.sent st = n MessageStatus.sent
  /\ DraftsGrid.Stats.failed st = n MessageStatus.failed
  /\ DraftsGrid.Stats.total st
     = DraftsGrid.Stats.drafts st + DraftsGrid.Stats.sent st
       + DraftsGrid.Stats.failed st
  /\ shown DraftsGrid.all = DraftsGrid.Stats.total st + n MessageStatus.bounced
  /\ shown DraftsGrid.all = ProjectCRM.draftsCount threads
  /\ shown DraftsGrid.draft + n MessageStatus.approved = DraftsGrid.Stats.drafts st
  /\ shown DraftsGrid.sent = DraftsGrid.Stats.sent st
  /\ shown DraftsGrid.failed = DraftsGrid.Stats.failed st.
Proof.
  intros n shown st.
  assert (Hst : st = {| DraftsGrid.Stats.drafts :=
                          n MessageStatus.draft + n MessageStatus.approved;
                        DraftsGrid.Stats.sent := n MessageStatus.sent;
                        DraftsGrid.Stats.failed := n MessageStatus.failed;
                        DraftsGrid.Stats.total :=
                          n MessageStatus.draft + n MessageStatus.approved
                          + n MessageStatus.sent + n MessageStatus.failed |}).
  { subst st. unfold DraftsGrid.stats.
    pose proof (stats_fold threads 0 0 0) as H. simpl in H. rewrite H.
    reflexivity. }
  assert (Hshown : forall filter,
    shown filter
    = length (List.filter
                (fun m => DraftsGrid.matches filter
                            (OutreachThreadMessage.status m))
                (t ← threads; OutreachThread.messages t)))
    by (intros filter; apply rows_length).
  assert (Hsame : forall filter st0,
    (forall x, DraftsGrid.matches filter x = MessageStatus.eqb x st0) ->
    shown filter = n st0).
  { intros filter st0 Heq. rewrite Hshown. subst n. simpl. f_equal.
    apply List.filter_ext. intros m. apply Heq. }
  assert (Hall : shown DraftsGrid.all
                 = length (t ← threads; OutreachThread.messages t)).
  { rewrite Hshown. f_equal. apply forallb_filter_id.
    apply forallb_forall. reflexivity. }
  rewrite Hst. simpl.
  repeat split.
  - rewrite Hall. apply status_partition.
  - rewrite Hall. unfold ProjectCRM.draftsCount. now rewrite draftsCount_fold.
  - f_equal. apply Hsame. now intros [].
  - apply Hsame. now intros [].
  - apply Hsame. now intros [].
Qed.

Section GridSelection.
Import DraftsGrid.

Lemma NoDup_map_filter {A B : Type} (f : A -> B) (p : A -> bool) (l : list A) :
  NoDup (map f l) -> NoDup (map f (List.filter p l)).
Proof.
  induction l as [|a l IH]; simpl; [auto|].
  intros [Ha Hl]%NoDup_cons. destruct (p a); simpl; [|auto].
  apply NoDup_cons. split; [|auto].
  rewrite list_elem_of_In, in_map_iff. intros (b & Hb & [Hin _]%filter_In).
  apply Ha. rewrite list_elem_of_In, in_map_iff. eauto.
Qed.

Lemma length_le_size (l : list string) (s : gset string) :
  NoDup l -> (forall x, x ∈ l -> x ∈ s) -> length l <= size s.
Proof.
  intros Hl Hs. rewrite <- (size_list_to_set (C := gset string) l) by assumption.
  apply subseteq_size. intros x Hx. apply Hs. now apply elem_of_list_to_set in Hx.
Qed.

Lemma selectAll_elem (rs : list Row) (selected : gset string) (id : string) :
  size selected <> length (List.filter (fun r => isSendable (message r)) rs) ->
  id ∈ selectAll rs selected <->
  exists r, In r rs /\ OutreachThreadMessage.id (message r) = id
            /\ isSendable (message r) = true.
Proof.
  intros Hne. unfold selectAll.
  destruct (Nat.eqb_spec (size selected)
              (length (List.filter (fun r => isSendable (message r)) rs)))
    as [He | _]; [contradiction|].
  rewrite elem_of_list_to_set, list_elem_of_In, in_map_iff.
  split.
  - intros (r & Hid & [Hin Hp]%filter_In). eauto.
  - intros (r & Hin & Hid & Hp). exists r. split; [assumption|].
    apply filter_In. auto.
Qed.

End GridSelection.

(** X16. "Select all" in the drafts grid, for rows with distinct message
    ids.  When the size of the selection differs from the number of
    sendable rows, it selects exactly the ids of the rows whose message is
    a draft or approved, the "Send n Selected" button then counts all of
    them, and a second click clears the selection.  The button never
    counts more messages than the selection holds, and it is the whole
    selection that a bulk send submits. *)
Theorem X16_selectAll_selects_the_sendable_rows
    (rs : list DraftsGrid.Row) (selected : gset string)
    (Hids : NoDup (map (fun r => OutreachThreadMessage.id (DraftsGrid.message r)) rs))
    (Hsize : size selected
             <> length (List.filter
                          (fun r => DraftsGrid.isSendable (DraftsGrid.message r))
                          rs)) :
  let sendable :=
    List.filter (fun r => DraftsGrid.isSendable (DraftsGrid.message r)) rs in
  let chosen := DraftsGrid.selectAll rs selected in
  (forall id, id ∈ chosen <->
     exists r, In r rs /\ OutreachThreadMessage.id (DraftsGrid.message r) = id
               /\ DraftsGrid.isSendable (DraftsGrid.message r) = true)
  /\ size chosen = length sendable
  /\ DraftsGrid.sendableCount rs chosen = length sendable
  /\ DraftsGrid.selectAll rs chosen = ∅
  /\ DraftsGrid.sendableCount rs selected <= size selected.
Proof.
  intros sendable chosen.
  assert (Helem := fun id => selectAll_elem rs selected id Hsize).
  assert (Hchosen : size chosen = length sendable).
  { subst chosen. unfold DraftsGrid.selectAll.
    destruct (Nat.eqb_spec (size selected)
                (length (List.filter
                           (fun r => DraftsGrid.isSendable (DraftsGrid.message r))
                           rs))) as [He | _]; [contradiction|].
    rewrite size_list_to_set by now apply NoDup_map_filter.
    subst sendable. now rewrite length_map. }
  split; [exact Helem|]. split; [exact Hchosen|]. split; [|split].
  - unfold DraftsGrid.sendableCount. subst sendable. f_equal.
    apply filter_ext_in. intros r Hr.
    destruct (DraftsGrid.isSendable (DraftsGrid.message r)) eqn:Hp;
      [|apply andb_false_r].
    rewrite andb_true_r. apply bool_decide_eq_true. apply Helem. eauto.
  - unfold DraftsGrid.selectAll at 1. fold sendable. rewrite Hchosen.
    now rewrite Nat.eqb_refl.
  - unfold DraftsGrid.sendableCount.
    rewrite <- (length_map
                  (fun r => OutreachThreadMessage.id (DraftsGrid.message r))).
    apply length_le_size; [now apply NoDup_map_filter|].
    intros x (r & <- & [_ Hp]%filter_In)%list_elem_of_In%in_map_iff.
    apply andb_prop in Hp as [Hsel _]. now apply bool_decide_eq_true in Hsel.
Qed.

Lemma X16_selectAll_witness :
  let rs := DraftsGrid.rows [Sample.followed_up] DraftsGrid.all in
  let chosen := DraftsGrid.selectAll rs ∅ in
  size chosen = 1 /\ DraftsGrid.selectAll rs chosen = ∅.
Proof.
  intros rs chosen.
  assert (Hids : NoDup (map (fun r => OutreachThreadMessage.id
                                        (DraftsGrid.message r)) rs)).
  { apply NoDup_cons. split; [|apply NoDup_singleton].
    intros Hin%list_elem_of_singleton. discriminate Hin. }
  assert (Hsize : size (∅ : gset string)
                  <> length (List.filter
                               (fun r => DraftsGrid.isSendable
                                           (DraftsGrid.message r)) rs)).
  { rewrite size_empty. simpl. lia. }
  destruct (X16_selectAll_selects_the_sendable_rows rs ∅ Hids Hsize)
    as (_ & Hn & _ & Hclear & _).
  split; [exact Hn | exact Hclear].
Defined.

(** ** The follow-up panel: groups and their order *)

Section SortFacts.
Context {A : Type}.
Variable cmp : A -> A -> Js.Num.
Variable key : A -> Z.
Variable P : A -> Prop.
Hypothesis cmp_key :
  forall a b, P a -> P b -> cmp a b = Js.Int (key a - key b).

Lemma sort_snoc (l : list A) (x : A) :
  Js.sort cmp (l ++ [x])%list = Js.sort_insert cmp x (Js.sort cmp l).
Proof. unfold Js.sort. now rewrite fold_left_app. Qed.

Lemma sort_insert_sorted (x : A) (l : list A) :
  P x -> Forall P l ->
  StronglySorted (fun a b => (key a <= key b)%Z) l ->
  StronglySorted (fun a b => (key a <= key b)%Z) (Js.sort_insert cmp x l).
Proof.
  intros Hx Hl Hs. induction l as [|y r IH]; simpl.
  - constructor; constructor.
  - apply Forall_cons in Hl as [Hy Hr].
    apply StronglySorted_inv in Hs as [Hs Hall].
    rewrite (cmp_key x y Hx Hy). simpl.
    destruct (Z.ltb_spec (key x - key y) 0) as [Hlt | Hge].
    + constructor; [now constructor|].
      constructor; [lia|].
      eapply Forall_impl; [exact Hall|]. simpl. intros; lia.
    + constructor; [auto|].
      rewrite sort_insert_perm. constructor; [lia | exact Hall].
Qed.

Lemma sort_sorted (l : list A) :
  Forall P l ->
  StronglySorted (fun a b => (key a <= key b)%Z) (Js.sort cmp l).
Proof.
  induction l as [|x l IH] using rev_ind; intros Hl.
  - constructor.
  - apply Forall_app in Hl as [Hl Hx]. apply Forall_cons in Hx as [Hx _].
    rewrite sort_snoc. apply sort_insert_sorted; auto.
    now rewrite sort_perm.
Qed.

Lemma sort_insert_last (x : A) (l : list A) :
  P x -> Forall P l -> Forall (fun a => (key a <= key x)%Z) l ->
  Js.sort_insert cmp x l = (l ++ [x])%list.
Proof.
  intros Hx Hl Hle. induction l as [|y r IH]; simpl; [reflexivity|].
  apply Forall_cons in Hl as [Hy Hr]. apply Forall_cons in Hle as [Hyx Hle].
  rewrite (cmp_key x y Hx Hy). simpl.
  destruct (Z.ltb_spec (key x - key y) 0) as [Hlt | Hge]; [lia|].
  now rewrite IH.
Qed.

Lemma StronglySorted_snoc (R : A -> A -> Prop) (l : list A) (x : A) :
  StronglySorted R (l ++ [x])%list ->
  StronglySorted R l /\ Forall (fun a => R a x) l.
Proof.
  induction l as [|y r IH]; simpl; intros Hs.
  - split; constructor.
  - apply StronglySorted_inv in Hs as [Hs Hall].
    destruct (IH Hs) as [Hr Hx]. apply Forall_app in Hall as [Hall Hyx].
    apply Forall_cons in Hyx as [Hyx _].
    split; constructor; auto.
Qed.

Lemma sort_of_sorted (l : list A) :
  Forall P l ->
  StronglySorted (fun a b => (key a <= key b)%Z) l ->
  Js.sort cmp l = l.
Proof.
  induction l as [|x l IH] using rev_ind; intros Hl Hs; [reflexivity|].
  apply Forall_app in Hl as [Hl Hx]. apply Forall_cons in Hx as [Hx _].
  apply StronglySorted_snoc in Hs as [Hs Hle].
  rewrite sort_snoc, IH by assumption. now apply sort_insert_last.
Qed.

End SortFacts.

Section FollowUpGroups.
Import FollowUpPanel.
Variable now : Z.
Variable getTime : string -> Js.Num.

Lemma place_fold (l : list OutreachThread.t) (g : Groups) :
  let has st t := ThreadStatus.eqb (OutreachThread.status t) st in
  fold_left place l g
  = {| needsFollowUp :=
         needsFollowUp g
         ++ List.filter (fun t => has ThreadStatus.awaiting_response t
                                  || has ThreadStatus.sent t) l;
       responded := responded g ++ List.filter (has ThreadStatus.responded) l;
       scheduled :=
         scheduled g ++ List.filter (has ThreadStatus.meeting_scheduled) l |}.
Proof.
  cbv zeta. revert g. induction l as [|t l IH]; intros [n r s].
  - simpl. now rewrite !app_nil_r.
  - cbn [fold_left]. rewrite IH. unfold place. cbn [List.filter].
    destruct (OutreachThread.status t); simpl;
      rewrite <- ?app_assoc; reflexivity.
Qed.

Lemma followUpsCount_groups (threads : list OutreachThread.t) :
  let has st t := ThreadStatus.eqb (OutreachThread.status t) st in
  ProjectCRM.followUpsCount threads
  = length (List.filter (fun t => has ThreadStatus.awaiting_response t
                                  || has ThreadStatus.sent t) threads)
    + length (List.filter (has ThreadStatus.responded) threads)
    + length (List.filter (has ThreadStatus.meeting_scheduled) threads).
Proof.
  cbv zeta. unfold ProjectCRM.followUpsCount.
  induction threads as [|t l IH]; [reflexivity|]. cbn [List.filter].
  destruct (OutreachThread.status t); simpl in *; lia.
Qed.

(** The age in days the comparator orders by, as an integer. *)
Lemma urgency_key (a b : OutreachThread.t) :
  let days t := daysSince now getTime (OutreachThread.last_sent_at t) in
  let key t := match days t with Js.Int z => (- z)%Z | Js.NaN => 0%Z end in
  days a <> Js.NaN -> days b <> Js.NaN ->
  urgency now getTime a b = Js.Int (key a - key b).
Proof.
  cbv zeta. unfold urgency.
  destruct (daysSince now getTime (OutreachThread.last_sent_at a)),
           (daysSince now getTime (OutreachThread.last_sent_at b));
    intros Ha Hb; try congruence.
  simpl. f_equal. lia.
Qed.

End FollowUpGroups.

(** X17. The three groups of the follow-up panel.  "Responded" and
    "Meeting scheduled" are the threads of those statuses in the order
    given; "Needs follow-up" is a rearrangement of the threads that are
    awaiting a response or sent; threads that are draft or passed are in
    no group.  The groups together hold as many threads as the Follow-ups
    tab of the project counts, so the panel shows its empty state exactly
    when that tab shows no count. *)
Theorem X17_follow_up_groups_partition
    (now : Z) (getTime : string -> Js.Num) (threads : list OutreachThread.t) :
  let g := FollowUpPanel.categorize now getTime threads in
  let has st t := ThreadStatus.eqb (OutreachThread.status t) st in
  FollowUpPanel.responded g = List.filter (has ThreadStatus.responded) threads
  /\ FollowUpPanel.scheduled g
     = List.filter (has ThreadStatus.meeting_scheduled) threads
  /\ FollowUpPanel.needsFollowUp g
     ≡ₚ List.filter (fun t => has ThreadStatus.awaiting_response t
                              || has ThreadStatus.sent t) threads
  /\ length (FollowUpPanel.needsFollowUp g)
     + length (FollowUpPanel.responded g) + length (FollowUpPanel.scheduled g)
     = ProjectCRM.followUpsCount threads
  /\ FollowUpPanel.isEmpty g
     = negb (ProjectCRM.showsCount (ProjectCRM.followUpsCount threads)).
Proof.
  intros g has. subst g. unfold FollowUpPanel.categorize, FollowUpPanel.isEmpty.
  pose proof (place_fold threads
                {| FollowUpPanel.needsFollowUp := [];
                   FollowUpPanel.responded := [];
                   FollowUpPanel.scheduled := [] |}) as Hfold.
  cbv zeta in Hfold. rewrite Hfold. cbn [FollowUpPanel.needsFollowUp
    FollowUpPanel.responded FollowUpPanel.scheduled app].
  pose proof (followUpsCount_groups threads) as Hcount. cbv zeta in Hcount.
  split; [reflexivity|]. split; [reflexivity|].
  split; [apply sort_perm|].
  rewrite (Permutation_length (sort_perm _ _)).
  split; [now rewrite Hcount|].
  rewrite Hcount. unfold ProjectCRM.showsCount.
  repeat match goal with
         | |- context [length ?l] => destruct l; simpl
         end; reflexivity.
Qed.

(** X18. The order of the needs-follow-up list.  When the last-sent date of
    every thread is null or parses, the list runs from the thread that has
    waited the most whole days to the one that has waited the fewest, and
    threads that already arrive in such an order keep it, threads of equal
    age included. *)
Theorem X18_needs_follow_up_oldest_first
    (now : Z) (getTime : string -> Js.Num) (threads : list OutreachThread.t)
    (Hdates : forall u, u ∈ threads ->
                FollowUpPanel.daysSince now getTime (OutreachThread.last_sent_at u)
                <> Js.NaN) :
  let days t := FollowUpPanel.daysSince now getTime (OutreachThread.last_sent_at t) in
  let older a b := exists x y, days a = Js.Int x /\ days b = Js.Int y /\ (y <= x)%Z in
  let waiting :=
    List.filter
      (fun t => ThreadStatus.eqb (OutreachThread.status t)
                  ThreadStatus.awaiting_response
                || ThreadStatus.eqb (OutreachThread.status t) ThreadStatus.sent)
      threads in
  let listed :=
    FollowUpPanel.needsFollowUp (FollowUpPanel.categorize now getTime threads) in
  StronglySorted older listed
  /\ (StronglySorted older waiting -> listed = waiting).
Proof.
  intros days older waiting listed.
  set (key t := match days t with Js.Int z => (- z)%Z | Js.NaN => 0%Z end).
  set (P t := days t <> Js.NaN).
  assert (Hcmp : forall a b, P a -> P b ->
            FollowUpPanel.urgency now getTime a b = Js.Int (key a - key b))
    by (intros a b; apply urgency_key).
  assert (Hrel : forall a b, P a -> P b -> (older a b <-> (key a <= key b)%Z)).
  { intros a b Ha Hb. subst older key P. cbv beta in *.
    destruct (days a) as [x|] eqn:Ea, (days b) as [y|] eqn:Eb; try congruence.
    split.
    - intros (x' & y' & [= <-] & [= <-] & Hle). lia.
    - intros Hle. exists x, y. repeat split. lia. }
  assert (Hlisted : listed = Js.sort (FollowUpPanel.urgency now getTime) waiting).
  { subst listed waiting. unfold FollowUpPanel.categorize.
    pose proof (place_fold threads
                  {| FollowUpPanel.needsFollowUp := [];
                     FollowUpPanel.responded := [];
                     FollowUpPanel.scheduled := [] |}) as Hfold.
    cbv zeta in Hfold. now rewrite Hfold. }
  assert (Hwaiting : Forall P waiting).
  { apply Forall_forall. intros u [Hu _]%list_elem_of_In%filter_In.
    apply Hdates. now apply list_elem_of_In. }
  assert (Hconv : forall l, Forall P l ->
            (StronglySorted older l
             <-> StronglySorted (fun a b => (key a <= key b)%Z) l)).
  { induction l as [|a l IH]; intros Hl; [split; constructor|].
    apply Forall_cons in Hl as [Ha Hl]. specialize (IH Hl).
    split; intros [Hs Hall]%StronglySorted_inv; constructor;
      try (now apply IH);
      rewrite Forall_forall in *; intros b Hb;
      apply (Hrel a b Ha (Hl b Hb)); auto. }
  rewrite Hlisted. split.
  - apply Hconv; [now rewrite sort_perm|].
    now apply (sort_sorted _ key P Hcmp).
  - intros Hs. apply (sort_of_sorted _ key P Hcmp); [assumption|].
    now apply Hconv.
Qed.

Lemma X18_needs_follow_up_witness :
  let getTime s :=
    if String.eqb s "2026-03-02T09:00:00Z" then Js.Int 0 else Js.Int Sample.day in
  FollowUpPanel.needsFollowUp
    (FollowUpPanel.categorize (9 * Sample.day) getTime
       [Sample.contacted; Sample.answered; Sample.awaiting])
  = [Sample.awaiting; Sample.contacted]
  /\ StronglySorted
       (fun a b => exists x y,
          FollowUpPanel.daysSince (9 * Sample.day) getTime
            (OutreachThread.last_sent_at a) = Js.Int x
          /\ FollowUpPanel.daysSince (9 * Sample.day) getTime
               (OutreachThread.last_sent_at b) = Js.Int y
          /\ (y <= x)%Z)
       (FollowUpPanel.needsFollowUp
          (FollowUpPanel.categorize (9 * Sample.day) getTime
             [Sample.contacted; Sample.answered; Sample.awaiting])).
Proof.
  intros getTime. split; [reflexivity|].
  apply (X18_needs_follow_up_oldest_first (9 * Sample.day) getTime
           [Sample.contacted; Sample.answered; Sample.awaiting]).
  intros u Hu. repeat (apply elem_of_cons in Hu as [-> | Hu]);
    [discriminate | discriminate | discriminate | inversion Hu].
Defined.

(** ** The scheduling modal: edits of the slot list *)

Section SlotEdits.
Import SchedulingModal.

Lemma filteri_delete (idx k : nat) (l : list Slot) :
  Js.filteri (fun _ i => negb (i =? k + idx)%nat) k l = delete idx l.
Proof.
  revert idx k. induction l as [|x l IH]; intros idx k; [now destruct idx|].
  destruct idx as [|j]; simpl.
  - rewrite Nat.add_0_r, Nat.eqb_refl. simpl.
    apply filteri_keeps_later. lia.
  - destruct (Nat.eqb_spec k (k + S j)); [lia|]. simpl. f_equal.
    replace (k + S j) with (S k + j) by lia. apply IH.
Qed.

Lemma mapi_later (g : Slot -> Slot) (idx k : nat) (l : list Slot) :
  idx < k ->
  Js.mapi (fun s i => if (i =? idx)%nat then g s else s) k l = l.
Proof.
  revert k. induction l as [|x l IH]; intros k Hk; simpl; [reflexivity|].
  destruct (Nat.eqb_spec k idx); [lia|]. f_equal. apply IH. lia.
Qed.

Lemma mapi_alter (g : Slot -> Slot) (idx k : nat) (l : list Slot) :
  Js.mapi (fun s i => if (i =? k + idx)%nat then g s else s) k l
  = alter g idx l.
Proof.
  revert idx k. induction l as [|x l IH]; intros idx k; [reflexivity|].
  destruct idx as [|j]; simpl.
  - rewrite Nat.add_0_r, Nat.eqb_refl. f_equal. apply mapi_later. lia.
  - destruct (Nat.eqb_spec k (k + S j)); [lia|]. f_equal.
    replace (k + S j) with (S k + j) by lia. apply IH.
Qed.

Lemma dated_alter (g : Slot -> Slot) (idx : nat) (l : list Slot) :
  (forall s, date (g s) = date s) ->
  map date (alter g idx l) = map date l.
Proof.
  intros Hg. revert idx. induction l as [|x l IH]; intros [|j]; simpl;
    try reflexivity.
  - now rewrite Hg.
  - f_equal. apply IH.
Qed.

Lemma dated_length (l : list Slot) :
  length (List.filter (fun s => Js.truthy (date s)) l)
  = length (List.filter Js.truthy (map date l)).
Proof.
  induction l as [|x l IH]; simpl; [reflexivity|].
  destruct (Js.truthy (date x)); simpl; now rewrite IH.
Qed.

Lemma delete_out_of_range (l : list Slot) (idx : nat) :
  length l <= idx -> delete idx l = l.
Proof.
  intros Hi. apply list_eq. intros j. rewrite list_lookup_delete.
  case_decide; [reflexivity|].
  rewrite !lookup_ge_None_2 by lia. reflexivity.
Qed.

Lemma removeSlot_out_of_range (l : list Slot) (idx : nat) :
  length l <= idx -> removeSlot l idx = l.
Proof.
  intros Hi. unfold removeSlot.
  destruct (Nat.leb_spec (length l) 2); [reflexivity|].
  rewrite (filteri_delete idx 0). now apply delete_out_of_range.
Qed.

End SlotEdits.

(** X19. With more than two slots in the modal, a row's trash button
    deletes exactly that row: the rows before it stay in place, the rows
    after it move up by one, and the list is one shorter; an index past the
    end changes nothing. *)
Theorem X19_removeSlot_deletes_the_row
    (slots : list SchedulingModal.Slot) (index : nat)
    (Hlen : 2 < length slots) :
  SchedulingModal.removeSlot slots index = delete index slots
  /\ (forall j, j < index ->
        SchedulingModal.removeSlot slots index !! j = slots !! j)
  /\ (forall j, index <= j ->
        SchedulingModal.removeSlot slots index !! j = slots !! S j)
  /\ (index < length slots ->
        length (SchedulingModal.removeSlot slots index) = length slots - 1)
  /\ (length slots <= index -> SchedulingModal.removeSlot slots index = slots).
Proof.
  assert (Hdel : SchedulingModal.removeSlot slots index = delete index slots).
  { unfold SchedulingModal.removeSlot.
    destruct (Nat.leb_spec (length slots) 2); [lia|].
    apply (filteri_delete index 0). }
  rewrite Hdel. split; [reflexivity|].
  split; [intros j Hj; now apply list_lookup_delete_lt|].
  split; [intros j Hj; now apply list_lookup_delete_ge|].
  split.
  - intros Hi. apply length_delete. now apply lookup_lt_is_Some.
  - intros Hi. now apply delete_out_of_range.
Qed.

Lemma X19_removeSlot_witness :
  SchedulingModal.removeSlot
    (SchedulingModal.addSlot SchedulingModal.initialSlots) 0
  = delete 0 (SchedulingModal.addSlot SchedulingModal.initialSlots).
Proof.
  apply (X19_removeSlot_deletes_the_row
           (SchedulingModal.addSlot SchedulingModal.initialSlots) 0).
  simpl. lia.
Defined.

(** X20. "Add Slot" followed by the trash button of the row it would add
    gives the slot list back, for every list of at least two slots: below
    five slots the added blank row is the one removed, and at five slots
    neither click changes the list. *)
Theorem X20_add_then_remove_restores_the_slots
    (slots : list SchedulingModal.Slot) (Hlen : 2 <= length slots) :
  SchedulingModal.removeSlot (SchedulingModal.addSlot slots) (length slots)
  = slots
  /\ length (SchedulingModal.addSlot slots)
     = (if decide (length slots < 5) then S (length slots) else length slots).
Proof.
  unfold SchedulingModal.addSlot.
  destruct (Nat.leb_spec 5 (length slots)) as [Hfull | Hroom].
  - split; [|case_decide; [lia | reflexivity]].
    apply removeSlot_out_of_range. lia.
  - split; [|case_decide; [rewrite length_app; simpl; lia | lia]].
    unfold SchedulingModal.removeSlot. rewrite length_app. simpl.
    destruct (Nat.leb_spec (length slots + 1) 2); [lia|].
    rewrite (filteri_delete (length slots) 0).
    now rewrite delete_middle, app_nil_r.
Qed.

Lemma X20_add_then_remove_witness :
  SchedulingModal.removeSlot
    (SchedulingModal.addSlot SchedulingModal.initialSlots) 2
  = SchedulingModal.initialSlots.
Proof.
  apply (X20_add_then_remove_restores_the_slots SchedulingModal.initialSlots).
  simpl. lia.
Defined.

(** X21. Typing into a field of a slot row changes that field of that row
    and nothing else: every other row, and the row count, stay as they
    were, and an index past the end changes nothing.  An edit of the time
    or of the label leaves the dates alone, so it does not change how many
    slots count as filled in when a reply is generated. *)
Theorem X21_updateSlot_changes_one_field
    (fmt : string -> string -> string)
    (slots : list SchedulingModal.Slot) (index : nat)
    (field : SchedulingModal.SlotKey) (value : string) :
  let edited := SchedulingModal.updateSlot slots index field value in
  edited = alter (fun s => SchedulingModal.withField s field value) index slots
  /\ edited !! index
     = (fun s => SchedulingModal.withField s field value) <$> slots !! index
  /\ (forall j, j <> index -> edited !! j = slots !! j)
  /\ length edited = length slots
  /\ (length slots <= index -> edited = slots)
  /\ (field <> SchedulingModal.key_date ->
        map SchedulingModal.date edited = map SchedulingModal.date slots
        /\ length (SchedulingModal.validSlots fmt edited)
           = length (SchedulingModal.validSlots fmt slots)).
Proof.
  intros edited.
  assert (Halter : edited
            = alter (fun s => SchedulingModal.withField s field value)
                index slots)
    by apply (mapi_alter _ index 0).
  rewrite Halter. split; [reflexivity|].
  split; [apply list_lookup_alter_eq|].
  split; [intros j Hj; apply list_lookup_alter_ne; congruence|].
  split; [apply length_alter|].
  split.
  - intros Hi. apply list_eq. intros j.
    destruct (decide (index = j)) as [<- | Hne].
    + rewrite list_lookup_alter_eq, lookup_ge_None_2 by lia. reflexivity.
    + now apply list_lookup_alter_ne.
  - intros Hfield.
    assert (Hdates : map SchedulingModal.date
                       (alter (fun s => SchedulingModal.withField s field value)
                          index slots)
                     = map SchedulingModal.date slots).
    { apply dated_alter. intros s. now destruct field. }
    split; [exact Hdates|].
    unfold SchedulingModal.validSlots.
    now rewrite !length_map, !dated_length, Hdates.
Qed.

(** ** Sector colours for every sector *)

(** X22. [getSectorColor] on every sector.  It answers with a colour class
    exactly when the sector is not one of the property names every object
    inherits; the colour is then the table's entry for a known
    sector and the fallback for any other, which is also the colour of the
    known sector "Other". *)
Theorem X22_getSectorColor_on_every_sector (sector : string) :
  let inherited := "constructor" :: "__proto__" :: Js.Object_prototype_methods in
  ((exists color, Constants.getSectorColor sector = Js.Str color)
   <-> sector ∉ inherited)
  /\ (forall color,
        Constants.getSectorColor sector = Js.Str color ->
        color = default Constants.FALLBACK_SECTOR_COLOR
                  (Constants.KNOWN_SECTOR_COLORS !! sector))
  /\ Constants.KNOWN_SECTOR_COLORS !! "Other"
     = Some Constants.FALLBACK_SECTOR_COLOR.
Proof.
  intros inherited.
  assert (Hstr : forall color,
            Constants.getSectorColor sector = Js.Str color ->
            sector ∉ inherited).
  { intros color Hc Hin. subst inherited.
    repeat (apply elem_of_cons in Hin as [-> | Hin];
            [vm_compute in Hc; discriminate Hc|]).
    inversion Hin. }
  split; [split|split; [|vm_compute; reflexivity]].
  - intros [color Hc]. eauto.
  - intros Hout%Object_prototype_undefined.
    eexists. now apply getSectorColor_own_or_fallback.
  - intros color Hc.
    pose proof (Hstr color Hc) as Hout%Object_prototype_undefined.
    rewrite (getSectorColor_own_or_fallback sector Hout) in Hc. congruence.
Qed.

(** ** Saving an edit in the drafts grid *)

(** X23. [handleSaveEdit] of the drafts grid.  Without a message under
    edit it sends nothing.  Otherwise it sends one PATCH with the edited
    subject and body, and whatever status the service answers with, also a
    refusal, it closes the editor and refreshes the grid; only a request
    that fails to complete leaves the editor open, with no refresh. *)
Theorem X23_handleSaveEdit_ignores_the_status
    {S : Type} (server : forall R, Api.Request R -> S -> Api.Response R * S)
    (editingId : option string) (editSubject editBody : string) (s : S) :
  let r := Api.run server
             (DraftsGrid.handleSaveEdit editingId editSubject editBody) s in
  if Js.truthy_opt editingId then
    let request := Api.PatchMessage (default "" editingId) editSubject editBody in
    match fst (server _ request s) with
    | Api.Rejected =>
        fst r = (Api.Thrown "TypeError: fetch failed", [Api.Requested request])
    | _ =>
        fst r = (Api.Returned None,
                 [Api.Requested request; Api.Performed Api.OnRefresh])
    end
  else r = (Api.Returned editingId, [], s).
Proof.
  unfold DraftsGrid.handleSaveEdit.
  destruct editingId as [id|]; simpl; [|reflexivity].
  destruct (Js.truthy id); simpl; [|reflexivity].
  destruct (server _ _ s) as [res s1]. now destruct res.
Qed.

(** ** The "enriched" count of the project header *)

(** X24. The header counts a company as enriched when its recorded
    enrichment status is completed, while bulk generation submits a company
    when its record carries a non-empty contact email.  When, for the
    companies of the project, a record is completed exactly if it carries
    such an email, the header's count is the number of companies bulk
    generation submits. *)
Theorem X24_enriched_count_agrees_with_submission
    (project : ProjectDetail.t)
    (enrichmentMap : gmap string EnrichmentStatusResponse.t)
    (Hconsistent : forall c e,
        c ∈ ProjectDetail.companies project ->
        enrichmentMap !! ProjectCompanyEntry.company_id c = Some e ->
        (EnrichmentStatusResponse.status e = EnrichmentStatus.completed
         <-> Js.truthy_opt (EnrichmentStatusResponse.contact e ≫= Contact.email)
             = true)) :
  ProjectCRM.enrichedCount project enrichmentMap
  = length (ProjectCRM.enrichedCompanyIds project enrichmentMap).
Proof.
  unfold ProjectCRM.enrichedCount, ProjectCRM.enrichedCompanyIds.
  rewrite length_map. f_equal. apply filter_ext_in. intros c Hc.
  unfold ProjectCRM.contactEmail.
  destruct (enrichmentMap !! ProjectCompanyEntry.company_id c) as [e|] eqn:He;
    simpl; [|reflexivity].
  specialize (Hconsistent c e ltac:(now apply list_elem_of_In) He).
  destruct (Js.truthy_opt (EnrichmentStatusResponse.contact e ≫= Contact.email)).
  - now rewrite (proj2 Hconsistent eq_refl).
  - destruct (EnrichmentStatusResponse.status e); try reflexivity.
    destruct Hconsistent as [Hemail _]. discriminate (Hemail eq_refl).
Qed.

Lemma X24_enriched_count_witness :
  ProjectCRM.enrichedCount
    (Sample.project [Sample.company "c1"; Sample.company "c2"])
    {[ "c1" := Sample.enrichment (Some "owner@acme.example") ]}
  = length
      (ProjectCRM.enrichedCompanyIds
         (Sample.project [Sample.company "c1"; Sample.company "c2"])
         {[ "c1" := Sample.enrichment (Some "owner@acme.example") ]}).
Proof.
  apply X24_enriched_count_agrees_with_submission.
  intros c e Hc He.
  apply elem_of_cons in Hc as [-> | Hc].
  - change (ProjectCompanyEntry.company_id (Sample.company "c1")) with "c1" in He.
    rewrite lookup_singleton_eq in He. injection He as <-. now split.
  - apply list_elem_of_singleton in Hc as ->.
    change (ProjectCompanyEntry.company_id (Sample.company "c2")) with "c2" in He.
    rewrite lookup_singleton_ne in He by discriminate. discriminate He.
Defined.

Example completed_without_email_is_counted_but_not_submitted :
  let project := Sample.project [Sample.company "c1"] in
  let enrichmentMap : gmap string EnrichmentStatusResponse.t :=
    {[ "c1" := Sample.enrichment None ]} in
  ProjectCRM.enrichedCount project enrichmentMap = 1
  /\ ProjectCRM.enrichedCompanyIds project enrichmentMap = [].
Proof. split; vm_compute; reflexivity. Qed.
